(** * go-decision-table: the typed coercion and rule-matching engine

    A shallow embedding of package [decisiontable]: its types, value
    coercion and decimal support, value cloning, the operator engine
    (operators.go), rows (row.go) and the decision table with its
    registration and evaluation entry points, and the loaders of tables
    from JSON documents and from workbooks (loader_helpers.go,
    json_loader.go and the workbook loader), followed by the properties of
    the engine that the specification states and by further properties of
    the engine and of the loaders.

    Conventions of the embedding.
    - A Go [string] is a [string] of bytes, UTF-8 where it holds text;
      [strings.ToLower] maps the ASCII letters, which is all that the
      comparisons of its result with ASCII words can see.
    - [DataType] and [OperatorType] are Go string types and stay strings
      here; a [switch] over them is a chain of string comparisons ending in
      the [default] branch.
    - [MatchPolicy], [NoMatchPolicy] and [RowValidationPolicy] are Go [int]
      types and are integers here, so that values outside the declared
      constants are covered.
    - A function returning [(T, error)] returns [result T]; a run-time panic
      is a third outcome, [Panic].
    - [map[string]any] is a [gmap string any]; reading a missing key yields
      the nil interface value.
    - A loader returns [loaded T], with the errors of the loaders in
      [load_error]; a [map[string]struct{}] used as a set is a
      [gset string], passed on by the functions that add to it.
    - A JSON document is the value that [json.Unmarshal] decodes it to, and
      a workbook is what [GetSheetIndex] and [GetCellValue] return for
      it. *)

From Stdlib Require Import ZArith String Ascii List Lia Bool SpecFloat DecimalString Sorted.
From stdpp Require Import base option list strings gmap.

Local Open Scope string_scope.
Local Open Scope Z_scope.

(** ** Outcomes of fallible calls *)

Abbreviation DataType := string (only parsing).
Abbreviation OperatorType := string (only parsing).

(** The errors of the package, one constructor per [fmt.Errorf] site (sites
    with the same wording share a constructor); wrapped errors keep the
    error they wrap. *)
Inductive error : Type :=
| ErrEmptyString (target : string)
| ErrCannotConvert (target : string)
| ErrOverflow (target : string)
| ErrNotInteger
| ErrParseInt
| ErrParseFloat
| ErrNilToString
| ErrBlankValue
| ErrInvalidDate (s : string)
| ErrInvalidDateTime (s : string)
| ErrNotSlice
| ErrUnsupportedDataType (dt : DataType)
| ErrRegexRequiresPattern
| ErrRegexPatternNotString
| ErrRegexCompile (pattern : string)
| ErrRequiresTrue (op : OperatorType)
| ErrExpectsSlice (op : OperatorType)
| ErrExpectsRegexp
| ErrExpectsStringActual
| ErrAllEqualScalar
| ErrValuesNot (what : string)
| ErrOrderingUnsupported (op : OperatorType)
| ErrUnsupportedOperator (op : OperatorType)
| ErrMissingDataType (number : Z) (column : string)
| ErrRowColumn (number : Z) (column : string) (cause : error)
| ErrUnknownColumn (column : string)
| ErrMissingOperator (column : string)
| ErrColumn (column : string) (cause : error)
| ErrReturnColumn (column : string) (cause : error)
| ErrNoEvalCells
| ErrNoReturnCells
| ErrDefaultPolicy
| ErrDefaultHasEvalCells
| ErrAmbiguous (found : Z)
| ErrNoMatch
| ErrEmptyTableName
| ErrNoConditionColumns
| ErrNoOutputColumns
| ErrColumnNameMissing
| ErrColumnType (column : string)
| ErrColumnDataType (column : string)
| ErrColumnRole (column : string)
| ErrDuplicateColumn (column : string).

Inductive result (A : Type) : Type :=
| Ok (a : A)
| Err (e : error)
| Panic.

Arguments Ok {A} a.
Arguments Err {A} e.
Arguments Panic {A}.

#[global] Instance result_ret : MRet result := fun _ a => Ok a.
#[global] Instance result_bind : MBind result := fun _ _ f r =>
  match r with
  | Ok a => f a
  | Err e => Err e
  | Panic => Panic
  end.

#[global] Instance result_fmap : FMap result := fun _ _ f r =>
  match r with
  | Ok a => Ok (f a)
  | Err e => Err e
  | Panic => Panic
  end.

(** [fmt.Errorf("...: %w", err)] around a failing call. *)
Definition wrap {A : Type} (w : error -> error) (r : result A) : result A :=
  match r with
  | Ok a => Ok a
  | Err e => Err (w e)
  | Panic => Panic
  end.

Definition is_Ok {A : Type} (r : result A) : bool :=
  match r with Ok _ => true | _ => false end.

Definition is_Err {A : Type} (r : result A) : bool :=
  match r with Err _ => true | _ => false end.

(** ** Strings *)

(** [unicode.IsSpace] on the UTF-8 bytes of a string. The ASCII white space
    is tab, line feed, vertical tab, form feed, carriage return and
    space. *)
Definition is_space (c : ascii) : bool :=
  let n := N_of_ascii c in
  ((9 <=? n) && (n <=? 13) || (n =? 32))%N.

(** The two-byte white space runes: U+0085 and U+00A0. *)
Definition is_space2 (a b : ascii) : bool :=
  let '(x, y) := (N_of_ascii a, N_of_ascii b) in
  ((x =? 194) && ((y =? 133) || (y =? 160)))%N.

(** The three-byte white space runes: U+1680, U+2000 to U+200A, U+2028,
    U+2029, U+202F, U+205F and U+3000. *)
Definition is_space3 (a b c : ascii) : bool :=
  let '(x, y, z) := (N_of_ascii a, N_of_ascii b, N_of_ascii c) in
  ((x =? 225) && (y =? 154) && (z =? 128)
   || (x =? 226) && (y =? 128)
      && ((128 <=? z) && (z <=? 138) || (z =? 168) || (z =? 169) || (z =? 175))
   || (x =? 226) && (y =? 129) && (z =? 159)
   || (x =? 227) && (y =? 128) && (z =? 128))%N.

Fixpoint trim_left (s : string) : string :=
  match s with
  | String a r =>
      if is_space a then trim_left r
      else
        match r with
        | String b r2 =>
            if is_space2 a b then trim_left r2
            else
              match r2 with
              | String c r3 => if is_space3 a b c then trim_left r3 else s
              | EmptyString => s
              end
        | EmptyString => s
        end
  | EmptyString => EmptyString
  end.

(** The same on the reversed string: the bytes of a rune come last byte
    first. *)
Fixpoint trim_left_reversed (s : string) : string :=
  match s with
  | String a r =>
      if is_space a then trim_left_reversed r
      else
        match r with
        | String b r2 =>
            if is_space2 b a then trim_left_reversed r2
            else
              match r2 with
              | String c r3 => if is_space3 c b a then trim_left_reversed r3 else s
              | EmptyString => s
              end
        | EmptyString => s
        end
  | EmptyString => EmptyString
  end.

Definition reverse_string (s : string) : string :=
  string_of_list_ascii (List.rev (list_ascii_of_string s)).

Definition trim_right (s : string) : string :=
  reverse_string (trim_left_reversed (reverse_string s)).

(** [strings.TrimSpace] *)
Definition TrimSpace (s : string) : string := trim_right (trim_left s).

Definition lower_ascii (c : ascii) : ascii :=
  let n := N_of_ascii c in
  if ((65 <=? n) && (n <=? 90))%N then ascii_of_N (n + 32) else c.

(** [strings.ToLower] *)
Fixpoint ToLower (s : string) : string :=
  match s with
  | String c r => String (lower_ascii c) (ToLower r)
  | EmptyString => EmptyString
  end.

Definition digit_of (c : ascii) : option Z :=
  let n := N_of_ascii c in
  if ((48 <=? n) && (n <=? 57))%N then Some (Z.of_N n - 48) else None.

(** The value of a non-empty run of decimal digits that makes up the whole
    of [s], read after the digits already accumulated in [acc]. *)
Fixpoint digits_value (acc : Z) (s : string) : option Z :=
  match s with
  | String c r =>
      match digit_of c with
      | Some d =>
          match r with
          | EmptyString => Some (10 * acc + d)
          | _ => digits_value (10 * acc + d) r
          end
      | None => None
      end
  | EmptyString => None
  end.

Definition MaxInt64 : Z := 2 ^ 63 - 1.
Definition MinInt64 : Z := - 2 ^ 63.

(** [strconv.ParseInt(s, 10, 64)]: an optional sign, then decimal digits;
    a value outside the int64 range is an error. *)
Definition ParseInt10 (s : string) : option Z :=
  let signed (neg : bool) (r : string) :=
    match digits_value 0 r with
    | Some n =>
        let v := if neg then - n else n in
        if (MinInt64 <=? v) && (v <=? MaxInt64) then Some v else None
    | None => None
    end in
  match s with
  | String "+" r => signed false r
  | String "-" r => signed true r
  | _ => signed false s
  end.

(** [fmt.Sprint] of a Go integer. *)
Definition format_int (n : Z) : string :=
  NilZero.string_of_int (Z.to_int n).

(** ** Binary floating point *)

(** [float64(v)] for an integer [v]: IEEE 754 binary64, round to nearest
    even. *)
Definition float64_of_int (v : Z) : spec_float :=
  binary_normalize 53 1024 v 0 false.

(** Go's [<], [<=], [>], [>=] on float64 values. *)
Definition float64_lt (l r : spec_float) : bool := SFltb l r.
Definition float64_le (l r : spec_float) : bool := SFleb l r.
Definition float64_gt (l r : spec_float) : bool := SFltb r l.
Definition float64_ge (l r : spec_float) : bool := SFleb r l.

(** [math.Trunc(v) == v] *)
Definition float_is_integral (f : spec_float) : bool :=
  match f with
  | S754_zero _ | S754_infinity _ => true
  | S754_nan => false
  | S754_finite _ m e => (0 <=? e) || (Z.pos m mod 2 ^ (- e) =? 0)
  end.

(** The integer a finite integral float denotes. *)
Definition float_integer_value (f : spec_float) : option Z :=
  match f with
  | S754_zero _ => Some 0
  | S754_finite s m e =>
      let v := if 0 <=? e then Z.pos m * 2 ^ e else Z.pos m / 2 ^ (- e) in
      Some (if s then - v else v)
  | _ => None
  end.

(** ** Decimals: [*big.Float] *)

(** The number [m * 2 ^ e], or an infinity. Every decimal the package
    creates has precision [decimalPrecision]; [Cmp], the only operation the
    engine applies to decimals, compares the numbers and never looks at the
    precision, which the model therefore leaves out. *)
Inductive BigFloat : Type :=
| BFinite (m e : Z)
| BInf (neg : bool).

Definition decimalPrecision : Z := 128.

(** [x.Cmp(y)] *)
Definition BigFloat_Cmp (x y : BigFloat) : comparison :=
  match x, y with
  | BFinite m1 e1, BFinite m2 e2 =>
      let e := Z.min e1 e2 in
      (m1 * 2 ^ (e1 - e) ?= m2 * 2 ^ (e2 - e))
  | BInf n1, BInf n2 =>
      match n1, n2 with
      | true, false => Lt
      | false, true => Gt
      | _, _ => Eq
      end
  | BInf n, BFinite _ _ => if n then Lt else Gt
  | BFinite _ _, BInf n => if n then Gt else Lt
  end.

(** The positive rational [n / d] rounded to a [prec]-bit significand, to
    nearest with ties to even (the rounding mode of a fresh [big.Float]):
    the quotient is computed with two or three guard bits and a sticky
    remainder. *)
Definition round_ratio (prec n d : Z) : Z * Z :=
  let s := prec + 2 + Z.log2 d - Z.log2 n in
  let n' := if 0 <=? s then n * 2 ^ s else n in
  let d' := if 0 <=? s then d else d * 2 ^ (- s) in
  let q := n' / d' in
  let sticky := negb (n' mod d' =? 0) in
  let b := Z.log2 q + 1 - prec in
  let m := q / 2 ^ b in
  let low := q mod 2 ^ b in
  let half := 2 ^ (b - 1) in
  let up := (half <? low) || ((low =? half) && (sticky || Z.odd m)) in
  (if up then m + 1 else m, b - s).

(** [new(big.Float).SetPrec(decimalPrecision).SetInt64(v)]: exact. *)
Definition BigFloat_of_int (v : Z) : BigFloat := BFinite v 0.

(** [SetFloat64]: exact for a finite value or an infinity; a NaN makes
    [SetFloat64] panic. *)
Definition BigFloat_of_float (f : spec_float) : option BigFloat :=
  match f with
  | S754_zero _ => Some (BFinite 0 0)
  | S754_finite s m e => Some (BFinite (if s then Z.neg m else Z.pos m) e)
  | S754_infinity s => Some (BInf s)
  | S754_nan => None
  end.

Definition take_sign (s : string) : bool * string :=
  match s with
  | String "+" r => (false, r)
  | String "-" r => (true, r)
  | _ => (false, s)
  end.

(** The leading decimal digits of [s]: their value after [acc], how many
    there were after the [n] already read, and the rest of [s]. *)
Fixpoint scan_digits (acc n : Z) (s : string) : Z * Z * string :=
  match s with
  | String c r =>
      match digit_of c with
      | Some d => scan_digits (10 * acc + d) (n + 1) r
      | None => (acc, n, s)
      end
  | EmptyString => (acc, n, s)
  end.

(** A plain decimal literal: sign, digits with an optional radix point (at
    least one digit), and an optional decimal exponent. The result is the
    sign, the digits read as one integer and the power of ten that scales
    it. *)
Definition parse_decimal (s : string) : option (bool * Z * Z) :=
  let '(neg, s1) := take_sign s in
  let '(ip, ni, s2) := scan_digits 0 0 s1 in
  let '(mant, nf, s3) :=
    match s2 with
    | String "." r => scan_digits ip 0 r
    | _ => (ip, 0, s2)
    end in
  if ni + nf =? 0 then None
  else
    match s3 with
    | EmptyString => Some (neg, mant, - nf)
    | String c r =>
        if (c =? "e")%char || (c =? "E")%char then
          let '(eneg, r1) := take_sign r in
          match digits_value 0 r1 with
          | Some x => Some (neg, mant, (if eneg then - x else x) - nf)
          | None => None
          end
        else None
    end.

(** [big.Float.SetString] scales the scanned digits by a power of five held
    in 192 bits; up to this exponent the power is exact and the result is
    the correctly rounded value of the literal. *)
Definition pow5_exact : Z := 82.

Definition decimal_literal_value (neg : bool) (mant x : Z) : BigFloat :=
  if mant =? 0 then BFinite 0 0
  else
    let '(m, e) :=
      if 0 <=? x then round_ratio decimalPrecision (mant * 10 ^ x) 1
      else round_ratio decimalPrecision mant (10 ^ (- x)) in
    BFinite (if neg then - m else m) e.

(** ** Time *)

(** A [time.Time]: the instant in nanoseconds since the Unix epoch and the
    zone offset in seconds; [Equal], [After] and [Before] compare
    instants. *)
Record Time : Type := mkTime { unix_nanos : Z; zone_offset : Z }.

Definition Time_Equal (t u : Time) : bool := unix_nanos t =? unix_nanos u.
Definition Time_After (t u : Time) : bool := unix_nanos u <? unix_nanos t.
Definition Time_Before (t u : Time) : bool := unix_nanos t <? unix_nanos u.

Definition layout_date : string := "2006-01-02".
Definition RFC3339Nano : string := "2006-01-02T15:04:05.999999999Z07:00".
Definition RFC3339 : string := "2006-01-02T15:04:05Z07:00".

(** ** Dynamic values: Go's [any] *)

Inductive IntKind : Type :=
| KInt | KInt8 | KInt16 | KInt32 | KInt64
| KUint | KUint8 | KUint16 | KUint32 | KUint64.

Inductive FloatKind : Type := KFloat32 | KFloat64.

(** The dynamic types the package distinguishes in its type switches. A
    compiled [*regexp.Regexp] is identified with its source pattern. A
    value of any other dynamic type is a [VOther]: what [fmt.Sprint] prints
    for it, the result of its [String] method when it is a [fmt.Stringer],
    and its elements when reflection sees a slice or an array. A
    [*big.Float] can be a nil pointer inside a non-nil interface value. *)
#[warnings="-register-all"]
Inductive any : Type :=
| VNil
| VString (s : string)
| VInt (k : IntKind) (n : Z)
| VFloat (k : FloatKind) (f : spec_float)
| VBool (b : bool)
| VJSONNumber (s : string)
| VBigFloatPtr (d : option BigFloat)
| VBigFloat (d : BigFloat)
| VTime (t : Time)
| VRegexp (pattern : string)
| VSlice (l : list any)
| VStrings (l : list string)
| VInts (l : list Z)
| VInt64s (l : list Z)
| VFloat64s (l : list spec_float)
| VBools (l : list bool)
| VOther (sprint : string) (stringer : option string) (elems : option (list any)).

(** [v == nil] for an interface value. *)
Definition is_nil (v : any) : bool :=
  match v with VNil => true | _ => false end.

(** ** The Go library behind the package

    What the package calls and the embedding does not spell out: time and
    regular-expression parsing, number formatting, and the corners of
    number parsing and conversion. *)
Class GoLibrary : Type := {
  (** [fmt.Sprint] of a value that is neither a string, an integer, a
      boolean nor a [json.Number] *)
  fmt_Sprint_ext : any -> string;
  (** [time.Parse(layout, s)] *)
  time_Parse : string -> string -> option Time;
  (** [t.String()] *)
  Time_String : Time -> string;
  (** [x.String()] of a [*big.Float] *)
  BigFloat_String : option BigFloat -> string;
  (** whether [regexp.Compile] accepts the pattern *)
  regexp_Compile_ok : string -> bool;
  (** [re.MatchString(s)] for the compiled pattern *)
  Regexp_MatchString : string -> string -> bool;
  (** [big.Float.SetString] on a string that is not a plain decimal literal
      with an exactly scaled exponent (hexadecimal or binary mantissa, digit
      separators, infinities, malformed input) *)
  big_SetString_ext : string -> option BigFloat;
  (** [strconv.ParseFloat(s, 64)] *)
  strconv_ParseFloat : string -> option spec_float;
  (** [int64(f)] for an integral float outside the int64 range, which Go
      leaves to the implementation *)
  int64_of_float_ext : spec_float -> Z
}.

(** ** Types of the package *)

Definition DataTypeString : DataType := "STRING".
Definition DataTypeInteger : DataType := "INTEGER".
Definition DataTypeBoolean : DataType := "BOOLEAN".
Definition DataTypeDecimal : DataType := "DECIMAL".
Definition DataTypeDate : DataType := "DATE".
Definition DataTypeDateTime : DataType := "DATETIME".
Definition DataTypeListString : DataType := "LIST_STRING".
Definition DataTypeListInteger : DataType := "LIST_INTEGER".

Definition OperatorGreaterOrEqual : OperatorType := "GT_EQ".
Definition OperatorGreater : OperatorType := "GT".
Definition OperatorEqual : OperatorType := "EQ".
Definition OperatorLess : OperatorType := "LT".
Definition OperatorLessOrEqual : OperatorType := "LT_EQ".
Definition OperatorNotEqual : OperatorType := "NOT_EQ".
Definition OperatorIn : OperatorType := "IN".
Definition OperatorNotIn : OperatorType := "NOT_IN".
Definition OperatorAnyContained : OperatorType := "ANY_CONTAINED_IN".
Definition OperatorNotAnyContained : OperatorType := "NOT_ANY_CONTAINED_IN".
Definition OperatorAllContained : OperatorType := "ALL_CONTAINED_IN".
Definition OperatorNotAllContained : OperatorType := "NOT_ALL_CONTAINED_IN".
Definition OperatorContainsAll : OperatorType := "CONTAINS_ALL".
Definition OperatorNotContainsAll : OperatorType := "NOT_CONTAINS_ALL".
Definition OperatorAllEqual : OperatorType := "ALL_EQUAL".
Definition OperatorMatchesRegex : OperatorType := "MATCHES_REGEX".
Definition OperatorIsNull : OperatorType := "IS_NULL".
Definition OperatorIsNotNull : OperatorType := "IS_NOT_NULL".

Definition ColumnTypeCondition : string := "CONDITION".
Definition ColumnTypeConclusion : string := "CONCLUSION".
Definition ColumnTypeMetadata : string := "METADATA".

Definition MatchPolicyFirst : Z := 0.
Definition MatchPolicyAll : Z := 1.
Definition MatchPolicyUnique : Z := 2.

Definition NoMatchPolicyReturnDefault : Z := 0.
Definition NoMatchPolicyThrowError : Z := 1.

Definition RowValidationStrict : Z := 0.
Definition RowValidationLenient : Z := 1.

Record Column : Type := mkColumn {
  col_Name : string;
  col_Type : string;
  col_DataType : DataType
}.

Record EvalCell : Type := mkEvalCell {
  ec_Column : string;
  ec_Operator : OperatorType;
  ec_Value : any;
  ec_dataType : DataType
}.

Record ReturnCell : Type := mkReturnCell {
  rc_Column : string;
  rc_Value : any;
  rc_dataType : DataType
}.

Record Row : Type := mkRow {
  EvalCells : list EvalCell;
  ReturnCells : list ReturnCell;
  RuleID : string;
  Comments : string;
  Number : Z
}.

Record MatchedRow : Type := mkMatchedRow {
  Values : gmap string any;
  mr_RuleID : string;
  mr_Comments : string;
  RowNumber : Z
}.

Local Infix "=s" := String.eqb (at level 70, no associativity).

(** A case list of a [switch] over strings. *)
Definition one_of (s : string) (cases : list string) : bool :=
  existsb (String.eqb s) cases.

(** A loop that converts the elements in order and returns at the first
    failure. *)
Fixpoint mapM_result {A B : Type} (f : A -> result B) (l : list A) : result (list B) :=
  match l with
  | [] => Ok []
  | x :: r =>
      match f x with
      | Ok y =>
          match mapM_result f r with
          | Ok ys => Ok (y :: ys)
          | Err e => Err e
          | Panic => Panic
          end
      | Err e => Err e
      | Panic => Panic
      end
  end.

(** ** Value coercion and decimals *)

Section Coercion.
Context `{GoLibrary}.

Definition requiresCollectionValue (op : OperatorType) : bool :=
  one_of op [OperatorIn; OperatorNotIn; OperatorAnyContained;
             OperatorNotAnyContained; OperatorAllContained;
             OperatorNotAllContained; OperatorContainsAll;
             OperatorNotContainsAll].

Definition expectsActualCollection (op : OperatorType) : bool :=
  one_of op [OperatorAnyContained; OperatorNotAnyContained;
             OperatorAllContained; OperatorNotAllContained;
             OperatorContainsAll; OperatorNotContainsAll; OperatorAllEqual].

(** [fmt.Sprint(raw)] *)
Definition fmt_Sprint (raw : any) : string :=
  match raw with
  | VNil => "<nil>"
  | VString s => s
  | VInt _ n => format_int n
  | VBool b => if b then "true" else "false"
  | VJSONNumber s => s
  | VOther sprint _ _ => sprint
  | _ => fmt_Sprint_ext raw
  end.

(** [v.String()] when the dynamic type of [v] implements [fmt.Stringer];
    on a nil [*big.Float] the method dereferences the pointer. *)
Definition Stringer_String (v : any) : option (result string) :=
  match v with
  | VJSONNumber s => Some (Ok s)
  | VTime t => Some (Ok (Time_String t))
  | VRegexp pattern => Some (Ok pattern)
  | VBigFloatPtr (Some d) => Some (Ok (BigFloat_String (Some d)))
  | VBigFloatPtr None => Some Panic
  | VOther _ (Some s) _ => Some (Ok s)
  | _ => None
  end.

Definition toTrimmedString (raw : any) : result string :=
  let of_string (v : string) : result string :=
    let trimmed := TrimSpace v in
    if trimmed =s "" then Err (ErrEmptyString "string") else Ok trimmed in
  match raw with
  | VNil => Err ErrNilToString
  | VString v => of_string v
  | _ =>
      match Stringer_String raw with
      | Some r => v ← r; of_string v
      | None =>
          let trimmed := TrimSpace (fmt_Sprint raw) in
          if trimmed =s "" then Err ErrBlankValue else Ok trimmed
      end
  end.

Definition parseISODate (raw : any) : result Time :=
  str ← toTrimmedString raw;
  match time_Parse layout_date str with
  | Some parsed => Ok parsed
  | None => Err (ErrInvalidDate str)
  end.

Definition parseISODateTime (raw : any) : result Time :=
  str ← toTrimmedString raw;
  match time_Parse RFC3339Nano str with
  | Some parsed => Ok parsed
  | None =>
      match time_Parse RFC3339 str with
      | Some parsed => Ok parsed
      | None => Err (ErrInvalidDateTime str)
      end
  end.

Definition elementDataType (dt : DataType) : DataType :=
  if (dt =s DataTypeListString) then DataTypeString
  else if (dt =s DataTypeListInteger) then DataTypeInteger
  else dt.

Definition toInterfaceSlice (raw : any) : result (list any) :=
  match raw with
  | VNil => Ok []
  | VSlice v => Ok v
  | VStrings v => Ok (VString <$> v)
  | VInts v => Ok (VInt KInt <$> v)
  | VInt64s v => Ok (VInt KInt64 <$> v)
  | VFloat64s v => Ok (VFloat KFloat64 <$> v)
  | VBools v => Ok (VBool <$> v)
  | VOther _ _ (Some elems) => Ok elems
  | _ => Err ErrNotSlice
  end.

(** [int64(v)] for a Go integer: a [uint] above [MaxInt64] wraps around. *)
Definition wrap_int64 (n : Z) : Z := (n + 2 ^ 63) mod 2 ^ 64 - 2 ^ 63.

(** [int64(f)] for a float [f] with [math.Trunc(f) == f]. *)
Definition int64_of_float (f : spec_float) : Z :=
  match float_integer_value f with
  | Some v => if (MinInt64 <=? v) && (v <=? MaxInt64) then v else int64_of_float_ext f
  | None => int64_of_float_ext f
  end.

Definition toInt64 (raw : any) : result Z :=
  match raw with
  | VInt KUint64 v => if MaxInt64 <? v then Err (ErrOverflow "int64") else Ok v
  | VInt _ v => Ok (wrap_int64 v)
  | VFloat _ v =>
      if float_is_integral v then Ok (int64_of_float v) else Err ErrNotInteger
  | VString v =>
      let trimmed := TrimSpace v in
      if (trimmed =s "") then Err (ErrEmptyString "int64")
      else match ParseInt10 trimmed with
           | Some i => Ok i
           | None => Err ErrParseInt
           end
  | VJSONNumber v =>
      match ParseInt10 v with
      | Some i => Ok i
      | None =>
          match strconv_ParseFloat v with
          | None => Err ErrParseFloat
          | Some f =>
              if float_is_integral f then Ok (int64_of_float f) else Err ErrNotInteger
          end
      end
  | _ => Err (ErrCannotConvert "int64")
  end.

Definition toBool (raw : any) : result bool :=
  match raw with
  | VBool v => Ok v
  | VString v =>
      let trimmed := TrimSpace v in
      if (trimmed =s "") then Err (ErrEmptyString "bool")
      else
        let low := ToLower trimmed in
        if one_of low ["true"; "1"; "yes"; "y"] then Ok true
        else if one_of low ["false"; "0"; "no"; "n"] then Ok false
        else Err (ErrCannotConvert "bool")
  | VInt _ v => Ok (negb (v =? 0))
  | _ => Err (ErrCannotConvert "bool")
  end.

(** [new(big.Float).SetPrec(decimalPrecision).SetString(s)] *)
Definition big_SetString (s : string) : option BigFloat :=
  match parse_decimal s with
  | Some (neg, mant, x) =>
      if Z.abs x <=? pow5_exact then Some (decimal_literal_value neg mant x)
      else big_SetString_ext s
  | None => big_SetString_ext s
  end.

(** The result is the [*big.Float] pointer, which is nil for a nil pointer
    argument. *)
Definition toBigFloat (raw : any) : result (option BigFloat) :=
  let of_string (v : string) : result (option BigFloat) :=
    let trim := TrimSpace v in
    if (trim =s "") then Err (ErrEmptyString "decimal")
    else match big_SetString trim with
         | Some f => Ok (Some f)
         | None => Err (ErrCannotConvert "decimal")
         end in
  let of_float (f : spec_float) : result (option BigFloat) :=
    match BigFloat_of_float f with
    | Some d => Ok (Some d)
    | None => Panic
    end in
  match raw with
  | VNil => Ok None
  | VBigFloatPtr v => Ok v
  | VBigFloat v => Ok (Some v)
  | VString v => of_string v
  | VInt KInt64 v => Ok (Some (BigFloat_of_int v))
  | VInt KUint64 v =>
      if MaxInt64 <? v then Err (ErrOverflow "decimal")
      else Ok (Some (BigFloat_of_int v))
  | VInt _ v => of_float (float64_of_int v)
  | VFloat _ v => of_float v
  | _ =>
      match Stringer_String raw with
      | Some r => v ← r; of_string v
      | None => Err (ErrCannotConvert "decimal")
      end
  end.

Definition cloneDecimal (src : option BigFloat) : option BigFloat := src.

(** The body of [coercePrimitive]; [self] stands for the recursive call
    that [coerceList] makes on each element. *)
Definition coercePrimitive_body (self : DataType -> any -> result any)
    (dt : DataType) (raw : any) : result any :=
  let coerceList (raw : any) (elemType : DataType) : result (list any) :=
    values ← toInterfaceSlice raw;
    mapM_result (self elemType) values in
  if is_nil raw then Ok VNil
  else if (dt =s DataTypeString) then Ok (VString (fmt_Sprint raw))
  else if (dt =s DataTypeInteger) then VInt KInt64 <$> toInt64 raw
  else if (dt =s DataTypeDecimal) then VBigFloatPtr <$> toBigFloat raw
  else if (dt =s DataTypeBoolean) then VBool <$> toBool raw
  else if (dt =s DataTypeDate) then VTime <$> parseISODate raw
  else if (dt =s DataTypeDateTime) then VTime <$> parseISODateTime raw
  else if (dt =s DataTypeListString) then VSlice <$> coerceList raw DataTypeString
  else if (dt =s DataTypeListInteger) then VSlice <$> coerceList raw DataTypeInteger
  else Err (ErrUnsupportedDataType dt).

(** [coercePrimitive] calls itself only through [coerceList], and only at
    the element types [DataTypeString] and [DataTypeInteger], whose branches
    make no further call: two unfoldings of the body are the function. *)
Definition coercePrimitive_elem : DataType -> any -> result any :=
  coercePrimitive_body (fun dt _ => Err (ErrUnsupportedDataType dt)).

Definition coercePrimitive : DataType -> any -> result any :=
  coercePrimitive_body coercePrimitive_elem.

Definition coerceList (raw : any) (elemType : DataType) : result (list any) :=
  values ← toInterfaceSlice raw;
  mapM_result (coercePrimitive elemType) values.

Definition sanitizeCollection (dt : DataType) (raw : any) : result (list any) :=
  if is_nil raw then Ok []
  else
    values ← toInterfaceSlice raw;
    mapM_result (coercePrimitive (elementDataType dt)) values.

Definition sanitizeExpectedValue (dt : DataType) (op : OperatorType) (raw : any) : result any :=
  if (op =s OperatorMatchesRegex) then
    if is_nil raw then Err ErrRegexRequiresPattern
    else
      pattern ← coercePrimitive DataTypeString raw;
      match pattern with
      | VString str =>
          if regexp_Compile_ok str then Ok (VRegexp str) else Err (ErrRegexCompile str)
      | _ => Err ErrRegexPatternNotString
      end
  else if one_of op [OperatorIsNull; OperatorIsNotNull] then
    if is_nil raw then Ok (VBool true)
    else
      flag ← toBool raw;
      if negb flag then Err (ErrRequiresTrue op) else Ok (VBool flag)
  else if requiresCollectionValue op then VSlice <$> sanitizeCollection dt raw
  else coercePrimitive dt raw.

Definition sanitizeReturnValue (dt : DataType) (raw : any) : result any :=
  coercePrimitive dt raw.

Definition sanitizeActualValue (dt : DataType) (actual : any) : result any :=
  coercePrimitive dt actual.

Definition sanitizeActualCollection (dt : DataType) (actual : any) : result (list any) :=
  sanitizeCollection dt actual.

End Coercion.

(** ** Value isolation: clones *)

Fixpoint cloneArbitraryValue (v : any) : any :=
  match v with
  | VBigFloatPtr dec => VBigFloatPtr (cloneDecimal dec)
  | VSlice list => VSlice (List.map cloneArbitraryValue list)
  | _ => v
  end.

Definition cloneAnySlice (src : list any) : list any :=
  List.map cloneArbitraryValue src.

Definition cloneValueForType (v : any) (dt : DataType) : any :=
  match v with
  | VBigFloatPtr dec =>
      if dt =s DataTypeDecimal then VBigFloatPtr (cloneDecimal dec) else v
  | VSlice list =>
      if (dt =s DataTypeListString) || (dt =s DataTypeListInteger)
      then VSlice (cloneAnySlice list) else v
  | _ => v
  end.

Definition cloneMap (src : gmap string any) : gmap string any :=
  cloneArbitraryValue <$> src.

(** ** Operator evaluation (operators.go) *)

Section Operators.
Context `{GoLibrary}.

(** [match, err := f(...); return !match, err] *)
Definition negated (r : result bool) : result bool := negb <$> r.

(** The loop of [equalsList] over two slices of the same length. *)
Fixpoint equalsList_loop (eq : any -> any -> result bool) (lhs rhs : list any) : result bool :=
  match lhs, rhs with
  | l :: lhs', r :: rhs' =>
      match eq l r with
      | Ok true => equalsList_loop eq lhs' rhs'
      | Ok false => Ok false
      | Err e => Err e
      | Panic => Panic
      end
  | _, _ => Ok true
  end.

(** The body of [equals]; [self] stands for the recursive call that
    [equalsList] makes on each pair of elements. *)
Definition equals_body (self : DataType -> any -> any -> result bool)
    (dt : DataType) (left right : any) : result bool :=
  let equalsList (elemType : DataType) (left right : any) : result bool :=
    match left, right with
    | VSlice lhs, VSlice rhs =>
        if negb (length lhs =? length rhs)%nat then Ok false
        else equalsList_loop (self elemType) lhs rhs
    | _, _ => Err (ErrValuesNot "list")
    end in
  if is_nil left || is_nil right then Ok (is_nil left && is_nil right)
  else if dt =s DataTypeString then
    match left, right with
    | VString lhs, VString rhs => Ok (lhs =s rhs)
    | _, _ => Err (ErrValuesNot "strings")
    end
  else if dt =s DataTypeInteger then
    match left, right with
    | VInt KInt64 lhs, VInt KInt64 rhs => Ok (lhs =? rhs)
    | _, _ => Err (ErrValuesNot "int64")
    end
  else if dt =s DataTypeDecimal then
    match left, right with
    | VBigFloatPtr lbd, VBigFloatPtr rbd =>
        match lbd, rbd with
        | Some l, Some r =>
            Ok (match BigFloat_Cmp l r with Eq => true | _ => false end)
        | _, _ => Panic
        end
    | _, _ => Err (ErrValuesNot "decimal")
    end
  else if dt =s DataTypeBoolean then
    match left, right with
    | VBool lhs, VBool rhs => Ok (Bool.eqb lhs rhs)
    | _, _ => Err (ErrValuesNot "bool")
    end
  else if one_of dt [DataTypeDate; DataTypeDateTime] then
    match left, right with
    | VTime lhs, VTime rhs => Ok (Time_Equal lhs rhs)
    | _, _ => Err (ErrValuesNot "time.Time")
    end
  else if dt =s DataTypeListString then equalsList DataTypeString left right
  else if dt =s DataTypeListInteger then equalsList DataTypeInteger left right
  else Err (ErrUnsupportedDataType dt).

(** As for [coercePrimitive]: [equals] calls itself only through
    [equalsList] at the two scalar element types. *)
Definition equals_elem : DataType -> any -> any -> result bool :=
  equals_body (fun dt _ _ => Err (ErrUnsupportedDataType dt)).

Definition equals : DataType -> any -> any -> result bool :=
  equals_body equals_elem.

Definition equalsList (elemType : DataType) (left right : any) : result bool :=
  match left, right with
  | VSlice lhs, VSlice rhs =>
      if negb (length lhs =? length rhs)%nat then Ok false
      else equalsList_loop (equals elemType) lhs rhs
  | _, _ => Err (ErrValuesNot "list")
  end.

Definition compare (dt : DataType) (op : OperatorType) (left right : any) : result bool :=
  if is_nil left || is_nil right then Ok false
  else if dt =s DataTypeInteger then
    match left, right with
    | VInt KInt64 lv, VInt KInt64 rv =>
        let l := float64_of_int lv in
        let r := float64_of_int rv in
        if op =s OperatorGreater then Ok (float64_gt l r)
        else if op =s OperatorGreaterOrEqual then Ok (float64_ge l r)
        else if op =s OperatorLess then Ok (float64_lt l r)
        else if op =s OperatorLessOrEqual then Ok (float64_le l r)
        else Err (ErrUnsupportedOperator op)
    | _, _ => Err (ErrValuesNot "int64")
    end
  else if dt =s DataTypeDecimal then
    match left, right with
    | VBigFloatPtr lbd, VBigFloatPtr rbd =>
        (* [lbd.Cmp(rbd)] dereferences both pointers *)
        let Cmp (test : comparison -> bool) : result bool :=
          match lbd, rbd with
          | Some l, Some r => Ok (test (BigFloat_Cmp l r))
          | _, _ => Panic
          end in
        if op =s OperatorGreater then
          Cmp (fun c => match c with Gt => true | _ => false end)
        else if op =s OperatorGreaterOrEqual then
          Cmp (fun c => match c with Lt => false | _ => true end)
        else if op =s OperatorLess then
          Cmp (fun c => match c with Lt => true | _ => false end)
        else if op =s OperatorLessOrEqual then
          Cmp (fun c => match c with Gt => false | _ => true end)
        else Err (ErrUnsupportedOperator op)
    | _, _ => Err (ErrValuesNot "decimal")
    end
  else if one_of dt [DataTypeDate; DataTypeDateTime] then
    match left, right with
    | VTime lTime, VTime rTime =>
        if op =s OperatorGreater then Ok (Time_After lTime rTime)
        else if op =s OperatorGreaterOrEqual then Ok (negb (Time_Before lTime rTime))
        else if op =s OperatorLess then Ok (Time_Before lTime rTime)
        else if op =s OperatorLessOrEqual then Ok (negb (Time_After lTime rTime))
        else Err (ErrUnsupportedOperator op)
    | _, _ => Err (ErrValuesNot "time.Time")
    end
  else Err (ErrOrderingUnsupported op).

Fixpoint containsValue_loop (elemType : DataType) (haystack : list any) (needle : any) : result bool :=
  match haystack with
  | candidate :: rest =>
      match equals elemType candidate needle with
      | Ok true => Ok true
      | Ok false => containsValue_loop elemType rest needle
      | Err e => Err e
      | Panic => Panic
      end
  | [] => Ok false
  end.

Definition containsValue (dt : DataType) (haystack : list any) (needle : any) : result bool :=
  containsValue_loop (elementDataType dt) haystack needle.

Definition evaluateScalarOperator (dt : DataType) (op : OperatorType) (actual expected : any) : result bool :=
  if op =s OperatorEqual then equals dt actual expected
  else if op =s OperatorNotEqual then negated (equals dt actual expected)
  else if one_of op [OperatorGreater; OperatorGreaterOrEqual; OperatorLess; OperatorLessOrEqual]
  then compare dt op actual expected
  else if op =s OperatorIn then
    match expected with
    | VSlice expectedSlice => containsValue dt expectedSlice actual
    | _ => Err (ErrExpectsSlice op)
    end
  else if op =s OperatorNotIn then
    match expected with
    | VSlice expectedSlice => negated (containsValue dt expectedSlice actual)
    | _ => Err (ErrExpectsSlice op)
    end
  else if op =s OperatorMatchesRegex then
    if is_nil actual then Ok false
    else
      match expected with
      | VRegexp re =>
          match actual with
          | VString value => Ok (Regexp_MatchString re value)
          | _ => Err ErrExpectsStringActual
          end
      | _ => Err ErrExpectsRegexp
      end
  else if op =s OperatorIsNull then Ok (is_nil actual)
  else if op =s OperatorIsNotNull then Ok (negb (is_nil actual))
  else Err (ErrUnsupportedOperator op).

(** [for _, v := range actual]: true at the first [v] found in
    [expectedSlice]. *)
Fixpoint anyContained_loop (dt : DataType) (expectedSlice actual : list any) : result bool :=
  match actual with
  | v :: rest =>
      match containsValue dt expectedSlice v with
      | Ok true => Ok true
      | Ok false => anyContained_loop dt expectedSlice rest
      | Err e => Err e
      | Panic => Panic
      end
  | [] => Ok false
  end.

(** The loop shared by ALL_CONTAINED_IN ([needles] is the actual list) and
    CONTAINS_ALL ([needles] is the expected list): false at the first needle
    missing from [haystack]. *)
Fixpoint allContained_loop (dt : DataType) (haystack needles : list any) : result bool :=
  match needles with
  | v :: rest =>
      match containsValue dt haystack v with
      | Ok true => allContained_loop dt haystack rest
      | Ok false => Ok false
      | Err e => Err e
      | Panic => Panic
      end
  | [] => Ok true
  end.

Fixpoint allEqual_loop (dt : DataType) (expected : any) (actual : list any) : result bool :=
  match actual with
  | v :: rest =>
      match equals dt v expected with
      | Ok true => allEqual_loop dt expected rest
      | Ok false => Ok false
      | Err e => Err e
      | Panic => Panic
      end
  | [] => Ok true
  end.

(** The negated operators call the function again with the positive
    operator; the positive cases are named here so that the call is not a
    recursion. *)
Definition evaluateCollectionOperator (dt : DataType) (op : OperatorType)
    (actual : list any) (expected : any) : result bool :=
  let anyContained :=
    match expected with
    | VSlice expectedSlice => anyContained_loop dt expectedSlice actual
    | _ => Err (ErrExpectsSlice OperatorAnyContained)
    end in
  let allContained :=
    match expected with
    | VSlice expectedSlice => allContained_loop dt expectedSlice actual
    | _ => Err (ErrExpectsSlice OperatorAllContained)
    end in
  let containsAll :=
    match expected with
    | VSlice expectedSlice => allContained_loop dt actual expectedSlice
    | _ => Err (ErrExpectsSlice OperatorContainsAll)
    end in
  if op =s OperatorAnyContained then anyContained
  else if op =s OperatorNotAnyContained then negated anyContained
  else if op =s OperatorAllContained then allContained
  else if op =s OperatorNotAllContained then negated allContained
  else if op =s OperatorContainsAll then containsAll
  else if op =s OperatorNotContainsAll then negated containsAll
  else if op =s OperatorAllEqual then
    if is_nil expected then Err ErrAllEqualScalar
    else
      match allEqual_loop dt expected actual with
      | Ok true => Ok (0 <? length actual)%nat
      | r => r
      end
  else Err (ErrUnsupportedOperator op).

Definition evaluateCell (dt : DataType) (op : OperatorType) (actual expected : any) : result bool :=
  if expectsActualCollection op then
    actualSlice ← sanitizeActualCollection dt actual;
    evaluateCollectionOperator dt op actualSlice expected
  else
    actualValue ← sanitizeActualValue dt actual;
    evaluateScalarOperator dt op actualValue expected.

End Operators.

(** ** Rows (row.go) *)

Section Rows.
Context `{GoLibrary}.

(** [input[column]]: the nil interface value when the key is missing. *)
Definition input_at (input : gmap string any) (column : string) : any :=
  default VNil (input !! column).

(** The loop of [Row.matches] over the cells that remain; [number] is
    [r.Number]. *)
Fixpoint matches_cells (number : Z) (cells : list EvalCell) (input : gmap string any) : result bool :=
  match cells with
  | cell :: rest =>
      if ec_dataType cell =s "" then
        Err (ErrMissingDataType number (ec_Column cell))
      else
        let actual := input_at input (ec_Column cell) in
        match evaluateCell (ec_dataType cell) (ec_Operator cell) actual (ec_Value cell) with
        | Ok true => matches_cells number rest input
        | Ok false => Ok false
        | Err e => Err (ErrRowColumn number (ec_Column cell) e)
        | Panic => Panic
        end
  | [] => Ok true
  end.

Definition matches (r : Row) (input : gmap string any) : result bool :=
  matches_cells (Number r) (EvalCells r) input.

Definition materializeReturnValues (r : Row) : gmap string any :=
  fold_left
    (fun values cell =>
       <[rc_Column cell := cloneValueForType (rc_Value cell) (rc_dataType cell)]> values)
    (ReturnCells r) ∅.

End Rows.

(** ** The decision table *)

Record DecisionTable : Type := mkDecisionTable {
  Name : string;
  conditionColumns : gmap string Column;
  outputColumns : gmap string Column;
  rows : list Row;
  defaultRow : option Row;
  matchPolicy : Z;
  noMatchPolicy : Z;
  rowValidation : Z
}.

(** An [Option] updates the table under construction. *)
Definition Option : Type := DecisionTable -> DecisionTable.

Definition WithMatchPolicy (mp : Z) : Option := fun dt =>
  mkDecisionTable (Name dt) (conditionColumns dt) (outputColumns dt) (rows dt)
    (defaultRow dt) mp (noMatchPolicy dt) (rowValidation dt).

Definition WithNoMatchPolicy (nmp : Z) : Option := fun dt =>
  mkDecisionTable (Name dt) (conditionColumns dt) (outputColumns dt) (rows dt)
    (defaultRow dt) (matchPolicy dt) nmp (rowValidation dt).

Definition WithRowValidationPolicy (rvp : Z) : Option := fun dt =>
  mkDecisionTable (Name dt) (conditionColumns dt) (outputColumns dt) (rows dt)
    (defaultRow dt) (matchPolicy dt) (noMatchPolicy dt) rvp.

(** [dt.rows = append(dt.rows, prepared)] *)
Definition append_row (dt : DecisionTable) (prepared : Row) : DecisionTable :=
  mkDecisionTable (Name dt) (conditionColumns dt) (outputColumns dt)
    (rows dt ++ [prepared])%list (defaultRow dt) (matchPolicy dt) (noMatchPolicy dt)
    (rowValidation dt).

(** [dt.defaultRow = &copied] *)
Definition store_defaultRow (dt : DecisionTable) (copied : Row) : DecisionTable :=
  mkDecisionTable (Name dt) (conditionColumns dt) (outputColumns dt) (rows dt)
    (Some copied) (matchPolicy dt) (noMatchPolicy dt) (rowValidation dt).

(** [prepared.Number = n] *)
Definition with_Number (r : Row) (n : Z) : Row :=
  mkRow (EvalCells r) (ReturnCells r) (RuleID r) (Comments r) n.

Definition validate (c : Column) : result unit :=
  if col_Name c =s "" then Err ErrColumnNameMissing
  else if negb (one_of (col_Type c)
                  [ColumnTypeCondition; ColumnTypeConclusion; ColumnTypeMetadata])
  then Err (ErrColumnType (col_Name c))
  else if one_of (col_DataType c)
            [DataTypeString; DataTypeInteger; DataTypeBoolean; DataTypeDecimal;
             DataTypeDate; DataTypeDateTime; DataTypeListString; DataTypeListInteger]
  then Ok tt
  else Err (ErrColumnDataType (col_Name c)).

(** The loop of [buildColumnMap], from the map built so far. *)
Fixpoint buildColumnMap_loop (allowedTypes : list string) (cols : list Column)
    (built : gmap string Column) : result (gmap string Column) :=
  match cols with
  | c :: rest =>
      match validate c with
      | Ok _ =>
          if negb (one_of (col_Type c) allowedTypes) then Err (ErrColumnRole (col_Name c))
          else if bool_decide (is_Some (built !! col_Name c))
          then Err (ErrDuplicateColumn (col_Name c))
          else buildColumnMap_loop allowedTypes rest (<[col_Name c := c]> built)
      | Err e => Err e
      | Panic => Panic
      end
  | [] => Ok built
  end.

Definition buildColumnMap (cols : list Column) (allowedTypes : list string) : result (gmap string Column) :=
  buildColumnMap_loop allowedTypes cols ∅.

(** A nil entry of [opts] is skipped. *)
Definition NewDecisionTable (name : string) (conditionCols outputCols : list Column)
    (opts : list (option Option)) : result DecisionTable :=
  if name =s "" then Err ErrEmptyTableName
  else if (length conditionCols =? 0)%nat then Err ErrNoConditionColumns
  else if (length outputCols =? 0)%nat then Err ErrNoOutputColumns
  else
    conditionMap ← buildColumnMap conditionCols [ColumnTypeCondition];
    outputMap ← buildColumnMap outputCols [ColumnTypeConclusion; ColumnTypeMetadata];
    let dt := mkDecisionTable name conditionMap outputMap [] None
                MatchPolicyAll NoMatchPolicyThrowError RowValidationStrict in
    Ok (fold_left (fun dt opt => match opt with Some f => f dt | None => dt end) opts dt).

Section Table.
Context `{GoLibrary}.

Definition prepareEvalCell (dt : DecisionTable) (cell : EvalCell) : result EvalCell :=
  match conditionColumns dt !! ec_Column cell with
  | None => Err (ErrUnknownColumn (ec_Column cell))
  | Some col =>
      if ec_Operator cell =s "" then Err (ErrMissingOperator (col_Name col))
      else
        value ← wrap (ErrColumn (col_Name col))
                  (sanitizeExpectedValue (col_DataType col) (ec_Operator cell) (ec_Value cell));
        Ok (mkEvalCell (col_Name col) (ec_Operator cell) value (col_DataType col))
  end.

Definition prepareReturnCell (dt : DecisionTable) (cell : ReturnCell) : result ReturnCell :=
  match outputColumns dt !! rc_Column cell with
  | None => Err (ErrUnknownColumn (rc_Column cell))
  | Some col =>
      value ← wrap (ErrReturnColumn (col_Name col))
                (sanitizeReturnValue (col_DataType col) (rc_Value cell));
      Ok (mkReturnCell (col_Name col) value (col_DataType col))
  end.

(** The receiver is a table that exists; the [dt == nil] guard of the
    source is not reachable through [AddRow] and [SetDefaultRow], which read
    a field of [dt] first. *)
Definition prepareRow (dt : DecisionTable) (row : Row) (requireEval requireReturn : bool) : result Row :=
  if requireEval && (length (EvalCells row) =? 0)%nat then Err ErrNoEvalCells
  else if requireReturn && (length (ReturnCells row) =? 0)%nat then Err ErrNoReturnCells
  else
    evalCells ← mapM_result (prepareEvalCell dt) (EvalCells row);
    returnCells ← mapM_result (prepareReturnCell dt) (ReturnCells row);
    Ok (mkRow evalCells returnCells (RuleID row) (Comments row) (Number row)).

(** [AddRow] and [SetDefaultRow] update the table in place: the result is
    the table after the call together with what the call returned. *)
Definition AddRow (dt : DecisionTable) (row : Row) : DecisionTable * result unit :=
  let strict := rowValidation dt =? RowValidationStrict in
  match prepareRow dt row strict strict with
  | Err e => (dt, Err e)
  | Panic => (dt, Panic)
  | Ok prepared =>
      let prepared :=
        if Number prepared <=? 0
        then with_Number prepared (Z.of_nat (length (rows dt)) + 1)
        else prepared in
      (append_row dt prepared, Ok tt)
  end.

Definition SetDefaultRow (dt : DecisionTable) (row : Row) : DecisionTable * result unit :=
  if negb (noMatchPolicy dt =? NoMatchPolicyReturnDefault)
     && negb (noMatchPolicy dt =? NoMatchPolicyThrowError)
  then (dt, Err ErrDefaultPolicy)
  else if (0 <? length (EvalCells row))%nat then (dt, Err ErrDefaultHasEvalCells)
  else
    match prepareRow dt row false true with
    | Err e => (dt, Err e)
    | Panic => (dt, Panic)
    | Ok prepared =>
        let prepared :=
          if Number prepared <=? 0
          then with_Number prepared (Z.of_nat (length (rows dt)) + 1)
          else prepared in
        (store_defaultRow dt prepared, Ok tt)
    end.

(** The [MatchedRow] appended for a stored row. *)
Definition matched (row : Row) : MatchedRow :=
  mkMatchedRow (materializeReturnValues row) (RuleID row) (Comments row) (Number row).

(** The scan of [Evaluate] over the rows that remain, from the matches
    collected so far. *)
Fixpoint Evaluate_scan (mp : Z) (input : gmap string any) (rest : list Row)
    (found : list MatchedRow) : result (list MatchedRow) :=
  match rest with
  | row :: rest' =>
      match matches row input with
      | Ok true =>
          let found := (found ++ [matched row])%list in
          if mp =? MatchPolicyFirst then Ok found
          else if (mp =? MatchPolicyUnique) && (1 <? length found)%nat
          then Err (ErrAmbiguous (Z.of_nat (length found)))
          else Evaluate_scan mp input rest' found
      | Ok false => Evaluate_scan mp input rest' found
      | Err e => Err e
      | Panic => Panic
      end
  | [] => Ok found
  end.

(** [defaultReturn] is [None] for a nil map. *)
Definition Evaluate (dt : DecisionTable) (input : gmap string any)
    (defaultReturn : option (gmap string any)) : result (list MatchedRow) :=
  found ← Evaluate_scan (matchPolicy dt) input (rows dt) [];
  if (length found =? 0)%nat then
    if noMatchPolicy dt =? NoMatchPolicyReturnDefault then
      match defaultRow dt, defaultReturn with
      | Some d, _ => Ok (found ++ [matched d])%list
      | None, Some fallback => Ok (found ++ [mkMatchedRow (cloneMap fallback) "" "" 0])%list
      | None, None => Ok found
      end
    else if noMatchPolicy dt =? NoMatchPolicyThrowError then
      match defaultRow dt with
      | Some d => Ok (found ++ [matched d])%list
      | None => Err ErrNoMatch
      end
    else Ok found
  else if matchPolicy dt =? MatchPolicyUnique then Ok found
  else Ok found.

Definition Rows (dt : DecisionTable) : list Row := rows dt.

Definition RowCount (dt : DecisionTable) : Z := Z.of_nat (length (rows dt)).

End Table.

(** ** Loading tables: keywords and operator tokens (loader_helpers.go) *)

(** The errors of the loaders, one constructor per [fmt.Errorf] site; an
    error that [NewDecisionTable], [AddRow] or [SetDefaultRow] returned is an
    [ErrTable]. *)
Inductive load_error : Type :=
| ErrUnknownKeyword (kind : string) (s : string)
| ErrNoValues
| ErrInvalidCondition (value : string)
| ErrMissingOperand (opToken : string)
| ErrNoColumns
| ErrNoRules
| ErrMatchPolicyRequired
| ErrNoMatchPolicyRequired
| ErrColumnNameEmpty (index : Z)
| ErrDuplicateColumnName (name : string)
| ErrInColumn (column : string) (cause : load_error)
| ErrNoConditionColumn
| ErrNoOutputColumn
| ErrWhenCount (expected got : Z)
| ErrThenCount (expected got : Z)
| ErrOperatorRequired (column : string)
| ErrValueRequired (column : string) (operator : string)
| ErrDefaultThenCount (expected got : Z)
| ErrDuplicateRuleID (id : string)
| ErrInRule (index : Z) (cause : load_error)
| ErrDefaultRuleRequired
| ErrSheetNotFound (cause : string)
| ErrExcelize (cause : string)
| ErrReadCell (cause : load_error)
| ErrExpectedMarker (label : string) (row : Z)
| ErrValueMissing (label : string) (row : Z)
| ErrFirstColumnMarker
| ErrLastColumnMarker
| ErrNoLastColumn
| ErrExcelColumnName
| ErrExcelDuplicateColumn (name : string)
| ErrExcelColumnsRequired
| ErrFirstRowMarker
| ErrDefaultRowCells
| ErrNoDefaultRowMarker
| ErrColumnIndex
| ErrInRow (index : Z) (cause : load_error)
| ErrDefaultRowRequired
| ErrTable (e : error).

Inductive loaded (A : Type) : Type :=
| Loaded (a : A)
| LoadErr (e : load_error)
| LoadPanic.

Arguments Loaded {A} a.
Arguments LoadErr {A} e.
Arguments LoadPanic {A}.

#[global] Instance loaded_ret : MRet loaded := fun _ a => Loaded a.
#[global] Instance loaded_bind : MBind loaded := fun _ _ f r =>
  match r with
  | Loaded a => f a
  | LoadErr e => LoadErr e
  | LoadPanic => LoadPanic
  end.

(** [fmt.Errorf("...: %w", err)] around a failing call of a loader. *)
Definition load_wrap {A : Type} (w : load_error -> load_error) (r : loaded A) : loaded A :=
  match r with
  | Loaded a => Loaded a
  | LoadErr e => LoadErr (w e)
  | LoadPanic => LoadPanic
  end.

(** The outcome of a call into the table. *)
Definition of_table {A : Type} (r : result A) : loaded A :=
  match r with
  | Ok a => Loaded a
  | Err e => LoadErr (ErrTable e)
  | Panic => LoadPanic
  end.

(** What the loaders call in package [strings] beyond [TrimSpace]. *)
Class GoStrings : Type := {
  (** [strings.ToUpper] of a string that holds a byte outside ASCII *)
  strings_ToUpper_ext : string -> string;
  (** [strings.EqualFold] of two strings one of which holds a byte outside
      ASCII *)
  strings_EqualFold_ext : string -> string -> bool
}.

Definition is_ascii (s : string) : bool :=
  forallb (fun c => (N_of_ascii c <? 128)%N) (list_ascii_of_string s).

Definition upper_ascii (c : ascii) : ascii :=
  let n := N_of_ascii c in
  if ((97 <=? n) && (n <=? 122))%N then ascii_of_N (n - 32) else c.

Fixpoint map_ascii (f : ascii -> ascii) (s : string) : string :=
  match s with
  | String c r => String (f c) (map_ascii f r)
  | EmptyString => EmptyString
  end.

(** [strings.ReplaceAll(s, " ", "_")] *)
Definition spaces_to_underscores (s : string) : string :=
  map_ascii (fun c => if (c =? " ")%char then "_"%char else c) s.

(** [strings.Split(s, ",")] *)
Fixpoint Split_commas (s : string) : list string :=
  match s with
  | EmptyString => [""]
  | String c r =>
      if (c =? ",")%char then "" :: Split_commas r
      else
        match Split_commas r with
        | part :: parts => String c part :: parts
        | [] => [String c ""]
        end
  end.

Section Keywords.
Context `{GoStrings}.

(** [strings.ToUpper]: an ASCII string is mapped byte by byte. *)
Definition ToUpper (s : string) : string :=
  if is_ascii s then map_ascii upper_ascii s else strings_ToUpper_ext s.

Definition normalizeKeyword (s : string) : string :=
  spaces_to_underscores (ToUpper (TrimSpace s)).

Definition parseMatchPolicyString (s : string) : loaded Z :=
  let k := normalizeKeyword s in
  if k =s "FIRST" then Loaded MatchPolicyFirst
  else if k =s "ALL" then Loaded MatchPolicyAll
  else if k =s "UNIQUE" then Loaded MatchPolicyUnique
  else LoadErr (ErrUnknownKeyword "match policy" s).

Definition parseNoMatchPolicyString (s : string) : loaded Z :=
  let k := normalizeKeyword s in
  if k =s "RETURN_DEFAULT" then Loaded NoMatchPolicyReturnDefault
  else if k =s "THROW_ERROR" then Loaded NoMatchPolicyThrowError
  else LoadErr (ErrUnknownKeyword "no-match policy" s).

Definition parseRowValidationPolicyString (s : string) : loaded Z :=
  let k := normalizeKeyword s in
  if one_of k [""; "DEFAULT"] then Loaded RowValidationStrict
  else if k =s "STRICT" then Loaded RowValidationStrict
  else if k =s "LENIENT" then Loaded RowValidationLenient
  else LoadErr (ErrUnknownKeyword "row validation policy" s).

Definition parseColumnTypeString (s : string) : loaded string :=
  let k := normalizeKeyword s in
  if k =s "CONDITION" then Loaded ColumnTypeCondition
  else if k =s "CONCLUSION" then Loaded ColumnTypeConclusion
  else if k =s "METADATA" then Loaded ColumnTypeMetadata
  else LoadErr (ErrUnknownKeyword "column type" s).

Definition parseDataTypeString (s : string) : loaded DataType :=
  let k := normalizeKeyword s in
  if k =s "STRING" then Loaded DataTypeString
  else if k =s "INTEGER" then Loaded DataTypeInteger
  else if k =s "BOOLEAN" then Loaded DataTypeBoolean
  else if k =s "DECIMAL" then Loaded DataTypeDecimal
  else if k =s "DATE" then Loaded DataTypeDate
  else if k =s "DATETIME" then Loaded DataTypeDateTime
  else if k =s "LIST_STRING" then Loaded DataTypeListString
  else if k =s "LIST_INTEGER" then Loaded DataTypeListInteger
  else LoadErr (ErrUnknownKeyword "data type" s).

Definition parseJSONOperatorToken (token : string) : loaded OperatorType :=
  let k := normalizeKeyword token in
  if k =s "EQUAL" then Loaded OperatorEqual
  else if one_of k ["NOTEQUAL"; "NOT_EQUAL"] then Loaded OperatorNotEqual
  else if one_of k ["GREATERTHAN"; "GREATER_THAN"] then Loaded OperatorGreater
  else if one_of k ["GREATERTHANOREQUAL"; "GREATER_THAN_OR_EQUAL"]
  then Loaded OperatorGreaterOrEqual
  else if one_of k ["LESSTHAN"; "LESS_THAN"] then Loaded OperatorLess
  else if one_of k ["LESSTHANOREQUAL"; "LESS_THAN_OR_EQUAL"] then Loaded OperatorLessOrEqual
  else if k =s "IN" then Loaded OperatorIn
  else if one_of k ["NOTIN"; "NOT_IN"] then Loaded OperatorNotIn
  else if one_of k ["MATCHESREGEX"; "MATCHES_REGEX"] then Loaded OperatorMatchesRegex
  else if one_of k ["ISNULL"; "IS_NULL"] then Loaded OperatorIsNull
  else if one_of k ["ISNOTNULL"; "IS_NOT_NULL"] then Loaded OperatorIsNotNull
  else LoadErr (ErrUnknownKeyword "operator" token).

Definition parseOperatorToken (token : string) : loaded OperatorType :=
  let tok := TrimSpace token in
  if tok =s ">=" then Loaded OperatorGreaterOrEqual
  else if tok =s ">" then Loaded OperatorGreater
  else if tok =s "=" then Loaded OperatorEqual
  else if tok =s "<" then Loaded OperatorLess
  else if tok =s "<=" then Loaded OperatorLessOrEqual
  else if one_of tok ["<>"; "!="] then Loaded OperatorNotEqual
  else
    let k := normalizeKeyword tok in
    if k =s "GT_EQ" then Loaded OperatorGreaterOrEqual
    else if k =s "GT" then Loaded OperatorGreater
    else if k =s "EQ" then Loaded OperatorEqual
    else if k =s "LT" then Loaded OperatorLess
    else if k =s "LT_EQ" then Loaded OperatorLessOrEqual
    else if k =s "NOT_EQ" then Loaded OperatorNotEqual
    else if k =s "IN" then Loaded OperatorIn
    else if k =s "NOT_IN" then Loaded OperatorNotIn
    else if k =s "ANY_CONTAINED_IN" then Loaded OperatorAnyContained
    else if k =s "NOT_ANY_CONTAINED_IN" then Loaded OperatorNotAnyContained
    else if k =s "ALL_CONTAINED_IN" then Loaded OperatorAllContained
    else if k =s "NOT_ALL_CONTAINED_IN" then Loaded OperatorNotAllContained
    else if k =s "CONTAINS_ALL" then Loaded OperatorContainsAll
    else if k =s "NOT_CONTAINS_ALL" then Loaded OperatorNotContainsAll
    else if k =s "ALL_EQUAL" then Loaded OperatorAllEqual
    else LoadErr (ErrUnknownKeyword "operator" token).

End Keywords.

(** The loop of [splitAndDedupeList] over the parts that remain: [seen] is
    the set of the values kept so far, [result] their list. *)
Fixpoint splitAndDedupeList_loop (parts : list string) (seen : gset string)
    (kept : list string) : list string :=
  match parts with
  | part :: rest =>
      let trimmed := TrimSpace part in
      if trimmed =s "" then splitAndDedupeList_loop rest seen kept
      else if bool_decide (trimmed ∈ seen) then splitAndDedupeList_loop rest seen kept
      else splitAndDedupeList_loop rest ({[ trimmed ]} ∪ seen) (kept ++ [trimmed])%list
  | [] => kept
  end.

Definition splitAndDedupeList (value : string) : loaded (list string) :=
  let kept := splitAndDedupeList_loop (Split_commas value) ∅ [] in
  if (length kept =? 0)%nat then LoadErr ErrNoValues else Loaded kept.

(** ** Loading a table from JSON (json_loader.go) *)

(** The document after [json.Unmarshal]: a missing string field is the
    empty string, a missing list is empty, a JSON null in [when] is a nil
    pointer and a JSON value under [value] or in [then] is a Go [any]. *)
Record jsonPoliciesSpec : Type := mkJsonPoliciesSpec {
  jp_MatchPolicy : string;
  jp_NoMatchPolicy : string
}.

Record jsonColumnSpec : Type := mkJsonColumnSpec {
  jc_Name : string;
  jc_Label : string;
  jc_Type : string;
  jc_DataType : string
}.

Record jsonConditionCell : Type := mkJsonConditionCell {
  jw_Operator : string;
  jw_Value : any
}.

Record jsonRuleSpec : Type := mkJsonRuleSpec {
  jr_ID : string;
  jr_Description : string;
  jr_When : list (option jsonConditionCell);
  jr_Then : list any
}.

Record jsonDefaultRuleSpec : Type := mkJsonDefaultRuleSpec {
  jd_Description : string;
  jd_Then : list any
}.

Record jsonDecisionTableSpec : Type := mkJsonDecisionTableSpec {
  js_Name : string;
  js_Description : string;
  js_Policies : jsonPoliciesSpec;
  js_Columns : list jsonColumnSpec;
  js_Rules : list jsonRuleSpec;
  js_DefaultRule : option jsonDefaultRuleSpec
}.

(** [ensureUniqueRuleID]: the row with its rule id settled and the set of
    rule ids with that id added. *)
Definition ensureUniqueRuleID (row : Row) (rowNumber : Z) (ruleIDs : gset string) :
    loaded (Row * gset string) :=
  let id := TrimSpace (RuleID row) in
  let id := if id =s "" then format_int rowNumber else id in
  if bool_decide (id ∈ ruleIDs) then LoadErr (ErrDuplicateRuleID id)
  else
    Loaded (mkRow (EvalCells row) (ReturnCells row) id (Comments row) (Number row),
            {[ id ]} ∪ ruleIDs).

(** The cells of [then] under the output columns, in order; the lists have
    the same length. *)
Fixpoint then_cells (outputCols : list Column) (values : list any) : loaded (list ReturnCell) :=
  match outputCols, values with
  | column :: cols, value :: rest =>
      cells ← then_cells cols rest;
      Loaded (mkReturnCell (col_Name column) value "" :: cells)
  | [], _ => Loaded []
  | _ :: _, [] => LoadPanic
  end.

Section JSON.
Context `{GoLibrary} `{GoStrings}.

(** The loop of [convertColumns] from the column at [idx]: the condition
    columns, the output columns and the names seen so far. *)
Fixpoint convertColumns_loop (idx : Z) (cols : list jsonColumnSpec)
    (conditions outputs : list Column) (seen : gset string) :
    loaded (list Column * list Column) :=
  match cols with
  | col :: rest =>
      let name := TrimSpace (jc_Name col) in
      if name =s "" then LoadErr (ErrColumnNameEmpty (idx + 1))
      else if bool_decide (name ∈ seen) then LoadErr (ErrDuplicateColumnName name)
      else
        colType ← load_wrap (ErrInColumn name) (parseColumnTypeString (jc_Type col));
        dataType ← load_wrap (ErrInColumn name) (parseDataTypeString (jc_DataType col));
        let column := mkColumn name colType dataType in
        let conditions :=
          if colType =s ColumnTypeCondition then (conditions ++ [column])%list
          else conditions in
        let outputs :=
          if one_of colType [ColumnTypeConclusion; ColumnTypeMetadata]
          then (outputs ++ [column])%list else outputs in
        convertColumns_loop (idx + 1) rest conditions outputs ({[ name ]} ∪ seen)
  | [] => Loaded (conditions, outputs)
  end.

Definition convertColumns (cols : list jsonColumnSpec) : loaded (list Column * list Column) :=
  '(conditions, outputs) ← convertColumns_loop 0 cols [] [] ∅;
  if (length conditions =? 0)%nat then LoadErr ErrNoConditionColumn
  else if (length outputs =? 0)%nat then LoadErr ErrNoOutputColumn
  else Loaded (conditions, outputs).

(** The loop of [convertRule] over the condition columns and the cells of
    [when] below them, from the evaluation cells collected so far. *)
Fixpoint when_cells (conditionCols : list Column) (when : list (option jsonConditionCell))
    (cells : list EvalCell) : loaded (list EvalCell) :=
  match conditionCols, when with
  | column :: cols, cell :: rest =>
      match cell with
      | None => when_cells cols rest cells
      | Some cell =>
          let operator := TrimSpace (jw_Operator cell) in
          if operator =s "" then
            if negb (is_nil (jw_Value cell))
            then LoadErr (ErrOperatorRequired (col_Name column))
            else when_cells cols rest cells
          else
            op ← load_wrap (ErrInColumn (col_Name column)) (parseJSONOperatorToken operator);
            if is_nil (jw_Value cell) && negb (op =s OperatorIsNull)
               && negb (op =s OperatorIsNotNull)
            then LoadErr (ErrValueRequired (col_Name column) operator)
            else
              when_cells cols rest
                (cells ++ [mkEvalCell (col_Name column) op (jw_Value cell) ""])%list
      end
  | [], _ => Loaded cells
  | _ :: _, [] => LoadPanic
  end.

Definition convertRule (rule : jsonRuleSpec) (conditionCols outputCols : list Column)
    (rowNumber : Z) (ruleIDs : gset string) : loaded (Row * gset string) :=
  if negb (length (jr_When rule) =? length conditionCols)%nat
  then LoadErr (ErrWhenCount (Z.of_nat (length conditionCols))
                  (Z.of_nat (length (jr_When rule))))
  else if negb (length (jr_Then rule) =? length outputCols)%nat
  then LoadErr (ErrThenCount (Z.of_nat (length outputCols))
                  (Z.of_nat (length (jr_Then rule))))
  else
    evalCells ← when_cells conditionCols (jr_When rule) [];
    returnCells ← then_cells outputCols (jr_Then rule);
    ensureUniqueRuleID
      (mkRow evalCells returnCells (TrimSpace (jr_ID rule)) (jr_Description rule) rowNumber)
      rowNumber ruleIDs.

Definition convertDefaultRule (rule : jsonDefaultRuleSpec) (outputCols : list Column)
    (rowNumber : Z) (ruleIDs : gset string) : loaded (Row * gset string) :=
  if negb (length (jd_Then rule) =? length outputCols)%nat
  then LoadErr (ErrDefaultThenCount (Z.of_nat (length outputCols))
                  (Z.of_nat (length (jd_Then rule))))
  else
    returnCells ← then_cells outputCols (jd_Then rule);
    ensureUniqueRuleID (mkRow [] returnCells "" (jd_Description rule) rowNumber)
      rowNumber ruleIDs.

(** The loop of [buildDecisionTable] over the rules from the one at [idx]. *)
Fixpoint add_rules (idx : Z) (rules : list jsonRuleSpec) (conditionCols outputCols : list Column)
    (dt : DecisionTable) (ruleIDs : gset string) : loaded (DecisionTable * gset string) :=
  match rules with
  | rule :: rest =>
      '(row, ruleIDs) ← load_wrap (ErrInRule (idx + 1))
                          (convertRule rule conditionCols outputCols (idx + 1) ruleIDs);
      let '(dt, added) := AddRow dt row in
      _ ← load_wrap (ErrInRule (idx + 1)) (of_table added);
      add_rules (idx + 1) rest conditionCols outputCols dt ruleIDs
  | [] => Loaded (dt, ruleIDs)
  end.

Definition buildDecisionTable (spec : jsonDecisionTableSpec) (sourceName : string) :
    loaded DecisionTable :=
  if (length (js_Columns spec) =? 0)%nat then LoadErr ErrNoColumns
  else if (length (js_Rules spec) =? 0)%nat then LoadErr ErrNoRules
  else if jp_MatchPolicy (js_Policies spec) =s "" then LoadErr ErrMatchPolicyRequired
  else if jp_NoMatchPolicy (js_Policies spec) =s "" then LoadErr ErrNoMatchPolicyRequired
  else
    mp ← parseMatchPolicyString (jp_MatchPolicy (js_Policies spec));
    nmp ← parseNoMatchPolicyString (jp_NoMatchPolicy (js_Policies spec));
    '(conditionCols, outputCols) ← convertColumns (js_Columns spec);
    let name := TrimSpace (js_Name spec) in
    let name := if name =s "" then sourceName else name in
    dt ← of_table (NewDecisionTable name conditionCols outputCols
                     [Some (WithMatchPolicy mp); Some (WithNoMatchPolicy nmp)]);
    '(dt, ruleIDs) ← add_rules 0 (js_Rules spec) conditionCols outputCols dt ∅;
    match js_DefaultRule spec with
    | Some rule =>
        '(defaultRow, _) ← convertDefaultRule rule outputCols
                             (Z.of_nat (length (js_Rules spec)) + 1) ruleIDs;
        let '(dt, set) := SetDefaultRow dt defaultRow in
        _ ← of_table set;
        Loaded dt
    | None =>
        if nmp =? NoMatchPolicyReturnDefault then LoadErr ErrDefaultRuleRequired
        else Loaded dt
    end.

End JSON.

(** ** Loading a table from a workbook (the sheet Decision Table) *)

Definition excelSheetName : string := "Decision Table".
Definition excelVersionRow : Z := 1.
Definition excelMatchPolicyRow : Z := 2.
Definition excelNoMatchRow : Z := 3.
Definition excelColumnMarkerRow : Z := 5.
Definition excelFirstDataRow : Z := excelColumnMarkerRow + 4.
Definition excelFirstColumn : Z := 2.
Definition excelMaxColumns : Z := 1000.
Definition excelMaxRows : Z := 10000.

(** What the loader reads of an [*excelize.File]: the error of
    [GetSheetIndex] for the sheet [excelSheetName], if it returns one, and
    for the cell of that sheet at a column and a row, both counted from 1,
    the value or the error that [GetCellValue] returns. *)
Record Workbook : Type := mkWorkbook {
  GetSheetIndex_error : option string;
  sheet_cell : Z -> Z -> string + string
}.

(** [f.GetCellValue(excelSheetName, cellName(col, row))]; the columns and
    rows that the loader reads have a cell name. *)
Definition GetCellValue (f : Workbook) (col row : Z) : loaded string :=
  match sheet_cell f col row with
  | inl value => Loaded value
  | inr cause => LoadErr (ErrExcelize cause)
  end.

Record excelColumnLayout : Type := mkExcelColumnLayout {
  Conditions : list Column;
  Outputs : list Column;
  Ordered : list Column
}.

(** [strings.Index(value, " ")] with the two pieces around it:
    [value[:delim]] and [value[delim+1:]]. *)
Fixpoint cut_at_space (value : string) : option (string * string) :=
  match value with
  | String c r =>
      if (c =? " ")%char then Some ("", r)
      else
        match cut_at_space r with
        | Some (opToken, rest) => Some (String c opToken, rest)
        | None => None
        end
  | EmptyString => None
  end.

Section Excel.
Context `{GoLibrary} `{GoStrings}.

(** [strings.EqualFold]: two ASCII strings are compared byte by byte. *)
Definition EqualFold (s t : string) : bool :=
  if is_ascii s && is_ascii t then ToLower s =s ToLower t
  else strings_EqualFold_ext s t.

(** The operand is a [[]string] for the operators on collections and a
    [string] otherwise; the DataType of the column is not looked at. *)
Definition parseConditionString (value : string) (dt : DataType) : loaded (OperatorType * any) :=
  match cut_at_space value with
  | None => LoadErr (ErrInvalidCondition value)
  | Some (opToken, rest) =>
      if opToken =s "" then LoadErr (ErrInvalidCondition value)
      else
        let operand := TrimSpace rest in
        if operand =s "" then LoadErr (ErrMissingOperand opToken)
        else
          op ← parseOperatorToken opToken;
          if requiresCollectionValue op then
            values ← splitAndDedupeList operand;
            Loaded (op, VStrings values)
          else Loaded (op, VString operand)
  end.

Definition expectLabelAndValue (f : Workbook) (row : Z) (label : string) : loaded string :=
  labelCell ← load_wrap ErrReadCell (GetCellValue f 1 row);
  if negb (EqualFold (TrimSpace labelCell) label) then LoadErr (ErrExpectedMarker label row)
  else
    value ← load_wrap ErrReadCell (GetCellValue f 2 row);
    if TrimSpace value =s "" then LoadErr (ErrValueMissing label row)
    else Loaded value.

(** The first loop of [readExcelColumns], from column [col] for at most
    [count] columns: the column of the Last Column marker, 0 if there is
    none. *)
Fixpoint find_last_column (f : Workbook) (count : nat) (col : Z) : loaded Z :=
  match count with
  | O => Loaded 0
  | S count' =>
      value ← GetCellValue f col excelColumnMarkerRow;
      if TrimSpace value =s "" then find_last_column f count' (col + 1)
      else if negb (EqualFold (TrimSpace value) "Last Column")
      then LoadErr ErrLastColumnMarker
      else Loaded col
  end.

(** The second loop of [readExcelColumns], over the [count] columns from
    [col]. *)
Fixpoint read_columns (f : Workbook) (count : nat) (col : Z) (layout : excelColumnLayout)
    (seen : gset string) : loaded excelColumnLayout :=
  match count with
  | O => Loaded layout
  | S count' =>
      name ← GetCellValue f col (excelColumnMarkerRow + 1);
      let name := TrimSpace name in
      if name =s "" then LoadErr ErrExcelColumnName
      else if bool_decide (name ∈ seen) then LoadErr (ErrExcelDuplicateColumn name)
      else
        typeRaw ← GetCellValue f col (excelColumnMarkerRow + 2);
        colType ← load_wrap (ErrInColumn name) (parseColumnTypeString typeRaw);
        dataTypeRaw ← GetCellValue f col (excelColumnMarkerRow + 3);
        dataType ← load_wrap (ErrInColumn name) (parseDataTypeString dataTypeRaw);
        let column := mkColumn name colType dataType in
        let layout :=
          mkExcelColumnLayout
            (if colType =s ColumnTypeCondition then (Conditions layout ++ [column])%list
             else Conditions layout)
            (if one_of colType [ColumnTypeConclusion; ColumnTypeMetadata]
             then (Outputs layout ++ [column])%list else Outputs layout)
            (Ordered layout ++ [column])%list in
        read_columns f count' (col + 1) layout ({[ name ]} ∪ seen)
  end.

Definition readExcelColumns (f : Workbook) : loaded (excelColumnLayout * Z * Z) :=
  marker ← GetCellValue f excelFirstColumn excelColumnMarkerRow;
  if negb (EqualFold (TrimSpace marker) "First Column") then LoadErr ErrFirstColumnMarker
  else
    lastCol ← find_last_column f (Z.to_nat (excelMaxColumns - 1)) (excelFirstColumn + 1);
    if lastCol =? 0 then LoadErr ErrNoLastColumn
    else
      layout ← read_columns f (Z.to_nat (lastCol - excelFirstColumn + 1)) excelFirstColumn
                 (mkExcelColumnLayout [] [] []) ∅;
      if (length (Conditions layout) =? 0)%nat || (length (Outputs layout) =? 0)%nat
      then LoadErr ErrExcelColumnsRequired
      else Loaded (layout, excelFirstColumn, lastCol).

(** The loop of [convertExcelRow] over the [count] columns from [col], on
    the row built so far. *)
Fixpoint convert_cells (f : Workbook) (layout : excelColumnLayout) (firstCol rowIdx : Z)
    (count : nat) (col : Z) (row : Row) : loaded Row :=
  match count with
  | O => Loaded row
  | S count' =>
      let columnIndex := col - firstCol in
      if (columnIndex <? 0) || (Z.of_nat (length (Ordered layout)) <=? columnIndex)
      then LoadErr ErrColumnIndex
      else
        match nth_error (Ordered layout) (Z.to_nat columnIndex) with
        | None => LoadPanic
        | Some column =>
            rawValue ← GetCellValue f col rowIdx;
            let trimmed := TrimSpace rawValue in
            if col_Type column =s ColumnTypeCondition then
              if trimmed =s "" then convert_cells f layout firstCol rowIdx count' (col + 1) row
              else
                '(op, operand) ← load_wrap (ErrInColumn (col_Name column))
                                   (parseConditionString trimmed (col_DataType column));
                convert_cells f layout firstCol rowIdx count' (col + 1)
                  (mkRow (EvalCells row ++ [mkEvalCell (col_Name column) op operand ""])%list
                     (ReturnCells row) (RuleID row) (Comments row) (Number row))
            else if one_of (col_Type column) [ColumnTypeConclusion; ColumnTypeMetadata] then
              let cells := (ReturnCells row ++ [mkReturnCell (col_Name column)
                                                  (VString rawValue) ""])%list in
              let metadata := (col_Type column =s ColumnTypeMetadata) && negb (trimmed =s "") in
              let ruleID :=
                if metadata && EqualFold (col_Name column) "ruleId" && (RuleID row =s "")
                then trimmed else RuleID row in
              let comments :=
                if metadata && EqualFold (col_Name column) "description"
                   && (Comments row =s "")
                then trimmed else Comments row in
              convert_cells f layout firstCol rowIdx count' (col + 1)
                (mkRow (EvalCells row) cells ruleID comments (Number row))
            else convert_cells f layout firstCol rowIdx count' (col + 1) row
        end
  end.

Definition convertExcelRow (f : Workbook) (layout : excelColumnLayout)
    (firstCol lastCol rowIdx rowNumber : Z) (ruleIDs : gset string) :
    loaded (Row * gset string) :=
  row ← convert_cells f layout firstCol rowIdx (Z.to_nat (lastCol - firstCol + 1)) firstCol
          (mkRow [] [] "" "" rowNumber);
  let ruleID := if RuleID row =s "" then format_int rowNumber else RuleID row in
  if bool_decide (ruleID ∈ ruleIDs) then LoadErr (ErrDuplicateRuleID ruleID)
  else
    Loaded (mkRow (EvalCells row) (ReturnCells row) ruleID (Comments row) (Number row),
            {[ ruleID ]} ∪ ruleIDs).

(** The loop of [readExcelRows] over at most [count] rows of the sheet from
    [rowIdx]: the rows and, when the loop ended at the Default Row marker,
    the default row. *)
Fixpoint read_rows (f : Workbook) (layout : excelColumnLayout) (firstCol lastCol : Z)
    (count : nat) (rowIdx rowNumber : Z) (rows : list Row) (ruleIDs : gset string) :
    loaded (list Row * option Row) :=
  match count with
  | O => Loaded (rows, None)
  | S count' =>
      let rowNumber := rowNumber + 1 in
      '(row, ruleIDs) ← convertExcelRow f layout firstCol lastCol rowIdx rowNumber ruleIDs;
      markerCell ← GetCellValue f 1 rowIdx;
      if EqualFold (TrimSpace markerCell) "Default Row" then
        if (0 <? length (EvalCells row))%nat then LoadErr ErrDefaultRowCells
        else Loaded (rows, Some row)
      else
        read_rows f layout firstCol lastCol count' (rowIdx + 1) rowNumber
          (rows ++ [row])%list ruleIDs
  end.

Definition readExcelRows (f : Workbook) (layout : excelColumnLayout) (firstCol lastCol : Z) :
    loaded (list Row * option Row) :=
  marker ← GetCellValue f 1 excelFirstDataRow;
  if negb (EqualFold (TrimSpace marker) "First Row") then LoadErr ErrFirstRowMarker
  else
    '(rows, defaultRow) ← read_rows f layout firstCol lastCol (Z.to_nat excelMaxRows)
                            excelFirstDataRow 0 [] ∅;
    match defaultRow with
    | None => LoadErr ErrNoDefaultRowMarker
    | Some row => Loaded (rows, Some row)
    end.

(** The loop of [loadExcelWorkbook] over the rows from the one at [idx]. *)
Fixpoint add_rows (idx : Z) (rows : list Row) (dt : DecisionTable) : loaded DecisionTable :=
  match rows with
  | row :: rest =>
      let '(dt, added) := AddRow dt row in
      _ ← load_wrap (ErrInRow (idx + 1)) (of_table added);
      add_rows (idx + 1) rest dt
  | [] => Loaded dt
  end.

Definition loadExcelWorkbook (name : string) (f : Workbook) : loaded DecisionTable :=
  match GetSheetIndex_error f with
  | Some cause => LoadErr (ErrSheetNotFound cause)
  | None =>
      _ ← expectLabelAndValue f excelVersionRow "Version";
      matchPolicyRaw ← expectLabelAndValue f excelMatchPolicyRow "Match Policy";
      matchPolicy ← parseMatchPolicyString matchPolicyRaw;
      noMatchRaw ← expectLabelAndValue f excelNoMatchRow "No Match Policy";
      noMatchPolicy ← parseNoMatchPolicyString noMatchRaw;
      '(layout, firstCol, lastCol) ← readExcelColumns f;
      dt ← of_table (NewDecisionTable name (Conditions layout) (Outputs layout)
                       [Some (WithMatchPolicy matchPolicy);
                        Some (WithNoMatchPolicy noMatchPolicy)]);
      '(rows, defaultRow) ← readExcelRows f layout firstCol lastCol;
      dt ← add_rows 0 rows dt;
      if noMatchPolicy =? NoMatchPolicyReturnDefault then
        match defaultRow with
        | None => LoadErr ErrDefaultRowRequired
        | Some defaultRow =>
            let '(dt, set) := SetDefaultRow dt defaultRow in
            _ ← of_table set;
            Loaded dt
        end
      else Loaded dt
  end.

End Excel.

(** ** Notions used in the statements *)

Section Notions.
Context `{GoLibrary}.

(** What [Row.matches] computes for one cell that carries a DataType. *)
Definition cell_result (input : gmap string any) (cell : EvalCell) : result bool :=
  evaluateCell (ec_dataType cell) (ec_Operator cell)
    (input_at input (ec_Column cell)) (ec_Value cell).

(** The cell carries a DataType and matches the input. *)
Definition cell_passes (input : gmap string any) (cell : EvalCell) : Prop :=
  ec_dataType cell <> "" /\ cell_result input cell = Ok true.

(** The row matches the input: [matches] returned [(true, nil)]. *)
Definition row_matches (input : gmap string any) (r : Row) : bool :=
  match matches r input with Ok true => true | _ => false end.

(** The stored rows that match the input, in declaration order. *)
Definition matching (dt : DecisionTable) (input : gmap string any) : list Row :=
  List.filter (row_matches input) (rows dt).

(** No row fails on the input: every [matches] call returns without an
    error. *)
Definition no_row_fails (input : gmap string any) (l : list Row) : Prop :=
  Forall (fun r => is_Ok (matches r input) = true) l.

(** What the no-match branch of [Evaluate] returns. *)
Definition no_match_outcome (dt : DecisionTable) (defaultReturn : option (gmap string any)) : result (list MatchedRow) :=
  if noMatchPolicy dt =? NoMatchPolicyReturnDefault then
    match defaultRow dt, defaultReturn with
    | Some d, _ => Ok [matched d]
    | None, Some fallback => Ok [mkMatchedRow (cloneMap fallback) "" "" 0]
    | None, None => Ok []
    end
  else if noMatchPolicy dt =? NoMatchPolicyThrowError then
    match defaultRow dt with
    | Some d => Ok [matched d]
    | None => Err ErrNoMatch
    end
  else Ok [].

(** Tables built by registration: from a table without rows, by [AddRow]
    calls on rows that satisfy [P] and by [SetDefaultRow] calls, each call
    succeeding or not. *)
Inductive built_by_AddRow (P : Row -> Prop) : DecisionTable -> Prop :=
| built_new dt :
    rows dt = [] -> built_by_AddRow P dt
| built_AddRow dt row :
    built_by_AddRow P dt -> P row -> built_by_AddRow P (fst (AddRow dt row))
| built_SetDefaultRow dt row :
    built_by_AddRow P dt -> built_by_AddRow P (fst (SetDefaultRow dt row)).

(** The row is registered without a row number. *)
Definition unnumbered (row : Row) : Prop := Number row <= 0.

(** *** The statements of the specification that the code does not meet *)

(** UNIQUE as specified: [Evaluate] fails iff at least two rows match, and
    returns exactly one result iff exactly one row matches. *)
Definition unique_as_specified (dt : DecisionTable) (input : gmap string any)
    (defaultReturn : option (gmap string any)) : Prop :=
  (is_Ok (Evaluate dt input defaultReturn) = false <->
   (2 <= length (matching dt input))%nat) /\
  ((exists m, Evaluate dt input defaultReturn = Ok [m]) <->
   length (matching dt input) = 1%nat).

(** ALL as specified: the row numbers returned are those of the matching
    rows in declaration order, and they increase strictly. *)
Definition all_as_specified (dt : DecisionTable) (input : gmap string any)
    (defaultReturn : option (gmap string any)) : Prop :=
  forall found,
    Evaluate dt input defaultReturn = Ok found ->
    List.map RowNumber found = List.map Number (matching dt input) /\
    StronglySorted Z.lt (List.map RowNumber found).


End Notions.

(** ** Notions used in the properties of the engine and of the loaders *)

(** The dynamic type of a sanitized scalar of the DataType. *)
Definition has_scalar_type (dt : DataType) (v : any) : bool :=
  match v with
  | VString _ => dt =s DataTypeString
  | VInt KInt64 _ => dt =s DataTypeInteger
  | VBigFloatPtr _ => dt =s DataTypeDecimal
  | VBool _ => dt =s DataTypeBoolean
  | VTime _ => one_of dt [DataTypeDate; DataTypeDateTime]
  | _ => false
  end.

(** The elements of a sanitized list: nil or a scalar of the element type. *)
Definition has_element_type (elemType : DataType) (v : any) : bool :=
  is_nil v || has_scalar_type elemType v.

(** The dynamic type of a sanitized value that is not nil. *)
Definition has_type (dt : DataType) (v : any) : bool :=
  match v with
  | VSlice l =>
      if dt =s DataTypeListString then forallb (has_element_type DataTypeString) l
      else if dt =s DataTypeListInteger then forallb (has_element_type DataTypeInteger) l
      else false
  | _ => has_scalar_type dt v
  end.

(** A sanitized value of the DataType: nil, or of its dynamic type. *)
Definition sanitized (dt : DataType) (v : any) : bool :=
  is_nil v || has_type dt v.

(** The operators that apply to a column of the DataType: equality, the null
    tests and the list containments to every column, the orderings to
    numbers and times, membership and ALL_EQUAL to scalars, the regular
    expression to strings. *)
Definition operator_suits (dt : DataType) (op : OperatorType) : bool :=
  if one_of op [OperatorEqual; OperatorNotEqual; OperatorIsNull; OperatorIsNotNull;
                OperatorAnyContained; OperatorNotAnyContained; OperatorAllContained;
                OperatorNotAllContained; OperatorContainsAll; OperatorNotContainsAll]
  then true
  else if one_of op [OperatorGreater; OperatorGreaterOrEqual; OperatorLess; OperatorLessOrEqual]
  then one_of dt [DataTypeInteger; DataTypeDecimal; DataTypeDate; DataTypeDateTime]
  else if one_of op [OperatorIn; OperatorNotIn; OperatorAllEqual]
  then one_of dt [DataTypeString; DataTypeInteger; DataTypeDecimal; DataTypeBoolean;
                  DataTypeDate; DataTypeDateTime]
  else if op =s OperatorMatchesRegex then dt =s DataTypeString
  else false.

(** The int64 values that a sanitized value holds are int64 values. *)
Definition int64_range (n : Z) : bool := (MinInt64 <=? n) && (n <=? MaxInt64).

Definition holds_int64 (v : any) : bool :=
  match v with
  | VInt KInt64 n => int64_range n
  | VSlice l =>
      forallb (fun x => match x with VInt KInt64 n => int64_range n | _ => true end) l
  | _ => true
  end.

(** The condition columns that the rows of the table test. *)
Definition tested_columns (dt : DecisionTable) : list string :=
  List.concat (List.map (fun r => List.map ec_Column (EvalCells r)) (rows dt)).

(** The DataTypes that [Column.validate] accepts. *)
Definition valid_DataType (dt : DataType) : bool :=
  one_of dt [DataTypeString; DataTypeInteger; DataTypeBoolean; DataTypeDecimal;
             DataTypeDate; DataTypeDateTime; DataTypeListString; DataTypeListInteger].

(** A column map as [buildColumnMap] builds it: every column under its own
    name, with a DataType that [validate] accepts. *)
Definition columns_valid (m : gmap string Column) : Prop :=
  forall key col, m !! key = Some col ->
    col_Name col = key /\ valid_DataType (col_DataType col) = true.

(** The options that the package exports, and the nil option. *)
Inductive package_option : option Option -> Prop :=
| option_nil : package_option None
| option_WithMatchPolicy mp : package_option (Some (WithMatchPolicy mp))
| option_WithNoMatchPolicy nmp : package_option (Some (WithNoMatchPolicy nmp))
| option_WithRowValidationPolicy rvp : package_option (Some (WithRowValidationPolicy rvp)).

(** What the loop of [buildColumnMap] checks on one column. *)
Definition column_accepted (allowedTypes : list string) (c : Column) : Prop :=
  validate c = Ok tt /\ one_of (col_Type c) allowedTypes = true.

(** [for _, opt := range opts { if opt != nil { opt(dt) } }] *)
Definition apply_options (opts : list (option Option)) (dt : DecisionTable) : DecisionTable :=
  fold_left (fun dt opt => match opt with Some f => f dt | None => dt end) opts dt.

Section Registration.
Context `{GoLibrary}.

(** The tables reached from [dt0] by calls of [AddRow] and [SetDefaultRow],
    whatever they return. *)
Inductive registered (dt0 : DecisionTable) : DecisionTable -> Prop :=
| registered_start : registered dt0 dt0
| registered_AddRow dt row :
    registered dt0 dt -> registered dt0 (fst (AddRow dt row))
| registered_SetDefaultRow dt row :
    registered dt0 dt -> registered dt0 (fst (SetDefaultRow dt row)).

(** An evaluation cell as [prepareRow] stores it: named after a condition
    column, carrying that column's DataType, an operator, and a value that
    [sanitizeExpectedValue] returned for them. *)
Definition stored_EvalCell (dt : DecisionTable) (cell : EvalCell) : Prop :=
  exists key col raw,
    conditionColumns dt !! key = Some col /\
    ec_Column cell = col_Name col /\
    ec_dataType cell = col_DataType col /\
    ec_Operator cell <> "" /\
    sanitizeExpectedValue (col_DataType col) (ec_Operator cell) raw = Ok (ec_Value cell).

Definition stored_ReturnCell (dt : DecisionTable) (cell : ReturnCell) : Prop :=
  exists key col raw,
    outputColumns dt !! key = Some col /\
    rc_Column cell = col_Name col /\
    rc_dataType cell = col_DataType col /\
    sanitizeReturnValue (col_DataType col) raw = Ok (rc_Value cell).

(** What [prepareRow] keeps of a cell that it accepts: the name of the
    column found under the cell's column, the operator, the DataType of that
    column, and the value sanitized for them. *)
Definition kept_EvalCell (dt : DecisionTable) (cell kept : EvalCell) : Prop :=
  exists col,
    conditionColumns dt !! ec_Column cell = Some col /\
    ec_Column kept = col_Name col /\
    ec_Operator kept = ec_Operator cell /\ ec_Operator cell <> "" /\
    ec_dataType kept = col_DataType col /\
    sanitizeExpectedValue (col_DataType col) (ec_Operator cell) (ec_Value cell) =
      Ok (ec_Value kept).

Definition kept_ReturnCell (dt : DecisionTable) (cell kept : ReturnCell) : Prop :=
  exists col,
    outputColumns dt !! rc_Column cell = Some col /\
    rc_Column kept = col_Name col /\
    rc_dataType kept = col_DataType col /\
    sanitizeReturnValue (col_DataType col) (rc_Value cell) = Ok (rc_Value kept).

Definition stored_Row (dt : DecisionTable) (r : Row) : Prop :=
  Forall (stored_EvalCell dt) (EvalCells r) /\
  Forall (stored_ReturnCell dt) (ReturnCells r).

(** The rows and the default row of the table are rows that [prepareRow]
    returned for its columns, the default row without conditions. *)
Definition holds_prepared_rows (dt : DecisionTable) : Prop :=
  Forall (stored_Row dt) (rows dt) /\
  (forall d, defaultRow dt = Some d -> stored_Row dt d /\ EvalCells d = []).



End Registration.

(** The operators of the package. *)
Definition operators : list OperatorType :=
  [OperatorGreaterOrEqual; OperatorGreater; OperatorEqual; OperatorLess;
   OperatorLessOrEqual; OperatorNotEqual; OperatorIn; OperatorNotIn;
   OperatorAnyContained; OperatorNotAnyContained; OperatorAllContained;
   OperatorNotAllContained; OperatorContainsAll; OperatorNotContainsAll;
   OperatorAllEqual; OperatorMatchesRegex; OperatorIsNull; OperatorIsNotNull].

(** The operators that the JSON loader can produce, and those of the Excel
    loader. *)
Definition json_operators : list OperatorType :=
  [OperatorEqual; OperatorNotEqual; OperatorGreater; OperatorGreaterOrEqual;
   OperatorLess; OperatorLessOrEqual; OperatorIn; OperatorNotIn;
   OperatorMatchesRegex; OperatorIsNull; OperatorIsNotNull].

Definition excel_operators : list OperatorType :=
  [OperatorGreaterOrEqual; OperatorGreater; OperatorEqual; OperatorLess;
   OperatorLessOrEqual; OperatorNotEqual; OperatorIn; OperatorNotIn;
   OperatorAnyContained; OperatorNotAnyContained; OperatorAllContained;
   OperatorNotAllContained; OperatorContainsAll; OperatorNotContainsAll;
   OperatorAllEqual].

(** The camel-case name of an operator in the JSON documents. *)
Definition json_token (op : OperatorType) : string :=
  if op =s OperatorEqual then "equal"
  else if op =s OperatorNotEqual then "notEqual"
  else if op =s OperatorGreater then "greaterThan"
  else if op =s OperatorGreaterOrEqual then "greaterThanOrEqual"
  else if op =s OperatorLess then "lessThan"
  else if op =s OperatorLessOrEqual then "lessThanOrEqual"
  else if op =s OperatorIn then "in"
  else if op =s OperatorNotIn then "notIn"
  else if op =s OperatorMatchesRegex then "matchesRegex"
  else if op =s OperatorIsNull then "isNull"
  else if op =s OperatorIsNotNull then "isNotNull"
  else "".

(** The values of a list without their later repetitions. *)
Fixpoint first_occurrences (l : list string) : list string :=
  match l with
  | x :: rest => x :: List.filter (fun y => negb (y =s x)) (first_occurrences rest)
  | [] => []
  end.

(** The parts of a comma-separated list that are not blank, trimmed. *)
Definition listed_values (value : string) : list string :=
  List.filter (fun part => negb (part =s "")) (List.map TrimSpace (Split_commas value)).

(** A string with a comma in it. *)
Fixpoint has_comma (s : string) : bool :=
  match s with
  | String c r => (c =? ",")%char || has_comma r
  | EmptyString => false
  end.

(** Membership in a list of strings, as a boolean. *)
Definition among (l : list string) (y : string) : bool := existsb (String.eqb y) l.

(** The columns collected so far: accepted by [NewDecisionTable], under
    names that are distinct and are the names seen. *)
Definition columns_collected (conditions outputs : list Column) (seen : gset string) : Prop :=
  Forall (column_accepted [ColumnTypeCondition]) conditions /\
  Forall (column_accepted [ColumnTypeConclusion; ColumnTypeMetadata]) outputs /\
  NoDup (List.map col_Name (conditions ++ outputs)) /\
  (forall y, y ∈ seen <-> In y (List.map col_Name (conditions ++ outputs))).

(** The rows of a table loaded from a document: numbered from 1 without a
    gap, under rule ids that are not empty, pairwise distinct and all among
    [ruleIDs]. *)
Definition rules_loaded (dt : DecisionTable) (ruleIDs : gset string) : Prop :=
  List.map Number (rows dt) = List.map Z.of_nat (seq 1 (length (rows dt))) /\
  NoDup (List.map RuleID (rows dt)) /\
  Forall (fun r => RuleID r <> "" /\ RuleID r ∈ ruleIDs) (rows dt).

(** The kinds of columns that become condition columns and output columns
    of the table. *)
Definition is_condition (c : Column) : bool := col_Type c =s ColumnTypeCondition.
Definition is_output (c : Column) : bool :=
  one_of (col_Type c) [ColumnTypeConclusion; ColumnTypeMetadata].

(** The columns read from a sheet so far: the condition columns and the
    output columns among them in order, valid, of one of the three kinds,
    and under names that are distinct and are the names seen. *)
Definition columns_read (layout : excelColumnLayout) (seen : gset string) : Prop :=
  Conditions layout = List.filter is_condition (Ordered layout) /\
  Outputs layout = List.filter is_output (Ordered layout) /\
  NoDup (List.map col_Name (Ordered layout)) /\
  (forall y, y ∈ seen <-> In y (List.map col_Name (Ordered layout))) /\
  Forall (fun c => validate c = Ok tt /\
                   In (col_Type c) [ColumnTypeCondition; ColumnTypeConclusion;
                                    ColumnTypeMetadata])
    (Ordered layout).

(** The errors of the two checks of the workbook loader that guard against
    its own mistakes: a column of a row outside the layout, and no default
    row under RETURN_DEFAULT after the rows were read. *)
Definition defensive (e : load_error) : bool :=
  match e with
  | ErrColumnIndex | ErrDefaultRowRequired => true
  | _ => false
  end.

(** The conditions of the row use operators of the list. *)
Definition uses_operators (allowed : list OperatorType) (r : Row) : Prop :=
  Forall (fun cell => In (ec_Operator cell) allowed) (EvalCells r).

(** The rows read from a sheet so far: numbered from 1 without a gap, under
    rule ids that are not empty, pairwise distinct and all among
    [ruleIDs]. *)
Definition rows_read (rows : list Row) (ruleIDs : gset string) : Prop :=
  List.map Number rows = List.map Z.of_nat (seq 1 (length rows)) /\
  NoDup (List.map RuleID rows) /\
  Forall (fun r => RuleID r <> "" /\ RuleID r ∈ ruleIDs) rows.

Section Markers.
Context `{GoStrings}.

(** The column of the table that a column of the sheet describes: its
    name in row 6, trimmed, its kind in row 7 and its DataType in row 8. *)
Definition column_of_sheet (f : Workbook) (col : Z) (column : Column) : Prop :=
  exists name typeRaw dataTypeRaw,
    GetCellValue f col (excelColumnMarkerRow + 1) = Loaded name /\
    col_Name column = TrimSpace name /\
    GetCellValue f col (excelColumnMarkerRow + 2) = Loaded typeRaw /\
    parseColumnTypeString typeRaw = Loaded (col_Type column) /\
    GetCellValue f col (excelColumnMarkerRow + 3) = Loaded dataTypeRaw /\
    parseDataTypeString dataTypeRaw = Loaded (col_DataType column).

(** The cell of the marker row in a column holds the text, whatever the
    case of its letters. *)
Definition column_marker (f : Workbook) (col : Z) (text : string) : Prop :=
  exists value,
    GetCellValue f col excelColumnMarkerRow = Loaded value /\
    EqualFold (TrimSpace value) text = true.

(** The marker of a row of the sheet is the Default Row marker, or is
    not. *)
Definition default_marker (f : Workbook) (rowIdx : Z) (b : bool) : Prop :=
  exists markerCell,
    GetCellValue f 1 rowIdx = Loaded markerCell /\
    EqualFold (TrimSpace markerCell) "Default Row" = b.

End Markers.

(** ** A library instance and tables for the examples *)

(** A library without time parsing and with nothing beyond plain decimal
    literals, in which a pattern matches the strings equal to it. *)
Definition literal_library : GoLibrary := {|
  fmt_Sprint_ext := fun _ => "?";
  time_Parse := fun _ _ => None;
  Time_String := fun _ => "";
  BigFloat_String := fun _ => "";
  regexp_Compile_ok := fun _ => true;
  Regexp_MatchString := fun pattern s => pattern =s s;
  big_SetString_ext := fun _ => None;
  strconv_ParseFloat := fun _ => None;
  int64_of_float_ext := fun _ => MinInt64
|}.

(** The table a successful construction returned. *)
Definition constructed (r : result DecisionTable) : DecisionTable :=
  match r with
  | Ok dt => dt
  | _ => mkDecisionTable "" ∅ ∅ [] None MatchPolicyAll NoMatchPolicyThrowError RowValidationStrict
  end.

(** The table after a sequence of [AddRow] calls. *)
Definition AddRows `{GoLibrary} (dt : DecisionTable) (l : list Row) : DecisionTable :=
  fold_left (fun dt row => fst (AddRow dt row)) l dt.

(** The float64 constants 0.05, 0.15 and 0.2. *)
Definition float_0_05 : spec_float := S754_finite false 7205759403792794 (-57).
Definition float_0_15 : spec_float := S754_finite false 5404319552844595 (-55).
Definition float_0_2 : spec_float := S754_finite false 7205759403792794 (-55).

(** The rows of [buildSampleTable] in the tests of the package. *)
Definition sample_rows : list Row :=
  [ mkRow [mkEvalCell "age" OperatorGreaterOrEqual (VInt KInt 18) "";
           mkEvalCell "country" OperatorIn (VStrings ["US"; "CA"]) ""]
          [mkReturnCell "tier" (VString "standard") "";
           mkReturnCell "discount" (VFloat KFloat64 float_0_05) ""]
          "eligibility-standard" "" 0;
    mkRow [mkEvalCell "age" OperatorGreaterOrEqual (VInt KInt 30) "";
           mkEvalCell "country" OperatorEqual (VString "US") ""]
          [mkReturnCell "tier" (VString "premium") "";
           mkReturnCell "discount" (VFloat KFloat64 float_0_15) ""]
          "eligibility-premium" "" 0;
    mkRow [mkEvalCell "segments" OperatorAnyContained (VStrings ["vip"]) ""]
          [mkReturnCell "tier" (VString "vip-only") "";
           mkReturnCell "discount" (VFloat KFloat64 float_0_2) ""]
          "eligibility-vip-segment" "" 0 ].

(** The table of [buildSampleTable] with the given options, after [AddRow]
    on each row of [l]. *)
Definition sample_table (opts : list (option Option)) (l : list Row) : DecisionTable :=
  AddRows (H := literal_library)
    (constructed
       (NewDecisionTable "eligibility"
          [mkColumn "age" ColumnTypeCondition DataTypeInteger;
           mkColumn "country" ColumnTypeCondition DataTypeString;
           mkColumn "segments" ColumnTypeCondition DataTypeListString]
          [mkColumn "tier" ColumnTypeConclusion DataTypeString;
           mkColumn "discount" ColumnTypeConclusion DataTypeDecimal]
          opts))
    l.

Definition sample_default : Row :=
  mkRow [] [mkReturnCell "tier" (VString "minor") ""] "default-row" "" 0.

(** The default row as [SetDefaultRow] stores it in a table with the three
    sample rows. *)
Definition sample_default_stored : Row :=
  mkRow [] [mkReturnCell "tier" (VString "minor") DataTypeString] "default-row" "" 4.

Definition adult_us : gmap string any :=
  {[ "age" := VInt KInt 32; "country" := VString "US";
     "segments" := VStrings ["vip"; "beta"] ]}.

Definition child_us : gmap string any :=
  {[ "age" := VInt KInt 12; "country" := VString "US" ]}.

Definition vip_only : gmap string any := {[ "segments" := VStrings ["vip"] ]}.

(** An [age] that is no integer. *)
Definition garbled_age : gmap string any := {[ "age" := VString "abc" ]}.

Definition first_table : DecisionTable :=
  sample_table [Some (WithMatchPolicy MatchPolicyFirst)] sample_rows.

Definition fallback_tier : gmap string any := {[ "tier" := VString "fallback" ]}.

Definition return_default_table : DecisionTable :=
  sample_table [Some (WithNoMatchPolicy NoMatchPolicyReturnDefault)] sample_rows.

Definition unique_table : DecisionTable :=
  sample_table [Some (WithMatchPolicy MatchPolicyUnique)] sample_rows.

Definition unique_table_with_default : DecisionTable :=
  fst (SetDefaultRow (H := literal_library) unique_table sample_default).

(** The first two sample rows, registered with the row numbers 5 and 3. *)
Definition rows_5_3 : list Row :=
  match sample_rows with
  | r1 :: r2 :: _ => [with_Number r1 5; with_Number r2 3]
  | _ => []
  end.

(** A row on a column the sample table does not have. *)
Definition unknown_column_row : Row :=
  mkRow [mkEvalCell "height" OperatorGreater (VInt KInt 180) ""]
        [mkReturnCell "tier" (VString "tall") ""] "tall" "" 0.

(** A stored row whose second cell does not match [adult_us] and whose
    third cell carries no DataType. *)
Definition cell_age : EvalCell :=
  mkEvalCell "age" OperatorGreaterOrEqual (VInt KInt64 18) DataTypeInteger.
Definition cell_country : EvalCell :=
  mkEvalCell "country" OperatorEqual (VString "FR") DataTypeString.
Definition cell_untyped : EvalCell :=
  mkEvalCell "segments" OperatorIsNull (VBool true) "".

Definition stored_row : Row :=
  mkRow [cell_age; cell_country; cell_untyped] [] "stored" "" 7.

(** The table of [TestDecisionTableDecimal] in the tests of the package and
    its input. *)
Definition payments_table : DecisionTable :=
  AddRows (H := literal_library)
    (constructed
       (NewDecisionTable "payments"
          [mkColumn "amount" ColumnTypeCondition DataTypeDecimal]
          [mkColumn "tier" ColumnTypeConclusion DataTypeString] []))
    [ mkRow [mkEvalCell "amount" OperatorGreaterOrEqual (VString "99.999999999999999999") ""]
            [mkReturnCell "tier" (VString "preferred") ""] "bd-1" "" 0 ].

Definition payment : gmap string any :=
  {[ "amount" := VString "100.000000000000000001" ]}.

(** A table with the one rule [id > 9007199254740992] on an INTEGER column
    and an input whose [id] is the next integer. *)
Definition ledger_table : DecisionTable :=
  AddRows (H := literal_library)
    (constructed
       (NewDecisionTable "ledger"
          [mkColumn "id" ColumnTypeCondition DataTypeInteger]
          [mkColumn "tier" ColumnTypeConclusion DataTypeString] []))
    [ mkRow [mkEvalCell "id" OperatorGreater (VInt KInt64 9007199254740992) ""]
            [mkReturnCell "tier" (VString "recent") ""] "recent" "" 0 ].

Definition ledger_entry : gmap string any :=
  {[ "id" := VInt KInt64 9007199254740993 ]}.

(** A row with an operator that is none of the package's. *)
Definition unknown_operator_row : Row :=
  mkRow [mkEvalCell "age" "BETWEEN" (VInt KInt 18) ""]
        [mkReturnCell "tier" (VString "standard") ""] "between" "" 0.

(** [vip_only] with a key that no row tests and with a tested key holding
    nil. *)
Definition vip_only_and_more : gmap string any :=
  {[ "segments" := VStrings ["vip"]; "age" := VNil; "height" := VInt KInt 180 ]}.

(** Package [strings] for the examples, whose strings are ASCII. *)
Definition ascii_strings : GoStrings := {|
  strings_ToUpper_ext := fun s => s;
  strings_EqualFold_ext := String.eqb
|}.

(** The table a successful load returned. *)
Definition loaded_table (r : loaded DecisionTable) : DecisionTable :=
  match r with
  | Loaded dt => dt
  | _ => mkDecisionTable "" ∅ ∅ [] None MatchPolicyAll NoMatchPolicyThrowError RowValidationStrict
  end.

(** The document of [TestLoadJSONNoMatchThrowsError] in the tests of the
    package, as [json.Unmarshal] decodes it: the number 50 is a float64. *)
Definition score_check : jsonDecisionTableSpec :=
  mkJsonDecisionTableSpec "scoreCheck" ""
    (mkJsonPoliciesSpec "ALL" "THROW_ERROR")
    [mkJsonColumnSpec "score" "" "CONDITION" "INTEGER";
     mkJsonColumnSpec "segment" "" "CONCLUSION" "STRING"]
    [mkJsonRuleSpec "rule-1" ""
       [Some (mkJsonConditionCell "greaterThan" (VFloat KFloat64 (float64_of_int 50)))]
       [VString "high"]]
    None.

Definition score_check_table : DecisionTable :=
  loaded_table (buildDecisionTable (H := literal_library) (H0 := ascii_strings)
                  score_check "score.json").

(** The workbook of [buildExcelFixture] in the tests of the package: the
    cells it sets, by column and row; every other cell is empty. *)
Definition fixture_cells : list (Z * Z * string) :=
  [ (1, 1, "Version"); (2, 1, "1.0");
    (1, 2, "Match Policy"); (2, 2, "ALL");
    (1, 3, "No Match Policy"); (2, 3, "RETURN_DEFAULT");
    (2, 5, "First Column"); (6, 5, "Last Column");
    (2, 6, "age"); (2, 7, "Condition"); (2, 8, "Integer");
    (3, 6, "country"); (3, 7, "Condition"); (3, 8, "String");
    (4, 6, "tier"); (4, 7, "Conclusion"); (4, 8, "String");
    (5, 6, "ruleId"); (5, 7, "Metadata"); (5, 8, "String");
    (6, 6, "comments"); (6, 7, "Metadata"); (6, 8, "String");
    (1, 9, "First Row"); (2, 9, ">= 18"); (3, 9, "= US"); (4, 9, "standard");
    (5, 9, "row1"); (6, 9, "adult rule");
    (2, 10, ">= 21"); (3, 10, "IN CA,MX"); (4, 10, "neighbor");
    (5, 10, "row2"); (6, 10, "neighbor rule");
    (1, 11, "Default Row"); (4, 11, "minor"); (5, 11, "default");
    (6, 11, "default row") ].

Definition fixture : Workbook :=
  mkWorkbook None
    (fun col row =>
       match List.find (fun cell => (cell.1.1 =? col) && (cell.1.2 =? row)) fixture_cells with
       | Some cell => inl cell.2
       | None => inl ""
       end).

Definition fixture_table : DecisionTable :=
  loaded_table (loadExcelWorkbook (H := literal_library) (H0 := ascii_strings)
                  "fixture.xlsx" fixture).

Definition fixture_layout : excelColumnLayout :=
  match readExcelColumns (H0 := ascii_strings) fixture with
  | Loaded (layout, _, _) => layout
  | _ => mkExcelColumnLayout [] [] []
  end.

(** ** Properties *)

(** An equivalence whose left side equates two different outcomes and whose
    right side is a [Forall] that fails at the head of the list. *)
Ltac not_all_hold :=
  split; [discriminate|];
  let Hall := fresh "Hall" in
  intros Hall; inversion Hall; subst;
  repeat match goal with
    | Hhead : _ /\ _ |- _ => destruct Hhead
    end;
  congruence.

Section Properties.
Context `{GoLibrary}.

(** *** Ordering and nullity *)

Lemma compare_nil_left dt op right : compare dt op VNil right = Ok false.
Proof. reflexivity. Qed.

Lemma compare_nil_right dt op left : compare dt op left VNil = Ok false.
Proof. unfold compare. simpl. now rewrite orb_true_r. Qed.

Lemma ordering_is_compare dt op actual expected :
  In op [OperatorGreater; OperatorGreaterOrEqual; OperatorLess; OperatorLessOrEqual] ->
  evaluateScalarOperator dt op actual expected = compare dt op actual expected.
Proof.
  intros Hop. simpl in Hop.
  destruct Hop as [<- | [<- | [<- | [<- | []]]]]; reflexivity.
Qed.

(** C10. For every DataType and each of GREATER, GREATER_OR_EQUAL, LESS and
    LESS_OR_EQUAL, when the actual or the expected value is nil the operator
    evaluates to false and returns no error: both [compare] and the
    dispatch through [evaluateScalarOperator] return [(false, nil)]. *)
Theorem ordering_with_nil_is_false (dt : DataType) (op : OperatorType) (actual expected : any) :
  In op [OperatorGreater; OperatorGreaterOrEqual; OperatorLess; OperatorLessOrEqual] ->
  actual = VNil \/ expected = VNil ->
  compare dt op actual expected = Ok false /\
  evaluateScalarOperator dt op actual expected = Ok false.
Proof.
  intros Hop Hnil.
  rewrite (ordering_is_compare dt op actual expected Hop).
  destruct Hnil as [-> | ->].
  - split; apply compare_nil_left.
  - split; apply compare_nil_right.
Qed.

(** *** Columns absent from the input *)

Lemma input_at_absent (input : gmap string any) (c : string) :
  input !! c = None -> input_at input c = VNil.
Proof. intros Hc. unfold input_at. now rewrite Hc. Qed.

Lemma coercePrimitive_nil dt : coercePrimitive dt VNil = Ok VNil.
Proof. reflexivity. Qed.

Lemma evaluateCell_IsNull_nil dt expected :
  evaluateCell dt OperatorIsNull VNil expected = Ok true.
Proof. reflexivity. Qed.

Lemma evaluateCell_IsNotNull_nil dt expected :
  evaluateCell dt OperatorIsNotNull VNil expected = Ok false.
Proof. reflexivity. Qed.

Lemma equals_nil_left dt expected :
  equals dt VNil expected = Ok (is_nil expected).
Proof. reflexivity. Qed.

Lemma evaluateCell_Equal_nil dt expected :
  expected <> VNil -> evaluateCell dt OperatorEqual VNil expected = Ok false.
Proof.
  intros Hexp.
  change (evaluateCell dt OperatorEqual VNil expected) with (equals dt VNil expected).
  rewrite equals_nil_left. destruct expected; try reflexivity. congruence.
Qed.

(** C9. A condition column that the input record lacks is read as the nil
    value and raises no error: on such a column IS_NULL matches, IS_NOT_NULL
    does not match, and EQUAL against a non-nil expected value is false;
    inside [Row.matches] a cell with IS_NULL on the absent column is passed
    and the remaining cells decide, and a cell with IS_NOT_NULL or with
    EQUAL against a non-nil value makes the row a non-match. *)
Theorem absent_column_is_nil (input : gmap string any) (c : string) :
  input !! c = None ->
  (forall dt expected,
      evaluateCell dt OperatorIsNull (input_at input c) expected = Ok true /\
      evaluateCell dt OperatorIsNotNull (input_at input c) expected = Ok false /\
      (expected <> VNil ->
       evaluateCell dt OperatorEqual (input_at input c) expected = Ok false)) /\
  (forall number cell rest,
      ec_Column cell = c -> ec_dataType cell <> "" ->
      (ec_Operator cell = OperatorIsNull ->
       matches_cells number (cell :: rest) input = matches_cells number rest input) /\
      (ec_Operator cell = OperatorIsNotNull ->
       matches_cells number (cell :: rest) input = Ok false) /\
      (ec_Operator cell = OperatorEqual -> ec_Value cell <> VNil ->
       matches_cells number (cell :: rest) input = Ok false)).
Proof.
  intros Hc. split.
  - intros dt expected. rewrite (input_at_absent input c Hc).
    split; [apply evaluateCell_IsNull_nil|].
    split; [apply evaluateCell_IsNotNull_nil|apply evaluateCell_Equal_nil].
  - intros number cell rest Hcol Hdt.
    assert (Hty : (ec_dataType cell =s "") = false) by now apply String.eqb_neq.
    simpl. rewrite Hty, Hcol, (input_at_absent input c Hc).
    split; [|split].
    + intros ->. now rewrite evaluateCell_IsNull_nil.
    + intros ->. now rewrite evaluateCell_IsNotNull_nil.
    + intros -> Hval. now rewrite (evaluateCell_Equal_nil _ _ Hval).
Qed.

(** *** Collection operators *)

Lemma sanitizeActualCollection_empty dt :
  sanitizeActualCollection dt VNil = Ok [] /\
  sanitizeActualCollection dt (VSlice []) = Ok [] /\
  sanitizeActualCollection dt (VStrings []) = Ok [].
Proof. repeat split. Qed.

Lemma allEqual_loop_true dt expected actual :
  allEqual_loop dt expected actual = Ok true <->
  Forall (fun v => equals dt v expected = Ok true) actual.
Proof.
  induction actual as [|v rest IH]; simpl.
  - split; [constructor | reflexivity].
  - destruct (equals dt v expected) as [[|]| |] eqn:Hv;
      [|not_all_hold..].
    rewrite IH. split.
    + intros Hrest. now constructor.
    + intros Hall. now inversion Hall.
Qed.

Lemma evaluateCollectionOperator_AllEqual dt actual expected :
  evaluateCollectionOperator dt OperatorAllEqual actual expected =
  if is_nil expected then Err ErrAllEqualScalar
  else match allEqual_loop dt expected actual with
       | Ok true => Ok (0 <? length actual)%nat
       | r => r
       end.
Proof. reflexivity. Qed.

(** C4. For every DataType and every expected collection, ANY_CONTAINED_IN
    on an empty actual list is false and ALL_CONTAINED_IN on an empty actual
    list is true, both for the operator itself and for a cell whose input
    value is nil or an empty list; ALL_EQUAL is true exactly when the
    expected scalar is not nil, the actual list is non-empty and every
    element equals the expected scalar, so in particular only then. *)
Theorem collection_operators_on_empty_actual (dt : DataType) (expectedSlice : list any) :
  evaluateCollectionOperator dt OperatorAnyContained [] (VSlice expectedSlice) = Ok false /\
  evaluateCollectionOperator dt OperatorAllContained [] (VSlice expectedSlice) = Ok true /\
  evaluateCell dt OperatorAnyContained VNil (VSlice expectedSlice) = Ok false /\
  evaluateCell dt OperatorAnyContained (VSlice []) (VSlice expectedSlice) = Ok false /\
  evaluateCell dt OperatorAllContained VNil (VSlice expectedSlice) = Ok true /\
  evaluateCell dt OperatorAllContained (VSlice []) (VSlice expectedSlice) = Ok true /\
  (forall actual expected,
      evaluateCollectionOperator dt OperatorAllEqual actual expected = Ok true <->
      expected <> VNil /\ actual <> [] /\
      Forall (fun v => equals dt v expected = Ok true) actual).
Proof.
  do 6 (split; [reflexivity|]).
  intros actual expected. rewrite evaluateCollectionOperator_AllEqual.
  destruct (is_nil expected) eqn:Hnil.
  - destruct expected; try discriminate. split; [discriminate|].
    intros [Hexp _]. congruence.
  - assert (Hexp : expected <> VNil) by (intros ->; discriminate).
    pose proof (allEqual_loop_true dt expected actual) as Hloop.
    destruct (allEqual_loop dt expected actual) as [[|]| |].
    + destruct actual as [|v rest]; simpl.
      * split; [discriminate|]. intros (_ & Hne & _). congruence.
      * split; [|reflexivity]. intros _. repeat split; [exact Hexp|discriminate|].
        now apply Hloop.
    + split; [discriminate|]. intros (_ & _ & Hall). apply Hloop in Hall. discriminate.
    + split; [discriminate|]. intros (_ & _ & Hall). apply Hloop in Hall. discriminate.
    + split; [discriminate|]. intros (_ & _ & Hall). apply Hloop in Hall. discriminate.
Qed.

(** *** Coercion of blank strings *)









(** *** Row matching *)

Lemma matches_cells_passing number input pre rest :
  Forall (cell_passes input) pre ->
  matches_cells number (pre ++ rest) input = matches_cells number rest input.
Proof.
  induction 1 as [|cell pre [Hdt Hcell] _ IH]; [reflexivity|].
  apply String.eqb_neq in Hdt. unfold cell_result in Hcell.
  simpl. now rewrite Hdt, Hcell.
Qed.

Lemma matches_cells_true number input cells :
  matches_cells number cells input = Ok true <-> Forall (cell_passes input) cells.
Proof.
  induction cells as [|cell rest IH]; simpl.
  - split; [constructor|reflexivity].
  - unfold cell_passes at 1, cell_result.
    destruct (String.eqb_spec (ec_dataType cell) "") as [Hdt|Hdt].
    + not_all_hold.
    + destruct (evaluateCell _ _ _ _) as [[|]| |] eqn:Hcell;
        [|not_all_hold..].
      rewrite IH. split.
      * intros Hrest. constructor; [|exact Hrest]. split; assumption.
      * intros Hall. now inversion Hall.
Qed.

(** C5. [Row.matches] is an ordered, short-circuiting conjunction. It
    returns true exactly when every cell carries a DataType and matches.
    When the cells before some cell all match, that cell decides whatever
    the later cells are: if it carries a DataType and does not match, the
    row does not match; if it carries no DataType, the result is the error
    that names the row number and the column; if its evaluation fails, the
    result is that failure with the row number and the column. *)
Theorem matches_short_circuits (r : Row) (input : gmap string any) :
  (matches r input = Ok true <-> Forall (cell_passes input) (EvalCells r)) /\
  (forall pre cell post,
      EvalCells r = (pre ++ cell :: post)%list ->
      Forall (cell_passes input) pre ->
      (ec_dataType cell <> "" -> cell_result input cell = Ok false ->
       matches r input = Ok false) /\
      (ec_dataType cell = "" ->
       matches r input = Err (ErrMissingDataType (Number r) (ec_Column cell))) /\
      (forall e, ec_dataType cell <> "" -> cell_result input cell = Err e ->
       matches r input = Err (ErrRowColumn (Number r) (ec_Column cell) e))).
Proof.
  split; [apply matches_cells_true|].
  intros pre cell post Hcells Hpre. unfold matches. rewrite Hcells.
  rewrite (matches_cells_passing _ _ _ _ Hpre). simpl. unfold cell_result.
  split; [|split].
  - intros Hdt Hcell. apply String.eqb_neq in Hdt. now rewrite Hdt, Hcell.
  - intros Hdt. now rewrite Hdt.
  - intros e Hdt Hcell. apply String.eqb_neq in Hdt. now rewrite Hdt, Hcell.
Qed.

(** *** The scan of [Evaluate] *)




Lemma Evaluate_no_match_outcome dt input defaultReturn :
  Evaluate_scan (matchPolicy dt) input (rows dt) [] = Ok [] ->
  Evaluate dt input defaultReturn = no_match_outcome dt defaultReturn.
Proof.
  intros Hscan. unfold Evaluate, no_match_outcome. rewrite Hscan. simpl.
  destruct (noMatchPolicy dt =? NoMatchPolicyReturnDefault); [reflexivity|].
  destruct (noMatchPolicy dt =? NoMatchPolicyThrowError); reflexivity.
Qed.

Lemma Evaluate_some_match dt input defaultReturn found :
  Evaluate_scan (matchPolicy dt) input (rows dt) [] = Ok found -> found <> [] ->
  Evaluate dt input defaultReturn = Ok found.
Proof.
  intros Hscan Hne. unfold Evaluate. rewrite Hscan. simpl.
  destruct found; [congruence|]. simpl.
  now destruct (matchPolicy dt =? MatchPolicyUnique).
Qed.


(** *** Match policies *)

Lemma no_row_fails_cons input row rest :
  no_row_fails input (row :: rest) ->
  (matches row input = Ok true \/ matches row input = Ok false) /\ no_row_fails input rest.
Proof.
  intros Hall. inversion Hall as [|? ? Hrow Hrest]. split; [|exact Hrest].
  destruct (matches row input) as [[|]| |]; try discriminate; auto.
Qed.

Lemma row_matches_eq input row b :
  matches row input = Ok b -> row_matches input row = b.
Proof. intros Hrow. unfold row_matches. rewrite Hrow. now destruct b. Qed.

(** Under a policy that is neither FIRST nor UNIQUE the scan collects every
    matching row, in order. *)
Lemma Evaluate_scan_collects mp input rest found :
  mp <> MatchPolicyFirst -> mp <> MatchPolicyUnique -> no_row_fails input rest ->
  Evaluate_scan mp input rest found =
  Ok (found ++ List.map matched (List.filter (row_matches input) rest))%list.
Proof.
  intros Hfirst Huniq. apply Z.eqb_neq in Hfirst, Huniq.
  revert found. induction rest as [|row rest IH]; intros found Hall; simpl.
  - now rewrite app_nil_r.
  - apply no_row_fails_cons in Hall as [[Hrow|Hrow] Hrest];
      rewrite (row_matches_eq _ _ _ Hrow), Hrow.
    + rewrite Hfirst, Huniq. simpl. rewrite (IH _ Hrest).
      now rewrite <- app_assoc.
    + now apply IH.
Qed.

(** Under UNIQUE the scan collects the matching rows until a second one
    turns up. *)
Lemma Evaluate_scan_unique input rest found :
  (length found <= 1)%nat -> no_row_fails input rest ->
  Evaluate_scan MatchPolicyUnique input rest found =
  if (length found + length (List.filter (row_matches input) rest) <=? 1)%nat
  then Ok (found ++ List.map matched (List.filter (row_matches input) rest))%list
  else Err (ErrAmbiguous 2).
Proof.
  revert found. induction rest as [|row rest IH]; intros found Hlen Hall; simpl.
  - rewrite app_nil_r, Nat.add_0_r.
    now destruct (Nat.leb_spec (length found) 1); [|lia].
  - apply no_row_fails_cons in Hall as [[Hrow|Hrow] Hrest];
      rewrite (row_matches_eq _ _ _ Hrow), Hrow; [|now apply IH].
    destruct found as [|m [|m' found]]; simpl in Hlen; [| |lia].
    + simpl. rewrite (IH [matched row]); [|simpl; lia|exact Hrest]. reflexivity.
    + reflexivity.
Qed.

(** A scan that returns under a policy other than FIRST has called
    [matches] on every row, and no call failed. *)
Lemma Evaluate_scan_returns mp input rest found out :
  mp <> MatchPolicyFirst ->
  Evaluate_scan mp input rest found = Ok out -> no_row_fails input rest.
Proof.
  intros Hfirst. apply Z.eqb_neq in Hfirst.
  revert found. induction rest as [|row rest IH]; intros found Hout; [constructor|].
  simpl in Hout. destruct (matches row input) as [[|]| |] eqn:Hrow; try discriminate.
  - rewrite Hfirst in Hout. destruct (_ && _); [discriminate|].
    constructor; [now rewrite Hrow|now apply IH in Hout].
  - constructor; [now rewrite Hrow|now apply IH in Hout].
Qed.

Lemma RowNumber_matched l :
  List.map RowNumber (List.map matched l) = List.map Number l.
Proof. induction l; simpl; congruence. Qed.

(** C2, as the code has it. Under UNIQUE, when no row fails on the input:
    [Evaluate] fails with the ambiguity error exactly when at least two rows
    match; when exactly one row matches it returns the single entry of that
    row; when at least one row matches it returns exactly one entry exactly
    when exactly one row matches; and when no row matches the outcome is
    that of the no-match policy (one default or fallback entry, an empty
    sequence, or the no-match error). *)
Theorem Evaluate_unique (dt : DecisionTable) (input : gmap string any)
    (defaultReturn : option (gmap string any)) :
  matchPolicy dt = MatchPolicyUnique ->
  no_row_fails input (rows dt) ->
  (Evaluate dt input defaultReturn = Err (ErrAmbiguous 2) <->
   (2 <= length (matching dt input))%nat) /\
  (forall r, matching dt input = [r] ->
             Evaluate dt input defaultReturn = Ok [matched r]) /\
  (matching dt input <> [] ->
   ((exists m, Evaluate dt input defaultReturn = Ok [m]) <->
    length (matching dt input) = 1%nat)) /\
  (matching dt input = [] ->
   Evaluate dt input defaultReturn = no_match_outcome dt defaultReturn).
Proof.
  intros Hpolicy Hall.
  pose proof (Evaluate_scan_unique input (rows dt) [] (Nat.le_0_l 1) Hall) as Hscan.
  rewrite <- Hpolicy in Hscan at 1. fold (matching dt input) in Hscan.
  simpl in Hscan.
  destruct (matching dt input) as [|r [|r' l]] eqn:Hmatching; simpl in Hscan.
  - pose proof (Evaluate_no_match_outcome dt input defaultReturn Hscan) as Heval.
    rewrite Heval. repeat split; try (intros; simpl in *; congruence || lia).
    unfold no_match_outcome.
    destruct (noMatchPolicy dt =? NoMatchPolicyReturnDefault);
      [|destruct (noMatchPolicy dt =? NoMatchPolicyThrowError)];
      destruct (defaultRow dt); try destruct defaultReturn; discriminate.
  - assert (Heval : Evaluate dt input defaultReturn = Ok [matched r])
      by (apply (Evaluate_some_match _ _ _ _ Hscan); discriminate).
    rewrite Heval. repeat split; try (intros; simpl in *; congruence || lia).
    intros _. now exists (matched r).
  - assert (Heval : Evaluate dt input defaultReturn = Err (ErrAmbiguous 2))
      by (unfold Evaluate; now rewrite Hscan).
    rewrite Heval. repeat split; try (intros; simpl in *; congruence || lia).
    intros [m Hm]. discriminate.
Qed.

(** *** Registration *)

Lemma prepareRow_Number dt row requireEval requireReturn prepared :
  prepareRow dt row requireEval requireReturn = Ok prepared ->
  Number prepared = Number row.
Proof.
  unfold prepareRow. intros Hprep.
  destruct (requireEval && _); [discriminate|].
  destruct (requireReturn && _); [discriminate|].
  destruct (mapM_result (prepareEvalCell dt) (EvalCells row)); try discriminate.
  destruct (mapM_result (prepareReturnCell dt) (ReturnCells row)); try discriminate.
  simpl in Hprep. now injection Hprep as <-.
Qed.

(** A successful [AddRow] appends one row and touches nothing else; a row
    registered without a number gets the position it is appended at. *)
Lemma AddRow_appends dt row dt' :
  AddRow dt row = (dt', Ok tt) ->
  exists prepared,
    dt' = append_row dt prepared /\
    (Number row <= 0 -> Number prepared = Z.of_nat (length (rows dt)) + 1) /\
    (0 < Number row -> Number prepared = Number row).
Proof.
  unfold AddRow. intros Hadd.
  destruct (prepareRow dt row _ _) as [prepared| |] eqn:Hprep; try discriminate.
  apply prepareRow_Number in Hprep. injection Hadd as <-.
  eexists. split; [reflexivity|]. rewrite Hprep.
  split; intros Hnum.
  - apply Z.leb_le in Hnum. now rewrite Hnum.
  - apply Z.leb_gt in Hnum. now rewrite Hnum.
Qed.

Lemma AddRow_rows dt row :
  rows (fst (AddRow dt row)) = rows dt \/
  exists prepared,
    rows (fst (AddRow dt row)) = (rows dt ++ [prepared])%list /\
    (Number row <= 0 -> Number prepared = Z.of_nat (length (rows dt)) + 1).
Proof.
  destruct (AddRow dt row) as [dt' [[]| |]] eqn:Hadd.
  - right. apply AddRow_appends in Hadd as (prepared & -> & Hnum & _).
    now exists prepared.
  - left. unfold AddRow in Hadd.
    destruct (prepareRow dt row _ _); try discriminate; now injection Hadd as <-.
  - left. unfold AddRow in Hadd.
    destruct (prepareRow dt row _ _); try discriminate; now injection Hadd as <-.
Qed.

Lemma SetDefaultRow_rows dt row : rows (fst (SetDefaultRow dt row)) = rows dt.
Proof.
  unfold SetDefaultRow.
  destruct (_ && _); [reflexivity|].
  destruct (0 <? length (EvalCells row))%nat; [reflexivity|].
  now destruct (prepareRow dt row false true).
Qed.

(** Rows registered without numbers are numbered 1, 2, 3, ... *)
Lemma built_unnumbered_numbers dt :
  built_by_AddRow unnumbered dt ->
  List.map Number (rows dt) = List.map Z.of_nat (seq 1 (length (rows dt))).
Proof.
  induction 1 as [dt Hnew|dt row _ IH Hrow|dt row _ IH].
  - now rewrite Hnew.
  - destruct (AddRow_rows dt row) as [->|(prepared & -> & Hnum)]; [exact IH|].
    rewrite length_app, Nat.add_comm. simpl length.
    rewrite seq_S, !map_app, IH. simpl. rewrite (Hnum Hrow).
    do 2 f_equal. lia.
  - now rewrite SetDefaultRow_rows.
Qed.

Lemma StronglySorted_seq a n : StronglySorted Z.lt (List.map Z.of_nat (seq a n)).
Proof.
  revert a. induction n as [|n IH]; intros a; simpl; constructor; [apply IH|].
  apply List.Forall_forall. intros z Hz.
  apply in_map_iff in Hz as (k & <- & Hk). apply in_seq in Hk. lia.
Qed.

Lemma StronglySorted_filter {A : Type} (f : A -> Z) (p : A -> bool) (l : list A) :
  StronglySorted Z.lt (List.map f l) ->
  StronglySorted Z.lt (List.map f (List.filter p l)).
Proof.
  induction l as [|x l IH]; simpl; intros Hsorted; [constructor|].
  apply StronglySorted_inv in Hsorted as [Hl Hx].
  destruct (p x); [|now apply IH]. simpl. constructor; [now apply IH|].
  rewrite List.Forall_forall in Hx |- *. intros z Hz. apply Hx.
  apply in_map_iff in Hz as (y & <- & Hy). apply filter_In in Hy as [Hy _].
  now apply in_map.
Qed.

(** C7, as the code has it. Under ALL, when at least one row matches:
    [Evaluate] returns the entries of the matching rows in declaration
    order whenever no row fails, and whenever it returns, the row numbers of
    the returned entries are the row numbers of the matching rows in
    declaration order; for a table whose rows were all registered without a
    row number this sequence is strictly increasing. A row registered by a
    successful [AddRow] without a row number (number <= 0) receives its
    1-based position in the row list; a positive number is kept as given. *)
Theorem Evaluate_all_row_numbers (dt : DecisionTable) (input : gmap string any)
    (defaultReturn : option (gmap string any)) :
  (matchPolicy dt = MatchPolicyAll -> matching dt input <> [] ->
   (no_row_fails input (rows dt) ->
    Evaluate dt input defaultReturn = Ok (List.map matched (matching dt input))) /\
   (forall found,
       Evaluate dt input defaultReturn = Ok found ->
       List.map RowNumber found = List.map Number (matching dt input) /\
       (built_by_AddRow unnumbered dt -> StronglySorted Z.lt (List.map RowNumber found)))) /\
  (forall row dt',
      AddRow dt row = (dt', Ok tt) ->
      exists prepared,
        rows dt' = (rows dt ++ [prepared])%list /\
        (Number row <= 0 -> Number prepared = Z.of_nat (length (rows dt)) + 1) /\
        (0 < Number row -> Number prepared = Number row)).
Proof.
  split.
  - intros Hpolicy Hsome.
    assert (Hreturns : no_row_fails input (rows dt) ->
                       Evaluate dt input defaultReturn = Ok (List.map matched (matching dt input))).
    { intros Hall.
      apply Evaluate_some_match.
      - rewrite Hpolicy. now rewrite Evaluate_scan_collects.
      - destruct (matching dt input); [congruence|discriminate]. }
    split; [exact Hreturns|].
    intros found Hfound.
    assert (Hall : no_row_fails input (rows dt)).
    { unfold Evaluate in Hfound.
      destruct (Evaluate_scan (matchPolicy dt) input (rows dt) []) as [out| |] eqn:Hscan;
        try discriminate.
      rewrite Hpolicy in Hscan.
      now apply (Evaluate_scan_returns MatchPolicyAll input (rows dt) [] out). }
    rewrite (Hreturns Hall) in Hfound. injection Hfound as <-.
    rewrite RowNumber_matched. split; [reflexivity|].
    intros Hbuilt. apply StronglySorted_filter.
    rewrite (built_unnumbered_numbers dt Hbuilt). apply StronglySorted_seq.
  - intros row dt' Hadd.
    apply AddRow_appends in Hadd as (prepared & -> & Hnum).
    now exists prepared.
Qed.

(** C8. [AddRow] and [SetDefaultRow] are atomic on failure. When the
    preparation of the row fails (unknown column, missing operator, coercion
    or operator error, strict-validation rejection), [AddRow] returns that
    error and [SetDefaultRow] returns an error, and the table after the call
    is the table before it: rows, default row, columns and policies. More
    generally, any call that does not return success leaves the table as it
    was. *)
Theorem registration_is_atomic (dt : DecisionTable) (row : Row) :
  (forall e,
      prepareRow dt row (rowValidation dt =? RowValidationStrict)
        (rowValidation dt =? RowValidationStrict) = Err e ->
      AddRow dt row = (dt, Err e)) /\
  (forall e,
      prepareRow dt row false true = Err e ->
      exists e', SetDefaultRow dt row = (dt, Err e')) /\
  (snd (AddRow dt row) <> Ok tt -> fst (AddRow dt row) = dt) /\
  (snd (SetDefaultRow dt row) <> Ok tt -> fst (SetDefaultRow dt row) = dt).
Proof.
  repeat split.
  - intros e Hprep. unfold AddRow. now rewrite Hprep.
  - intros e Hprep. unfold SetDefaultRow.
    destruct (_ && _); [now eexists|].
    destruct (0 <? length (EvalCells row))%nat; [now eexists|].
    rewrite Hprep. now eexists.
  - unfold AddRow. destruct (prepareRow dt row _ _); simpl; congruence.
  - unfold SetDefaultRow.
    destruct (_ && _); [reflexivity|].
    destruct (0 <? length (EvalCells row))%nat; [reflexivity|].
    destruct (prepareRow dt row false true); simpl; congruence.
Qed.

Lemma built_AddRows (P : Row -> Prop) dt l :
  built_by_AddRow P dt -> Forall P l -> built_by_AddRow P (AddRows dt l).
Proof.
  intros Hbuilt Hl. revert dt Hbuilt.
  induction Hl as [|row l Hrow _ IH]; intros dt Hbuilt; [exact Hbuilt|].
  apply IH. now apply built_AddRow.
Qed.

(** *** The unfolded recursions are the functions of the source *)

Lemma coercePrimitive_unfold dt raw :
  coercePrimitive dt raw = coercePrimitive_body coercePrimitive dt raw.
Proof.
  unfold coercePrimitive at 1. unfold coercePrimitive_body.
  destruct (is_nil raw); [reflexivity|].
  repeat (match goal with
          | |- context [String.eqb dt ?x] => destruct (String.eqb dt x)
          end; [reflexivity|]).
  reflexivity.
Qed.

Lemma equals_unfold dt left right :
  equals dt left right = equals_body equals dt left right.
Proof.
  unfold equals at 1. unfold equals_body.
  destruct (is_nil left || is_nil right); [reflexivity|].
  repeat (match goal with
          | |- context [String.eqb dt ?x] => destruct (String.eqb dt x)
          | |- context [one_of dt ?x] => destruct (one_of dt x)
          end; [reflexivity|]).
  reflexivity.
Qed.

Lemma cloneArbitraryValue_value v : cloneArbitraryValue v = v.
Proof.
  revert v. fix IH 1. intros v. destruct v; try reflexivity.
  simpl. f_equal. induction l as [|x l IHl]; [reflexivity|].
  simpl. now rewrite IH, IHl.
Qed.

(** In this model of values a clone is the value itself: what [cloneMap]
    returns holds the entries of its argument. *)
Lemma cloneMap_value (m : gmap string any) : cloneMap m = m.
Proof.
  unfold cloneMap. apply map_eq. intros k. rewrite lookup_fmap.
  destruct (m !! k); [|reflexivity]. simpl. now rewrite cloneArbitraryValue_value.
Qed.

(** *** Integers that float64 holds exactly *)

Lemma digits2_pos_bounds p :
  2 ^ (Z.pos (digits2_pos p) - 1) <= Z.pos p < 2 ^ Z.pos (digits2_pos p).
Proof.
  induction p as [p IH|p IH|]; simpl digits2_pos.
  - rewrite Pos2Z.inj_succ, Z.pow_succ_r by lia.
    replace (Z.succ (Z.pos (digits2_pos p)) - 1) with (Z.succ (Z.pos (digits2_pos p) - 1)) by lia.
    rewrite Z.pow_succ_r by lia. lia.
  - rewrite Pos2Z.inj_succ, Z.pow_succ_r by lia.
    replace (Z.succ (Z.pos (digits2_pos p)) - 1) with (Z.succ (Z.pos (digits2_pos p) - 1)) by lia.
    rewrite Z.pow_succ_r by lia. lia.
  - simpl. lia.
Qed.

Lemma iter_xO_value p k : Z.pos (Pos.iter xO p k) = Z.pos p * 2 ^ Z.pos k.
Proof.
  induction k as [|k IH] using Pos.peano_ind.
  - simpl. lia.
  - rewrite Pos.iter_succ, Pos2Z.inj_xO, IH, Pos2Z.inj_succ, Z.pow_succ_r by lia. lia.
Qed.

Lemma iter_xO_digits p k : digits2_pos (Pos.iter xO p k) = (digits2_pos p + k)%positive.
Proof.
  induction k as [|k IH] using Pos.peano_ind.
  - simpl. lia.
  - rewrite Pos.iter_succ. simpl. rewrite IH. lia.
Qed.

Lemma binary_round_aux_canonical s m e :
  digits2_pos m = 53%positive -> -1074 <= e <= 971 ->
  binary_round_aux 53 1024 s (Z.pos m) e loc_Exact = S754_finite s m e.
Proof.
  intros Hm He. unfold binary_round_aux, shr_fexp, fexp, emin. simpl Zdigits2.
  rewrite Hm.
  replace (Z.max (53 + e - 53) (3 - 1024 - 53) - e) with 0 by lia.
  simpl. rewrite Hm.
  replace (Z.max (53 + e - 53) (3 - 1024 - 53) - e) with 0 by lia.
  simpl. destruct (Z.leb_spec e (1024 - 53)); [reflexivity|lia].
Qed.

(** The float64 of a positive integer of at most 53 bits: its bits moved to
    the top of the significand, nothing rounded away. *)
Lemma binary_round_exact s p :
  Z.pos (digits2_pos p) <= 53 ->
  exists m e,
    binary_round 53 1024 s p 0 = S754_finite s m e /\
    digits2_pos m = 53%positive /\ -52 <= e <= 0 /\
    Z.pos m * 2 ^ (e + 52) = Z.pos p * 2 ^ 52.
Proof.
  intros Hd. unfold binary_round, shl_align, fexp, emin.
  replace (Z.max (Z.pos (digits2_pos p) + 0 - 53) (3 - 1024 - 53))
    with (Z.pos (digits2_pos p) - 53) by lia.
  destruct (Z.pos (digits2_pos p) - 53 - 0) as [|k|k] eqn:Hk; [| lia |].
  - exists p, 0. rewrite binary_round_aux_canonical by lia.
    repeat split; try lia.
  - exists (Pos.iter xO p k), (Z.pos (digits2_pos p) - 53).
    rewrite binary_round_aux_canonical.
    + repeat split; try lia.
      * rewrite iter_xO_digits. lia.
      * rewrite iter_xO_value.
        replace (Z.pos (digits2_pos p) - 53 + 52) with (52 - Z.pos k) by lia.
        rewrite <- Z.mul_assoc, <- Z.pow_add_r by lia. f_equal. f_equal. lia.
    + rewrite iter_xO_digits. lia.
    + lia.
Qed.

Lemma float64_of_pos s p :
  Z.pos p <= 2 ^ 53 ->
  exists m e,
    binary_round 53 1024 s p 0 = S754_finite s m e /\
    digits2_pos m = 53%positive /\ -52 <= e <= 1 /\
    Z.pos m * 2 ^ (e + 52) = Z.pos p * 2 ^ 52.
Proof.
  intros Hp. destruct (Z.eq_dec (Z.pos p) (2 ^ 53)) as [Heq|Hne].
  - assert (p = 9007199254740992%positive) as -> by (change (2 ^ 53) with 9007199254740992 in Heq; congruence).
    exists 4503599627370496%positive, 1.
    repeat split; try lia; destruct s; reflexivity.
  - destruct (binary_round_exact s p) as (m & e & Hround & Hm & He & Hval).
    + pose proof (digits2_pos_bounds p) as [Hlow _].
      assert (Hlt : 2 ^ (Z.pos (digits2_pos p) - 1) < 2 ^ 53) by lia.
      apply Z.pow_lt_mono_r_iff in Hlt; lia.
    + exists m, e. repeat split; try assumption; lia.
Qed.

Lemma mul_compare_pos x y k : 0 < k -> (x * k ?= y * k) = (x ?= y).
Proof. intros Hk. symmetry. apply Zmult_compare_compat_r. lia. Qed.

Lemma canonical_compare m1 e1 m2 e2 :
  digits2_pos m1 = 53%positive -> digits2_pos m2 = 53%positive ->
  -52 <= e1 <= 1 -> -52 <= e2 <= 1 ->
  match e1 ?= e2 with
  | Lt => Lt
  | Gt => Gt
  | Eq => Pos.compare_cont Eq m1 m2
  end = (Z.pos m1 * 2 ^ (e1 + 52) ?= Z.pos m2 * 2 ^ (e2 + 52)).
Proof.
  intros Hm1 Hm2 He1 He2.
  pose proof (digits2_pos_bounds m1) as B1. rewrite Hm1 in B1.
  pose proof (digits2_pos_bounds m2) as B2. rewrite Hm2 in B2.
  change (2 ^ (53 - 1)) with 4503599627370496 in B1, B2.
  change (2 ^ 53) with 9007199254740992 in B1, B2.
  assert (Hstep : forall a b, -52 <= a -> a < b -> 2 * 2 ^ (a + 52) <= 2 ^ (b + 52)).
  { intros a b Ha Hab. rewrite <- Z.pow_succ_r by lia. apply Z.pow_le_mono_r; lia. }
  assert (Hpos : forall a, -52 <= a -> 0 < 2 ^ (a + 52)).
  { intros a Ha. apply Z.pow_pos_nonneg; lia. }
  destruct (Z.compare_spec e1 e2) as [Heq|Hlt|Hgt].
  - subst e2. rewrite mul_compare_pos by (apply Hpos; lia). reflexivity.
  - symmetry. apply Z.compare_lt_iff.
    pose proof (Hstep e1 e2 ltac:(lia) Hlt). pose proof (Hpos e1 ltac:(lia)). nia.
  - symmetry. apply Z.compare_gt_iff.
    pose proof (Hstep e2 e1 ltac:(lia) Hgt). pose proof (Hpos e2 ltac:(lia)). nia.
Qed.

Lemma float64_of_int_compare a b :
  Z.abs a <= 2 ^ 53 -> Z.abs b <= 2 ^ 53 ->
  SFcompare (float64_of_int a) (float64_of_int b) = Some (a ?= b).
Proof.
  intros Ha Hb. unfold float64_of_int, binary_normalize.
  assert (Hscale : forall x y, (x * 2 ^ 52 ?= y * 2 ^ 52) = (x ?= y)).
  { intros x y. apply mul_compare_pos. reflexivity. }
  destruct a as [|p|p], b as [|q|q]; try reflexivity.
  - destruct (float64_of_pos false q ltac:(lia)) as (m & e & -> & _). reflexivity.
  - destruct (float64_of_pos true q ltac:(lia)) as (m & e & -> & _). reflexivity.
  - destruct (float64_of_pos false p ltac:(lia)) as (m & e & -> & _). reflexivity.
  - destruct (float64_of_pos false p ltac:(lia)) as (m & e & -> & Hm & He & Hv).
    destruct (float64_of_pos false q ltac:(lia)) as (m' & e' & -> & Hm' & He' & Hv').
    unfold SFcompare. rewrite canonical_compare by assumption.
    rewrite Hv, Hv'. f_equal. apply Hscale.
  - destruct (float64_of_pos false p ltac:(lia)) as (m & e & -> & _).
    destruct (float64_of_pos true q ltac:(lia)) as (m' & e' & -> & _). reflexivity.
  - destruct (float64_of_pos true p ltac:(lia)) as (m & e & -> & _). reflexivity.
  - destruct (float64_of_pos true p ltac:(lia)) as (m & e & -> & _).
    destruct (float64_of_pos false q ltac:(lia)) as (m' & e' & -> & _). reflexivity.
  - destruct (float64_of_pos true p ltac:(lia)) as (m & e & -> & Hm & He & Hv).
    destruct (float64_of_pos true q ltac:(lia)) as (m' & e' & -> & Hm' & He' & Hv').
    unfold SFcompare.
    replace (match e ?= e' with
             | Eq => CompOpp (Pos.compare_cont Eq m m')
             | Lt => Gt
             | Gt => Lt
             end)
      with (CompOpp (match e ?= e' with
                     | Eq => Pos.compare_cont Eq m m'
                     | Lt => Lt
                     | Gt => Gt
                     end))
      by (now destruct (e ?= e')).
    rewrite canonical_compare by assumption.
    rewrite Hv, Hv', Hscale. reflexivity.
Qed.

(** X2. Inside the range in which float64 holds every integer, the
    conversion in [compare] loses nothing: for int64 operands of magnitude
    at most 2^53 the four ordering operators on an INTEGER column return the
    result of the exact integer comparison. *)
Theorem compare_Integer_exact_up_to_2_53 (lv rv : Z) :
  Z.abs lv <= 2 ^ 53 -> Z.abs rv <= 2 ^ 53 ->
  compare DataTypeInteger OperatorGreater (VInt KInt64 lv) (VInt KInt64 rv) = Ok (rv <? lv) /\
  compare DataTypeInteger OperatorGreaterOrEqual (VInt KInt64 lv) (VInt KInt64 rv) = Ok (rv <=? lv) /\
  compare DataTypeInteger OperatorLess (VInt KInt64 lv) (VInt KInt64 rv) = Ok (lv <? rv) /\
  compare DataTypeInteger OperatorLessOrEqual (VInt KInt64 lv) (VInt KInt64 rv) = Ok (lv <=? rv).
Proof.
  intros Hl Hr.
  pose proof (float64_of_int_compare lv rv Hl Hr) as Hlr.
  pose proof (float64_of_int_compare rv lv Hr Hl) as Hrl.
  unfold compare. cbn -[float64_of_int].
  unfold float64_gt, float64_ge, float64_lt, float64_le, SFltb, SFleb.
  rewrite Hlr, Hrl. unfold Z.ltb, Z.leb.
  repeat split.
Qed.

(** *** The FIRST policy *)

Lemma Evaluate_scan_skips mp input pre rest found :
  Forall (fun r => matches r input = Ok false) pre ->
  Evaluate_scan mp input (pre ++ rest) found = Evaluate_scan mp input rest found.
Proof.
  induction 1 as [|row pre Hrow _ IH]; simpl; [reflexivity|].
  now rewrite Hrow.
Qed.

(** X1. Under FIRST, [Evaluate] returns exactly the entry of the first row
    in declaration order that matches: the rows before it returned
    [(false, nil)], and the rows after it are not evaluated, whatever they
    are. *)
Theorem Evaluate_first (dt : DecisionTable) (input : gmap string any)
    (defaultReturn : option (gmap string any)) (pre post : list Row) (r : Row) :
  matchPolicy dt = MatchPolicyFirst ->
  rows dt = (pre ++ r :: post)%list ->
  Forall (fun r' => matches r' input = Ok false) pre ->
  matches r input = Ok true ->
  Evaluate dt input defaultReturn = Ok [matched r].
Proof.
  intros Hpolicy Hrows Hpre Hr.
  apply Evaluate_some_match; [|discriminate].
  rewrite Hpolicy, Hrows, (Evaluate_scan_skips _ _ _ _ _ Hpre).
  simpl. now rewrite Hr.
Qed.

(** *** The default row and the negated operators *)

Lemma mapM_result_nil {A B : Type} (f : A -> result B) : mapM_result f [] = Ok [].
Proof. reflexivity. Qed.

(** X4. A default row has no condition cells: after a successful
    [SetDefaultRow] the table holds a default row without evaluation cells,
    and its rows are the rows it had. *)
Theorem SetDefaultRow_stores_no_condition (dt dt' : DecisionTable) (row : Row) :
  SetDefaultRow dt row = (dt', Ok tt) ->
  exists d, defaultRow dt' = Some d /\ EvalCells d = [] /\ rows dt' = rows dt.
Proof.
  unfold SetDefaultRow.
  destruct (_ && _); [discriminate|].
  destruct (EvalCells row) as [|cell cells] eqn:Hcells; [|discriminate]. simpl.
  unfold prepareRow. rewrite Hcells. simpl.
  destruct (length (ReturnCells row) =? 0)%nat; [discriminate|].
  destruct (mapM_result (prepareReturnCell dt) (ReturnCells row)) as [cells| |];
    try discriminate.
  simpl. intros Hset. injection Hset as <-.
  eexists. split; [reflexivity|]. split; [|reflexivity].
  now destruct (Number row <=? 0).
Qed.


(** *** Unknown columns *)

Lemma mapM_result_Ok {A B : Type} (f : A -> result B) (l : list A) (ys : list B) :
  mapM_result f l = Ok ys -> Forall (fun x => is_Ok (f x) = true) l.
Proof.
  revert ys. induction l as [|x l IH]; simpl; intros ys Hl; [constructor|].
  destruct (f x) as [y| |] eqn:Hx; try discriminate.
  destruct (mapM_result f l) as [ys'| |] eqn:Hrest; try discriminate.
  constructor; [now rewrite Hx|now apply (IH ys')].
Qed.

Lemma prepareRow_knows_columns dt row requireEval requireReturn prepared :
  prepareRow dt row requireEval requireReturn = Ok prepared ->
  Forall (fun cell => conditionColumns dt !! ec_Column cell <> None) (EvalCells row) /\
  Forall (fun cell => outputColumns dt !! rc_Column cell <> None) (ReturnCells row).
Proof.
  unfold prepareRow. intros Hprep.
  destruct (requireEval && _); [discriminate|].
  destruct (requireReturn && _); [discriminate|].
  destruct (mapM_result (prepareEvalCell dt) (EvalCells row)) eqn:Heval; try discriminate.
  destruct (mapM_result (prepareReturnCell dt) (ReturnCells row)) eqn:Hret; try discriminate.
  apply mapM_result_Ok in Heval, Hret. split.
  - eapply List.Forall_impl; [|exact Heval]. intros cell Hcell Hnone.
    unfold prepareEvalCell in Hcell. rewrite Hnone in Hcell. discriminate.
  - eapply List.Forall_impl; [|exact Hret]. intros cell Hcell Hnone.
    unfold prepareReturnCell in Hcell. rewrite Hnone in Hcell. discriminate.
Qed.

(** X6. [AddRow] rejects a row that refers to an unknown column: when some
    evaluation cell names a column missing from the condition columns, or
    some return cell names a column missing from the output columns, the
    call does not succeed and the table is left as it was. *)
Theorem AddRow_rejects_unknown_columns (dt : DecisionTable) (row : Row) :
  Exists (fun cell => conditionColumns dt !! ec_Column cell = None) (EvalCells row) \/
  Exists (fun cell => outputColumns dt !! rc_Column cell = None) (ReturnCells row) ->
  snd (AddRow dt row) <> Ok tt /\ fst (AddRow dt row) = dt.
Proof.
  intros Hunknown. unfold AddRow.
  destruct (prepareRow dt row _ _) as [prepared| |] eqn:Hprep;
    [exfalso|split; [discriminate|reflexivity]..].
  apply prepareRow_knows_columns in Hprep as [Heval Hret].
  rewrite List.Forall_forall in Heval, Hret.
  destruct Hunknown as [Hex|Hex]; apply List.Exists_exists in Hex as (cell & Hin & Hnone).
  - now apply (Heval cell Hin).
  - now apply (Hret cell Hin).
Qed.

(** *** Checking the hypotheses on given rows *)

Lemma rows_reject input l :
  forallb (fun r => match matches r input with Ok false => true | _ => false end) l = true ->
  Forall (fun r => matches r input = Ok false) l.
Proof.
  induction l as [|r l IH]; simpl; [constructor|].
  intros Hl. apply andb_prop in Hl as [Hr Hl]. constructor; [|now apply IH].
  destruct (matches r input) as [[|]| |]; try discriminate. reflexivity.
Qed.

Lemma rows_do_not_fail input l :
  forallb (fun r => is_Ok (matches r input)) l = true -> no_row_fails input l.
Proof.
  induction l as [|r l IH]; simpl; [constructor|].
  intros Hl. apply andb_prop in Hl as [Hr Hl]. constructor; [exact Hr|now apply IH].
Qed.

End Properties.

(** ** The theorems at the examples *)

(** The rows of the examples as the tables store them. *)
Lemma sample_table_registers :
  List.map Number (rows (sample_table [] sample_rows)) = [1; 2; 3] /\
  List.map Number (rows (sample_table [] rows_5_3)) = [5; 3] /\
  List.map Number (rows payments_table) = [1] /\
  List.map Number (rows ledger_table) = [1].
Proof. repeat split; vm_compute; reflexivity. Qed.


(** The three sample rows match [adult_us]: under UNIQUE the call fails at
    the second. *)
Lemma Evaluate_unique_witness :
  Evaluate (H := literal_library) unique_table adult_us None = Err (ErrAmbiguous 2).
Proof.
  assert (Hpolicy : matchPolicy unique_table = MatchPolicyUnique)
    by (vm_compute; reflexivity).
  assert (Hall : no_row_fails (H := literal_library) adult_us (rows unique_table))
    by (apply rows_do_not_fail; vm_compute; reflexivity).
  apply (proj1 (Evaluate_unique unique_table adult_us None Hpolicy Hall)).
  vm_compute. lia.
Defined.

(** C2 as specified does not hold. In [unique_table] no row matches
    [child_us], yet [Evaluate] fails (the no-match error of THROW_ERROR);
    with a default row set, no row matches and [Evaluate] returns exactly
    one result. With no row matching either, [Evaluate] fails on
    [garbled_age] with the coercion error of the first row. *)
Lemma Evaluate_unique_counterexample :
  matchPolicy unique_table = MatchPolicyUnique /\
  matchPolicy unique_table_with_default = MatchPolicyUnique /\
  matching (H := literal_library) unique_table child_us = [] /\
  matching (H := literal_library) unique_table_with_default child_us = [] /\
  Evaluate (H := literal_library) unique_table child_us None = Err ErrNoMatch /\
  Evaluate (H := literal_library) unique_table_with_default child_us None =
    Ok [matched sample_default_stored] /\
  Evaluate (H := literal_library) unique_table_with_default garbled_age None =
    Err (ErrRowColumn 1 "age" ErrParseInt) /\
  ~ unique_as_specified (H := literal_library) unique_table child_us None /\
  ~ unique_as_specified (H := literal_library) unique_table_with_default child_us None.
Proof.
  assert (Hfails : Evaluate (H := literal_library) unique_table child_us None = Err ErrNoMatch)
    by (vm_compute; reflexivity).
  assert (Hone : Evaluate (H := literal_library) unique_table_with_default child_us None =
                 Ok [matched sample_default_stored])
    by (vm_compute; reflexivity).
  assert (Hnone : matching (H := literal_library) unique_table child_us = [])
    by (vm_compute; reflexivity).
  assert (Hnone' : matching (H := literal_library) unique_table_with_default child_us = [])
    by (vm_compute; reflexivity).
  repeat split; try assumption; try (vm_compute; reflexivity).
  - intros [Hiff _]. rewrite Hfails, Hnone in Hiff.
    pose proof (proj1 Hiff eq_refl) as Hlen. simpl in Hlen. lia.
  - intros [_ Hiff]. rewrite Hnone' in Hiff.
    assert (Hlen : length (@nil Row) = 1%nat) by (apply Hiff; eexists; exact Hone).
    discriminate.
Qed.

(** ALL_EQUAL on a list of two sevens against seven. *)
Lemma collection_operators_witness :
  evaluateCollectionOperator DataTypeInteger OperatorAllEqual
    [VInt KInt64 7; VInt KInt64 7] (VInt KInt64 7) = Ok true.
Proof.
  apply (proj2 (proj2 (proj2 (proj2 (proj2 (proj2
           (collection_operators_on_empty_actual (H := literal_library)
              DataTypeInteger []))))))).
  split; [discriminate|]. split; [discriminate|].
  repeat (constructor; [vm_compute; reflexivity|]). constructor.
Defined.

(** The second cell of [stored_row] does not match [adult_us]; the third
    cell, which carries no DataType, is never looked at. *)
Lemma matches_short_circuits_witness :
  matches (H := literal_library) stored_row adult_us = Ok false.
Proof.
  assert (Hage : Forall (cell_passes (H := literal_library) adult_us) [cell_age])
    by (constructor; [split; [vm_compute; discriminate|vm_compute; reflexivity]|constructor]).
  apply (proj1 (proj2 (matches_short_circuits stored_row adult_us)
                  [cell_age] cell_country [cell_untyped] eq_refl Hage)).
  - vm_compute. discriminate.
  - vm_compute. reflexivity.
Defined.



(** The sample table, registered without row numbers: under ALL the rows
    1, 2, 3 come back for [adult_us]. *)
Lemma Evaluate_all_row_numbers_witness :
  exists found,
    Evaluate (H := literal_library) (sample_table [] sample_rows) adult_us None = Ok found /\
    List.map RowNumber found = [1; 2; 3] /\
    StronglySorted Z.lt (List.map RowNumber found).
Proof.
  assert (Hpolicy : matchPolicy (sample_table [] sample_rows) = MatchPolicyAll)
    by (vm_compute; reflexivity).
  assert (Hsome : matching (H := literal_library) (sample_table [] sample_rows) adult_us <> [])
    by (vm_compute; discriminate).
  assert (Hall : no_row_fails (H := literal_library) adult_us (rows (sample_table [] sample_rows)))
    by (apply rows_do_not_fail; vm_compute; reflexivity).
  assert (Hbuilt : built_by_AddRow (H := literal_library) unnumbered (sample_table [] sample_rows)).
  { apply built_AddRows.
    - apply built_new. vm_compute. reflexivity.
    - repeat (constructor; [vm_compute; discriminate|]). constructor. }
  destruct (proj1 (Evaluate_all_row_numbers (sample_table [] sample_rows) adult_us None)
              Hpolicy Hsome) as [Hreturns Hnumbers].
  exists (List.map matched (matching (H := literal_library) (sample_table [] sample_rows) adult_us)).
  destruct (Hnumbers _ (Hreturns Hall)) as [Hn Hsorted].
  split; [exact (Hreturns Hall)|]. split; [|exact (Hsorted Hbuilt)].
  vm_compute. reflexivity.
Defined.

(** C7 as specified does not hold. The table is built by two [AddRow]
    calls, on rows numbered 5 and 3; both match [adult_us], and under ALL
    [Evaluate] returns them in declaration order, with the row numbers 5, 3:
    not an increasing sequence. And in the sample table under ALL and
    RETURN_DEFAULT, built by [AddRow] calls on unnumbered rows, no row
    matches [child_us], yet the result has one entry, the fallback map with
    row number 0. *)
Lemma Evaluate_all_row_numbers_counterexample :
  built_by_AddRow (H := literal_library) (fun _ => True) (sample_table [] rows_5_3) /\
  matchPolicy (sample_table [] rows_5_3) = MatchPolicyAll /\
  (exists found,
      Evaluate (H := literal_library) (sample_table [] rows_5_3) adult_us None = Ok found /\
      List.map RowNumber found = [5; 3]) /\
  ~ all_as_specified (H := literal_library) (sample_table [] rows_5_3) adult_us None /\
  built_by_AddRow (H := literal_library) unnumbered return_default_table /\
  matchPolicy return_default_table = MatchPolicyAll /\
  matching (H := literal_library) return_default_table child_us = [] /\
  (exists found,
      Evaluate (H := literal_library) return_default_table child_us (Some fallback_tier)
      = Ok found /\
      List.map RowNumber found = [0]) /\
  ~ all_as_specified (H := literal_library) return_default_table child_us (Some fallback_tier).
Proof.
  pose (found := List.map matched
                   (matching (H := literal_library) (sample_table [] rows_5_3) adult_us)).
  assert (Heval : Evaluate (H := literal_library) (sample_table [] rows_5_3) adult_us None
                  = Ok found) by (vm_compute; reflexivity).
  assert (Hnum : List.map RowNumber found = [5; 3]) by (vm_compute; reflexivity).
  pose (fallback := [mkMatchedRow (cloneMap fallback_tier) "" "" 0]).
  assert (Heval' : Evaluate (H := literal_library) return_default_table child_us
                     (Some fallback_tier) = Ok fallback) by (vm_compute; reflexivity).
  assert (Hnone : matching (H := literal_library) return_default_table child_us = [])
    by (vm_compute; reflexivity).
  repeat apply conj.
  - apply built_AddRows; [apply built_new; vm_compute; reflexivity|repeat constructor].
  - vm_compute. reflexivity.
  - exists found. now split.
  - intros Hclaim. destruct (Hclaim found Heval) as [_ Hsorted].
    rewrite Hnum in Hsorted. apply StronglySorted_inv in Hsorted as [_ Hlt].
    apply Forall_inv in Hlt. lia.
  - apply built_AddRows; [apply built_new; vm_compute; reflexivity|].
    repeat (constructor; [vm_compute; discriminate|]). constructor.
  - vm_compute. reflexivity.
  - exact Hnone.
  - exists fallback. now split.
  - intros Hclaim. destruct (Hclaim fallback Heval') as [Hnumbers _].
    rewrite Hnone in Hnumbers. discriminate.
Qed.

(** [AddRow] on a row with an unknown column returns the error and the
    sample table as it was. *)
Lemma registration_is_atomic_witness :
  AddRow (H := literal_library) (sample_table [] sample_rows) unknown_column_row =
  (sample_table [] sample_rows, Err (ErrUnknownColumn "height")).
Proof.
  apply (proj1 (registration_is_atomic (sample_table [] sample_rows) unknown_column_row)).
  vm_compute. reflexivity.
Defined.

(** [child_us] has no [segments]. *)
Lemma absent_column_is_nil_witness :
  evaluateCell (H := literal_library) DataTypeListString OperatorIsNull
    (input_at child_us "segments") (VBool true) = Ok true.
Proof.
  assert (Habsent : child_us !! "segments" = None) by (vm_compute; reflexivity).
  exact (proj1 (proj1 (absent_column_is_nil (H := literal_library) child_us "segments" Habsent)
                  DataTypeListString (VBool true))).
Defined.

(** No actual value is greater than 5. *)
Lemma ordering_with_nil_is_false_witness :
  compare DataTypeInteger OperatorGreater VNil (VInt KInt64 5) = Ok false.
Proof.
  apply (proj1 (ordering_with_nil_is_false (H := literal_library)
                  DataTypeInteger OperatorGreater VNil (VInt KInt64 5)
                  ltac:(simpl; auto) ltac:(left; reflexivity))).
Defined.

(** *** Numeric comparison *)

(** C3, the Integer half at the failing input. [compare] converts both
    int64 operands to float64 before it compares them, and
    9007199254740993 = 2^53 + 1 rounds to 2^53: GREATER is false although
    the left integer is the larger one, GREATER_OR_EQUAL is true with the
    operands swapped although [equals] tells the two integers apart, and a
    table with the rule [id > 9007199254740992] finds no match for the
    record with [id = 9007199254740993]. *)
Theorem compare_Integer_through_float64 :
  float64_of_int 9007199254740993 = float64_of_int 9007199254740992 /\
  compare DataTypeInteger OperatorGreater
    (VInt KInt64 9007199254740993) (VInt KInt64 9007199254740992) = Ok false /\
  compare DataTypeInteger OperatorGreaterOrEqual
    (VInt KInt64 9007199254740992) (VInt KInt64 9007199254740993) = Ok true /\
  equals DataTypeInteger
    (VInt KInt64 9007199254740992) (VInt KInt64 9007199254740993) = Ok false /\
  Evaluate (H := literal_library) ledger_table ledger_entry None = Err ErrNoMatch.
Proof. repeat split; vm_compute; reflexivity. Qed.

(** X3. The scenario of [TestDecisionTableDecimal]: the two literals are
    parsed to different 128-bit significands, and the rule
    [amount >= "99.999999999999999999"] matches the input
    ["100.000000000000000001"]. *)
Theorem Evaluate_decimal_precision :
  big_SetString (H := literal_library) "99.999999999999999999" =
    Some (BFinite 265845599156983174578102956064499083454 (-121)) /\
  big_SetString (H := literal_library) "100.000000000000000001" =
    Some (BFinite 265845599156983174583419868047638746946 (-121)) /\
  Evaluate (H := literal_library) payments_table payment None =
    Ok [ {| Values := {[ "tier" := VString "preferred" ]}; mr_RuleID := "bd-1";
            mr_Comments := ""; RowNumber := 1 |} ].
Proof. repeat split; vm_compute; reflexivity. Qed.

(** 2^53 against 2^53 - 1, the last pair the conversion keeps apart. *)
Lemma compare_Integer_exact_witness :
  compare DataTypeInteger OperatorGreater
    (VInt KInt64 9007199254740992) (VInt KInt64 9007199254740991) = Ok true.
Proof.
  apply (proj1 (compare_Integer_exact_up_to_2_53 9007199254740992 9007199254740991
                  ltac:(vm_compute; discriminate) ltac:(vm_compute; discriminate))).
Defined.

(** Under FIRST, on [vip_only] the first two sample rows do not match (their
    columns are absent) and the third is returned. *)
Lemma Evaluate_first_witness :
  Evaluate (H := literal_library) first_table vip_only None =
  Ok [matched (nth 2 (rows first_table) sample_default)].
Proof.
  apply (Evaluate_first (H := literal_library) first_table vip_only None
           (firstn 2 (rows first_table)) (skipn 3 (rows first_table))).
  - vm_compute. reflexivity.
  - vm_compute. reflexivity.
  - apply rows_reject. vm_compute. reflexivity.
  - vm_compute. reflexivity.
Defined.

(** *** The scenarios of the tests *)

(** [TestDecisionTableReturnsAllMatches]: under ALL the three sample rows
    match, in declaration order. *)
Lemma Evaluate_sample_all :
  (fun found => List.map (fun m => (RowNumber m, Values m !! "tier")) <$> found)
    (Evaluate (H := literal_library) (sample_table [] sample_rows) adult_us None) =
  Ok [ (1, Some (VString "standard")); (2, Some (VString "premium"));
       (3, Some (VString "vip-only")) ].
Proof. vm_compute. reflexivity. Qed.

(** The default row of [unique_table_with_default]. *)
Lemma SetDefaultRow_witness :
  exists d,
    defaultRow unique_table_with_default = Some d /\ EvalCells d = [] /\
    rows unique_table_with_default = rows unique_table.
Proof.
  apply (SetDefaultRow_stores_no_condition (H := literal_library)
           unique_table unique_table_with_default sample_default).
  vm_compute. reflexivity.
Defined.

(** The sample table has no column [height]. *)
Lemma AddRow_rejects_unknown_columns_witness :
  snd (AddRow (H := literal_library) (sample_table [] sample_rows) unknown_column_row) <> Ok tt /\
  fst (AddRow (H := literal_library) (sample_table [] sample_rows) unknown_column_row) =
  sample_table [] sample_rows.
Proof.
  apply (AddRow_rejects_unknown_columns (H := literal_library)).
  left. constructor. vm_compute. reflexivity.
Defined.

(** ** Further properties of the engine *)

Section Engine.
Context `{GoLibrary}.

Lemma fmap_Ok {A B : Type} (f : A -> B) (r : result A) (b : B) :
  f <$> r = Ok b -> exists a, r = Ok a /\ b = f a.
Proof. destruct r; simpl; intros Hr; try discriminate. injection Hr as <-. now eexists. Qed.

Lemma mapM_result_Forall2 {A B : Type} (f : A -> result B) (l : list A) (ys : list B) :
  mapM_result f l = Ok ys -> Forall2 (fun x y => f x = Ok y) l ys.
Proof.
  revert ys. induction l as [|x l IH]; simpl; intros ys Hl.
  - injection Hl as <-. constructor.
  - destruct (f x) as [y| |] eqn:Hx; try discriminate.
    destruct (mapM_result f l) as [ys'| |]; try discriminate.
    injection Hl as <-. constructor; [exact Hx|now apply IH].
Qed.

Lemma coercePrimitive_elem_typed elemType raw v :
  elemType = DataTypeString \/ elemType = DataTypeInteger ->
  coercePrimitive_elem elemType raw = Ok v -> has_element_type elemType v = true.
Proof.
  intros Helem. unfold coercePrimitive_elem, coercePrimitive_body, has_element_type.
  destruct (is_nil raw); [now intros [= <-]|].
  destruct Helem as [-> | ->]; simpl.
  - now intros [= <-].
  - intros Hv. apply fmap_Ok in Hv as (n & _ & ->). reflexivity.
Qed.

Lemma coerceList_typed elemType values l :
  elemType = DataTypeString \/ elemType = DataTypeInteger ->
  mapM_result (coercePrimitive_elem elemType) values = Ok l ->
  forallb (has_element_type elemType) l = true.
Proof.
  intros Helem Hl. apply mapM_result_Forall2 in Hl.
  induction Hl as [|x y values l Hxy _ IH]; [reflexivity|].
  simpl. now rewrite (coercePrimitive_elem_typed _ _ _ Helem Hxy).
Qed.

Lemma coercePrimitive_has_type (dt : DataType) (raw v : any) :
  coercePrimitive dt raw = Ok v ->
  (raw = VNil /\ v = VNil) \/ (raw <> VNil /\ has_type dt v = true).
Proof.
  unfold coercePrimitive, coercePrimitive_body.
  destruct (is_nil raw) eqn:Hnil.
  { destruct raw; try discriminate. intros [= <-]. now left. }
  assert (Hraw : raw <> VNil) by (intros ->; discriminate).
  intros Hv. right. split; [exact Hraw|]. revert Hv.
  destruct (String.eqb_spec dt DataTypeString) as [->|_]; [now intros [= <-]|].
  destruct (String.eqb_spec dt DataTypeInteger) as [->|_].
  { intros Hv. now apply fmap_Ok in Hv as (n & _ & ->). }
  destruct (String.eqb_spec dt DataTypeDecimal) as [->|_].
  { intros Hv. now apply fmap_Ok in Hv as (n & _ & ->). }
  destruct (String.eqb_spec dt DataTypeBoolean) as [->|_].
  { intros Hv. now apply fmap_Ok in Hv as (n & _ & ->). }
  destruct (String.eqb_spec dt DataTypeDate) as [->|_].
  { intros Hv. now apply fmap_Ok in Hv as (n & _ & ->). }
  destruct (String.eqb_spec dt DataTypeDateTime) as [->|_].
  { intros Hv. now apply fmap_Ok in Hv as (n & _ & ->). }
  destruct (String.eqb_spec dt DataTypeListString) as [->|_].
  { intros Hv. apply fmap_Ok in Hv as (l & Hl & ->).
    destruct (toInterfaceSlice raw) as [values| |]; try discriminate.
    simpl in Hl |- *. apply coerceList_typed in Hl; auto. }
  destruct (String.eqb_spec dt DataTypeListInteger) as [->|_].
  { intros Hv. apply fmap_Ok in Hv as (l & Hl & ->).
    destruct (toInterfaceSlice raw) as [values| |]; try discriminate.
    simpl in Hl |- *. apply coerceList_typed in Hl; auto. }
  discriminate.
Qed.

(** X7. What [coercePrimitive] returns has the dynamic type of the
    DataType: nil for nil and only for nil; otherwise a [string] for STRING,
    an [int64] for INTEGER, a [*big.Float] for DECIMAL, a [bool] for
    BOOLEAN, a [time.Time] for DATE and DATETIME, and for the list types a
    [[]any] whose elements are nil or of the element type. *)
Theorem coercePrimitive_typed (dt : DataType) (raw v : any) :
  coercePrimitive dt raw = Ok v ->
  (raw = VNil /\ v = VNil) \/ (raw <> VNil /\ has_type dt v = true).
Proof. exact (coercePrimitive_has_type dt raw v). Qed.

(** *** Comparing sanitized values *)

Lemma equals_elem_typed elemType a b :
  elemType = DataTypeString \/ elemType = DataTypeInteger ->
  has_element_type elemType a = true -> has_element_type elemType b = true ->
  exists r, equals_elem elemType a b = Ok r.
Proof.
  unfold has_element_type, equals_elem, equals_body.
  intros Helem Ha Hb.
  destruct (is_nil a || is_nil b) eqn:Hnil; [now eexists|].
  apply orb_false_elim in Hnil as [Hna Hnb]. rewrite Hna in Ha. rewrite Hnb in Hb.
  simpl in Ha, Hb.
  destruct Helem as [-> | ->];
    destruct a as [| | []| | | | | | | | | | | | | |]; try discriminate;
    destruct b as [| | []| | | | | | | | | | | | | |]; try discriminate;
    now eexists.
Qed.

Lemma equalsList_loop_typed elemType la lb :
  elemType = DataTypeString \/ elemType = DataTypeInteger ->
  forallb (has_element_type elemType) la = true ->
  forallb (has_element_type elemType) lb = true ->
  exists r, equalsList_loop (equals_elem elemType) la lb = Ok r.
Proof.
  intros Helem. revert lb. induction la as [|a la IH]; intros lb Hla Hlb; [now eexists|].
  destruct lb as [|b lb]; [now eexists|]. simpl in Hla, Hlb |- *.
  apply andb_prop in Hla as [Ha Hla]. apply andb_prop in Hlb as [Hb Hlb].
  destruct (equals_elem_typed elemType a b Helem Ha Hb) as [[|] ->]; [|now eexists].
  now apply IH.
Qed.

Lemma has_type_cases dt v :
  has_type dt v = true ->
  (dt = DataTypeString /\ exists s, v = VString s) \/
  (dt = DataTypeInteger /\ exists n, v = VInt KInt64 n) \/
  (dt = DataTypeDecimal /\ exists d, v = VBigFloatPtr d) \/
  (dt = DataTypeBoolean /\ exists b, v = VBool b) \/
  ((dt = DataTypeDate \/ dt = DataTypeDateTime) /\ exists t, v = VTime t) \/
  (dt = DataTypeListString /\
   exists l, v = VSlice l /\ forallb (has_element_type DataTypeString) l = true) \/
  (dt = DataTypeListInteger /\
   exists l, v = VSlice l /\ forallb (has_element_type DataTypeInteger) l = true).
Proof.
  destruct v as [| | []| | | | | | | | | | | | | |]; simpl; try discriminate.
  - intros Hdt%String.eqb_eq. left. eauto.
  - intros Hdt%String.eqb_eq. right. left. eauto.
  - intros Hdt%String.eqb_eq. do 3 right. left. eauto.
  - intros Hdt%String.eqb_eq. do 2 right. left. eauto.
  - unfold one_of. simpl.
    destruct (String.eqb_spec dt DataTypeDate) as [->|_]; [do 4 right; left; eauto|].
    destruct (String.eqb_spec dt DataTypeDateTime) as [->|_]; [do 4 right; left; eauto|].
    discriminate.
  - destruct (String.eqb_spec dt DataTypeListString) as [->|_]; [do 5 right; left; eauto|].
    destruct (String.eqb_spec dt DataTypeListInteger) as [->|_]; [do 6 right; eauto|].
    discriminate.
Qed.

Lemma equals_typed dt a b :
  has_type dt a = true -> has_type dt b = true -> is_Err (equals dt a b) = false.
Proof.
  intros Ha Hb.
  apply has_type_cases in Ha as
    [[-> [x ->]]|[[-> [x ->]]|[[-> [x ->]]|[[-> [x ->]]|[[Hdt [x ->]]|
     [[-> (x & -> & Hx)]|[-> (x & -> & Hx)]]]]]]];
    apply has_type_cases in Hb as
    [[Hdt' [y ->]]|[[Hdt' [y ->]]|[[Hdt' [y ->]]|[[Hdt' [y ->]]|[[Hdt' [y ->]]|
     [[Hdt' (y & -> & Hy)]|[Hdt' (y & -> & Hy)]]]]]]];
    try discriminate; try (destruct Hdt' as [Hdt'|Hdt']; discriminate);
    try (destruct Hdt as [->| ->]; try discriminate;
         try (destruct Hdt' as [Hdt'|Hdt']; discriminate)).
  all: try reflexivity.
  - now destruct x, y.
  - unfold equals, equals_body. simpl. destruct (negb _); [reflexivity|].
    destruct (equalsList_loop_typed DataTypeString x y) as [r ->]; auto.
  - unfold equals, equals_body. simpl. destruct (negb _); [reflexivity|].
    destruct (equalsList_loop_typed DataTypeInteger x y) as [r ->]; auto.
Qed.

Lemma equals_sanitized dt a b :
  sanitized dt a = true -> sanitized dt b = true -> is_Err (equals dt a b) = false.
Proof.
  unfold sanitized. intros Ha Hb.
  destruct (is_nil a || is_nil b) eqn:Hnil.
  - unfold equals, equals_body. now rewrite Hnil.
  - apply orb_false_elim in Hnil as [Hna Hnb]. rewrite Hna in Ha. rewrite Hnb in Hb.
    now apply equals_typed.
Qed.

Lemma sanitized_element dt v :
  sanitized (elementDataType dt) v = true ->
  forall w, sanitized (elementDataType dt) w = true ->
  is_Err (equals (elementDataType dt) v w) = false.
Proof. intros Hv w Hw. now apply equals_sanitized. Qed.

Lemma containsValue_sanitized dt haystack needle :
  forallb (sanitized (elementDataType dt)) haystack = true ->
  sanitized (elementDataType dt) needle = true ->
  is_Err (containsValue dt haystack needle) = false.
Proof.
  unfold containsValue. intros Hhay Hneedle.
  induction haystack as [|candidate rest IH]; [reflexivity|].
  simpl in Hhay |- *. apply andb_prop in Hhay as [Hc Hrest].
  pose proof (equals_sanitized _ _ _ Hc Hneedle) as Heq.
  destruct (equals _ candidate needle) as [[|]| |]; try reflexivity; try discriminate.
  now apply IH.
Qed.

Lemma anyContained_loop_sanitized dt expectedSlice actual :
  forallb (sanitized (elementDataType dt)) expectedSlice = true ->
  forallb (sanitized (elementDataType dt)) actual = true ->
  is_Err (anyContained_loop dt expectedSlice actual) = false.
Proof.
  intros Hexp Hact. induction actual as [|v rest IH]; [reflexivity|].
  simpl in Hact |- *. apply andb_prop in Hact as [Hv Hrest].
  pose proof (containsValue_sanitized dt expectedSlice v Hexp Hv) as Hc.
  destruct (containsValue dt expectedSlice v) as [[|]| |]; try reflexivity; try discriminate.
  now apply IH.
Qed.

Lemma allContained_loop_sanitized dt haystack needles :
  forallb (sanitized (elementDataType dt)) haystack = true ->
  forallb (sanitized (elementDataType dt)) needles = true ->
  is_Err (allContained_loop dt haystack needles) = false.
Proof.
  intros Hhay Hneedles. induction needles as [|v rest IH]; [reflexivity|].
  simpl in Hneedles |- *. apply andb_prop in Hneedles as [Hv Hrest].
  pose proof (containsValue_sanitized dt haystack v Hhay Hv) as Hc.
  destruct (containsValue dt haystack v) as [[|]| |]; try reflexivity; try discriminate.
  now apply IH.
Qed.

Lemma allEqual_loop_sanitized dt expected actual :
  sanitized dt expected = true ->
  forallb (sanitized dt) actual = true ->
  is_Err (allEqual_loop dt expected actual) = false.
Proof.
  intros Hexp Hact. induction actual as [|v rest IH]; [reflexivity|].
  simpl in Hact |- *. apply andb_prop in Hact as [Hv Hrest].
  pose proof (equals_sanitized dt v expected Hv Hexp) as Hc.
  destruct (equals dt v expected) as [[|]| |]; try reflexivity; try discriminate.
  now apply IH.
Qed.

Lemma coercePrimitive_sanitized dt raw v :
  coercePrimitive dt raw = Ok v -> sanitized dt v = true.
Proof.
  intros Hv. unfold sanitized.
  apply coercePrimitive_has_type in Hv as [[_ ->]|[_ ->]]; [reflexivity|apply orb_true_r].
Qed.

Lemma sanitizeCollection_sanitized dt raw l :
  sanitizeCollection dt raw = Ok l -> forallb (sanitized (elementDataType dt)) l = true.
Proof.
  unfold sanitizeCollection. destruct (is_nil raw); [now intros [= <-]|].
  destruct (toInterfaceSlice raw) as [values| |]; try discriminate. simpl.
  intros Hl. apply mapM_result_Forall2 in Hl.
  induction Hl as [|x y values l Hxy _ IH]; [reflexivity|].
  simpl. now rewrite (coercePrimitive_sanitized _ _ _ Hxy).
Qed.


Lemma one_of_In s cases : one_of s cases = true -> In s cases.
Proof.
  unfold one_of. intros Hs. apply existsb_exists in Hs as (c & Hc & Heq).
  apply String.eqb_eq in Heq. now subst.
Qed.

Lemma compare_sanitized dt op a b :
  one_of op [OperatorGreater; OperatorGreaterOrEqual; OperatorLess; OperatorLessOrEqual] = true ->
  one_of dt [DataTypeInteger; DataTypeDecimal; DataTypeDate; DataTypeDateTime] = true ->
  sanitized dt a = true -> sanitized dt b = true ->
  is_Err (compare dt op a b) = false.
Proof.
  intros Hop Hdt Ha Hb. unfold compare.
  destruct (is_nil a || is_nil b) eqn:Hnil; [reflexivity|].
  apply orb_false_elim in Hnil as [Hna Hnb].
  unfold sanitized in Ha, Hb. rewrite Hna in Ha. rewrite Hnb in Hb. simpl in Ha, Hb.
  apply one_of_In in Hop. simpl in Hop.
  apply has_type_cases in Ha as
    [[-> [x ->]]|[[-> [x ->]]|[[-> [x ->]]|[[-> [x ->]]|[[Hd [x ->]]|
     [[-> (x & -> & Hx)]|[-> (x & -> & Hx)]]]]]]]; try discriminate;
    apply has_type_cases in Hb as
    [[Hdt' [y ->]]|[[Hdt' [y ->]]|[[Hdt' [y ->]]|[[Hdt' [y ->]]|[[Hdt' [y ->]]|
     [[Hdt' (y & -> & Hy)]|[Hdt' (y & -> & Hy)]]]]]]];
    try discriminate; try (destruct Hdt' as [Hdt'|Hdt']; discriminate);
    try (destruct Hd as [->| ->]; try discriminate;
         try (destruct Hdt' as [Hdt'|Hdt']; discriminate)).
  all: destruct Hop as [<- | [<- | [<- | [<- | []]]]]; try reflexivity.
  all: now destruct x, y.
Qed.

Lemma scalar_cell dt op actual expected e :
  expectsActualCollection op = false ->
  (forall a, sanitized dt a = true ->
             is_Err (evaluateScalarOperator dt op a expected) = false) ->
  evaluateCell dt op actual expected = Err e ->
  sanitizeActualValue dt actual = Err e.
Proof.
  intros Hop Hsafe. unfold evaluateCell. rewrite Hop.
  destruct (sanitizeActualValue dt actual) as [a| |] eqn:Ha; simpl; try congruence.
  intros Heval. apply coercePrimitive_sanitized, Hsafe in Ha.
  rewrite Heval in Ha. discriminate.
Qed.

Lemma collection_cell dt op actual expected e :
  expectsActualCollection op = true ->
  (forall l, forallb (sanitized (elementDataType dt)) l = true ->
             is_Err (evaluateCollectionOperator dt op l expected) = false) ->
  evaluateCell dt op actual expected = Err e ->
  sanitizeActualCollection dt actual = Err e.
Proof.
  intros Hop Hsafe. unfold evaluateCell. rewrite Hop.
  destruct (sanitizeActualCollection dt actual) as [l| |] eqn:Hl; simpl; try congruence.
  intros Heval. apply sanitizeCollection_sanitized, Hsafe in Hl.
  rewrite Heval in Hl. discriminate.
Qed.

Lemma is_Err_negated (r : result bool) : is_Err (negated r) = is_Err r.
Proof. now destruct r. Qed.

Lemma scalar_elementDataType dt :
  one_of dt [DataTypeString; DataTypeInteger; DataTypeDecimal; DataTypeBoolean;
             DataTypeDate; DataTypeDateTime] = true ->
  elementDataType dt = dt.
Proof.
  intros Hdt. apply one_of_In in Hdt. simpl in Hdt.
  destruct Hdt as [<-|[<-|[<-|[<-|[<-|[<-|[]]]]]]]; reflexivity.
Qed.

(** With an expected value that [sanitizeExpectedValue] returned for an
    operator that applies to the DataType, [evaluateCell] fails only with
    the error of coercing the actual value. *)
Lemma suited_cell_error (dt : DataType) (op : OperatorType)
    (raw expected actual : any) (e : error) :
  operator_suits dt op = true ->
  sanitizeExpectedValue dt op raw = Ok expected ->
  (op = OperatorAllEqual -> expected <> VNil) ->
  evaluateCell dt op actual expected = Err e ->
  if expectsActualCollection op
  then sanitizeActualCollection dt actual = Err e
  else sanitizeActualValue dt actual = Err e.
Proof.
  unfold operator_suits. intros Hsuits Hexp Hscalar. revert Hscalar.
  destruct (one_of op _) eqn:Hop1 in Hsuits.
  { apply one_of_In in Hop1. simpl in Hop1.
    destruct Hop1 as [<-|[<-|[<-|[<-|[<-|[<-|[<-|[<-|[<-|[<-|[]]]]]]]]]]].
    all: intros _.
    - (* EQ *)
      apply scalar_cell; [reflexivity|]. intros a Ha.
      apply (coercePrimitive_sanitized dt raw) in Hexp.
      now apply equals_sanitized.
    - apply scalar_cell; [reflexivity|]. intros a Ha.
      apply (coercePrimitive_sanitized dt raw) in Hexp.
      change (evaluateScalarOperator dt OperatorNotEqual a expected)
        with (negated (equals dt a expected)).
      rewrite is_Err_negated. now apply equals_sanitized.
    - apply scalar_cell; reflexivity.
    - apply scalar_cell; reflexivity.
    - change (sanitizeExpectedValue dt OperatorAnyContained raw)
        with (VSlice <$> sanitizeCollection dt raw) in Hexp.
      apply fmap_Ok in Hexp as (l & Hl%sanitizeCollection_sanitized & ->).
      apply collection_cell; [reflexivity|]. intros a Ha.
      now apply anyContained_loop_sanitized.
    - change (sanitizeExpectedValue dt OperatorNotAnyContained raw)
        with (VSlice <$> sanitizeCollection dt raw) in Hexp.
      apply fmap_Ok in Hexp as (l & Hl%sanitizeCollection_sanitized & ->).
      apply collection_cell; [reflexivity|]. intros a Ha.
      change (evaluateCollectionOperator dt OperatorNotAnyContained a (VSlice l))
        with (negated (anyContained_loop dt l a)).
      rewrite is_Err_negated. now apply anyContained_loop_sanitized.
    - change (sanitizeExpectedValue dt OperatorAllContained raw)
        with (VSlice <$> sanitizeCollection dt raw) in Hexp.
      apply fmap_Ok in Hexp as (l & Hl%sanitizeCollection_sanitized & ->).
      apply collection_cell; [reflexivity|]. intros a Ha.
      now apply allContained_loop_sanitized.
    - change (sanitizeExpectedValue dt OperatorNotAllContained raw)
        with (VSlice <$> sanitizeCollection dt raw) in Hexp.
      apply fmap_Ok in Hexp as (l & Hl%sanitizeCollection_sanitized & ->).
      apply collection_cell; [reflexivity|]. intros a Ha.
      change (evaluateCollectionOperator dt OperatorNotAllContained a (VSlice l))
        with (negated (allContained_loop dt l a)).
      rewrite is_Err_negated. now apply allContained_loop_sanitized.
    - change (sanitizeExpectedValue dt OperatorContainsAll raw)
        with (VSlice <$> sanitizeCollection dt raw) in Hexp.
      apply fmap_Ok in Hexp as (l & Hl%sanitizeCollection_sanitized & ->).
      apply collection_cell; [reflexivity|]. intros a Ha.
      now apply allContained_loop_sanitized.
    - change (sanitizeExpectedValue dt OperatorNotContainsAll raw)
        with (VSlice <$> sanitizeCollection dt raw) in Hexp.
      apply fmap_Ok in Hexp as (l & Hl%sanitizeCollection_sanitized & ->).
      apply collection_cell; [reflexivity|]. intros a Ha.
      change (evaluateCollectionOperator dt OperatorNotContainsAll a (VSlice l))
        with (negated (allContained_loop dt a l)).
      rewrite is_Err_negated. now apply allContained_loop_sanitized. }
  destruct (one_of op _) eqn:Hop2 in Hsuits.
  { assert (Hcmp : forall a, evaluateScalarOperator dt op a expected = compare dt op a expected).
    { intros a. apply one_of_In in Hop2. simpl in Hop2.
      destruct Hop2 as [<-|[<-|[<-|[<-|[]]]]]; reflexivity. }
    assert (Hraw : sanitizeExpectedValue dt op raw = coercePrimitive dt raw).
    { apply one_of_In in Hop2. simpl in Hop2.
      destruct Hop2 as [<-|[<-|[<-|[<-|[]]]]]; reflexivity. }
    assert (Hcoll : expectsActualCollection op = false).
    { apply one_of_In in Hop2. simpl in Hop2.
      destruct Hop2 as [<-|[<-|[<-|[<-|[]]]]]; reflexivity. }
    rewrite Hraw in Hexp. apply coercePrimitive_sanitized in Hexp.
    intros _. rewrite Hcoll. apply scalar_cell; [exact Hcoll|].
    intros a Ha. rewrite Hcmp. now apply compare_sanitized. }
  destruct (one_of op _) eqn:Hop3 in Hsuits.
  { pose proof (scalar_elementDataType dt Hsuits) as Helem.
    apply one_of_In in Hop3. simpl in Hop3.
    destruct Hop3 as [<-|[<-|[<-|[]]]]; intros Hscalar.
    - change (sanitizeExpectedValue dt OperatorIn raw)
        with (VSlice <$> sanitizeCollection dt raw) in Hexp.
      apply fmap_Ok in Hexp as (l & Hl%sanitizeCollection_sanitized & ->).
      apply scalar_cell; [reflexivity|]. intros a Ha.
      apply containsValue_sanitized; [exact Hl|now rewrite Helem].
    - change (sanitizeExpectedValue dt OperatorNotIn raw)
        with (VSlice <$> sanitizeCollection dt raw) in Hexp.
      apply fmap_Ok in Hexp as (l & Hl%sanitizeCollection_sanitized & ->).
      apply scalar_cell; [reflexivity|]. intros a Ha.
      change (evaluateScalarOperator dt OperatorNotIn a (VSlice l))
        with (negated (containsValue dt l a)).
      rewrite is_Err_negated.
      apply containsValue_sanitized; [exact Hl|now rewrite Helem].
    - apply (coercePrimitive_sanitized dt raw) in Hexp.
      apply collection_cell; [reflexivity|]. intros l Hl. rewrite Helem in Hl.
      rewrite evaluateCollectionOperator_AllEqual.
      destruct (is_nil expected) eqn:Hnil.
      + destruct expected; try discriminate. now destruct (Hscalar eq_refl).
      + pose proof (allEqual_loop_sanitized dt expected l Hexp Hl) as Hloop.
        now destruct (allEqual_loop dt expected l) as [[|]| |]. }
  destruct (String.eqb_spec op OperatorMatchesRegex) as [->|_]; [|discriminate].
  apply String.eqb_eq in Hsuits. subst dt. intros _.
  apply scalar_cell; [reflexivity|]. intros a Ha.
  assert (Hre : exists pattern, expected = VRegexp pattern).
  { unfold sanitizeExpectedValue in Hexp. simpl in Hexp.
    destruct (is_nil raw); [discriminate|].
    destruct (coercePrimitive DataTypeString raw) as [[]| |]; try discriminate.
    simpl in Hexp. destruct (regexp_Compile_ok s); [|discriminate].
    injection Hexp as <-. now eexists. }
  destruct Hre as [pattern ->].
  unfold sanitized in Ha.
  destruct a as [| | []| | | | | | | | | | | | | |]; try reflexivity;
    simpl in Ha; discriminate.
Qed.

(** X11. A condition whose operator applies to the DataType of its column
    fails at evaluation only because of the input: with an expected value
    that [sanitizeExpectedValue] returned (not nil for ALL_EQUAL), an error
    of [evaluateCell] is the error of coercing the actual value, to a list
    for the operators on list inputs and to a scalar otherwise. *)
Theorem suited_cell_fails_only_on_input (dt : DataType) (op : OperatorType)
    (raw expected actual : any) (e : error) :
  operator_suits dt op = true ->
  sanitizeExpectedValue dt op raw = Ok expected ->
  (op = OperatorAllEqual -> expected <> VNil) ->
  evaluateCell dt op actual expected = Err e ->
  if expectsActualCollection op
  then sanitizeActualCollection dt actual = Err e
  else sanitizeActualValue dt actual = Err e.
Proof. exact (suited_cell_error dt op raw expected actual e). Qed.


(** *** Equality is symmetric, the orderings are consistent *)

Lemma BigFloat_Cmp_antisym x y : BigFloat_Cmp y x = CompOpp (BigFloat_Cmp x y).
Proof.
  destruct x as [m1 e1|[]], y as [m2 e2|[]]; simpl; try reflexivity.
  rewrite (Z.min_comm e2 e1). apply Z.compare_antisym.
Qed.

Lemma equalsList_loop_sym (eq : any -> any -> result bool) lhs rhs b :
  (forall l r c, eq l r = Ok c -> eq r l = Ok c) ->
  length lhs = length rhs ->
  equalsList_loop eq lhs rhs = Ok b -> equalsList_loop eq rhs lhs = Ok b.
Proof.
  intros Hsym. revert rhs. induction lhs as [|l lhs IH]; intros [|r rhs] Hlen; simpl;
    try discriminate; [auto|].
  destruct (eq l r) as [[|]| |] eqn:Hlr; try discriminate.
  - rewrite (Hsym _ _ _ Hlr). apply IH. now injection Hlen.
  - now rewrite (Hsym _ _ _ Hlr).
Qed.

Lemma equals_body_sym (self : DataType -> any -> any -> result bool) dt left right b :
  (forall elemType l r c, self elemType l r = Ok c -> self elemType r l = Ok c) ->
  equals_body self dt left right = Ok b -> equals_body self dt right left = Ok b.
Proof.
  intros Hself. unfold equals_body.
  rewrite (orb_comm (is_nil right)), (andb_comm (is_nil right)).
  destruct (is_nil left || is_nil right); [auto|].
  assert (Hlist : forall elemType,
    match left with
    | VSlice lhs =>
        match right with
        | VSlice rhs =>
            if negb (length lhs =? length rhs)%nat then Ok false
            else equalsList_loop (self elemType) lhs rhs
        | _ => Err (ErrValuesNot "list")
        end
    | _ => Err (ErrValuesNot "list")
    end = Ok b ->
    match right with
    | VSlice lhs =>
        match left with
        | VSlice rhs =>
            if negb (length lhs =? length rhs)%nat then Ok false
            else equalsList_loop (self elemType) lhs rhs
        | _ => Err (ErrValuesNot "list")
        end
    | _ => Err (ErrValuesNot "list")
    end = Ok b).
  { intros elemType. destruct left; try discriminate. destruct right; try discriminate.
    rewrite (Nat.eqb_sym (length l0)).
    destruct (Nat.eqb_spec (length l) (length l0)) as [Hlen|_]; [|auto]. simpl.
    apply equalsList_loop_sym; [apply Hself|exact Hlen]. }
  destruct (dt =s DataTypeString).
  { destruct left; try discriminate; destruct right; try discriminate.
    now rewrite String.eqb_sym. }
  destruct (dt =s DataTypeInteger).
  { destruct left as [| |[]| | | | | | | | | | | | | |]; try discriminate;
      destruct right as [| |[]| | | | | | | | | | | | | |]; try discriminate.
    now rewrite Z.eqb_sym. }
  destruct (dt =s DataTypeDecimal).
  { destruct left as [| | | | | |[]| | | | | | | | | |]; try discriminate;
      destruct right as [| | | | | |[]| | | | | | | | | |]; try discriminate.
    rewrite (BigFloat_Cmp_antisym b0 b1). now destruct (BigFloat_Cmp b0 b1). }
  destruct (dt =s DataTypeBoolean).
  { destruct left as [| | | |[]| | | | | | | | | | | |]; try discriminate;
      destruct right as [| | | |[]| | | | | | | | | | | |]; try discriminate; auto. }
  destruct (one_of dt _).
  { destruct left; try discriminate; destruct right; try discriminate.
    unfold Time_Equal. now rewrite Z.eqb_sym. }
  destruct (dt =s DataTypeListString); [apply Hlist|].
  destruct (dt =s DataTypeListInteger); [apply Hlist|].
  auto.
Qed.

Lemma equals_sym dt left right b :
  equals dt left right = Ok b -> equals dt right left = Ok b.
Proof.
  apply equals_body_sym. intros elemType l r c. apply equals_body_sym. discriminate.
Qed.

(** X9. [equals] is symmetric: for every DataType and every two values,
    whenever it returns a boolean for the operands in one order it returns
    the same boolean for them in the other order. *)
Theorem equals_is_symmetric (dt : DataType) (left right : any) (b : bool) :
  equals dt left right = Ok b <-> equals dt right left = Ok b.
Proof. split; apply equals_sym. Qed.


Lemma iter_pos_invariant {A : Type} (f : A -> A) (P : A -> Prop) :
  (forall x, P x -> P (f x)) -> forall n x, P x -> P (SpecFloat.iter_pos f n x).
Proof.
  intros Hf. induction n as [n IH|n IH|]; intros x Hx; simpl; auto.
Qed.

Lemma shr_1_nonneg mrs : 0 <= shr_m mrs -> 0 <= shr_m (shr_1 mrs).
Proof. destruct mrs as [[|[p|p|]|[p|p|]] r s]; simpl; lia. Qed.

Lemma shr_fexp_nonneg prec emax m e l :
  0 <= m -> 0 <= shr_m (fst (shr_fexp prec emax m e l)).
Proof.
  intros Hm. unfold shr_fexp, shr.
  assert (Hrec : 0 <= shr_m (shr_record_of_loc m l)) by (now destruct l as [|[]]).
  destruct (fexp prec emax (Zdigits2 m + e) - e); simpl; try exact Hrec.
  now apply iter_pos_invariant; [apply shr_1_nonneg|].
Qed.

Lemma round_nearest_even_nonneg m l : 0 <= m -> 0 <= round_nearest_even m l.
Proof.
  intros Hm. destruct l as [|[]]; simpl; try lia. destruct (Z.even m); lia.
Qed.

Lemma binary_round_aux_not_nan prec emax s m e l :
  0 <= m -> binary_round_aux prec emax s m e l <> S754_nan.
Proof.
  intros Hm. unfold binary_round_aux.
  pose proof (shr_fexp_nonneg prec emax m e l Hm) as H1.
  destruct (shr_fexp prec emax m e l) as [mrs' e']. simpl in H1.
  pose proof (shr_fexp_nonneg prec emax
                (round_nearest_even (shr_m mrs') (loc_of_shr_record mrs')) e' loc_Exact
                (round_nearest_even_nonneg _ _ H1)) as H2.
  destruct (shr_fexp prec emax _ e' loc_Exact) as [mrs'' e'']. simpl in H2.
  destruct (shr_m mrs''); try lia; try discriminate.
  destruct (e'' <=? emax - prec); discriminate.
Qed.

(** The float64 of an integer is a number. *)
Lemma float64_of_int_not_nan v : float64_of_int v <> S754_nan.
Proof.
  unfold float64_of_int, binary_normalize, binary_round.
  destruct v as [|p|p]; [discriminate| |];
    destruct (shl_align _ _ _) as [mz ez]; now apply binary_round_aux_not_nan.
Qed.

Lemma compare_cont_Eq_antisym p q :
  Pos.compare_cont Eq q p = CompOpp (Pos.compare_cont Eq p q).
Proof. now rewrite (Pos.compare_cont_antisym p q Eq). Qed.

Lemma SFcompare_antisym x y :
  SFcompare y x = option_map CompOpp (SFcompare x y).
Proof.
  destruct x as [[]|[]| |[] m1 e1], y as [[]|[]| |[] m2 e2]; simpl; try reflexivity.
  - rewrite (Z.compare_antisym e1 e2), (compare_cont_Eq_antisym m1 m2).
    destruct (e1 ?= e2); simpl; try reflexivity.
  - rewrite (Z.compare_antisym e1 e2), (compare_cont_Eq_antisym m1 m2).
    destruct (e1 ?= e2); simpl; try reflexivity.
Qed.

Lemma SFcompare_numbers x y :
  x <> S754_nan -> y <> S754_nan -> exists c, SFcompare x y = Some c.
Proof.
  intros Hx Hy.
  destruct x as [[]|[]| |[] m1 e1], y as [[]|[]| |[] m2 e2]; try congruence;
    simpl; now eexists.
Qed.

Lemma float64_le_gt l r :
  l <> S754_nan -> r <> S754_nan -> float64_le l r = negb (float64_gt l r).
Proof.
  intros Hl Hr. unfold float64_le, float64_gt, SFleb, SFltb.
  rewrite (SFcompare_antisym l r).
  destruct (SFcompare_numbers l r Hl Hr) as [[] ->]; reflexivity.
Qed.

(** X10. The four orderings agree with one another: whenever GREATER
    returns a boolean for two operands, LESS returns the same boolean for
    the operands swapped, and, when neither operand is nil,
    LESS_OR_EQUAL returns its negation and GREATER_OR_EQUAL its negation for
    the operands swapped. *)
Theorem orderings_are_consistent (dt : DataType) (left right : any) (b : bool) :
  compare dt OperatorGreater left right = Ok b ->
  compare dt OperatorLess right left = Ok b /\
  (left <> VNil -> right <> VNil ->
   compare dt OperatorLessOrEqual left right = Ok (negb b) /\
   compare dt OperatorGreaterOrEqual right left = Ok (negb b)).
Proof.
  unfold compare. rewrite (orb_comm (is_nil right)).
  destruct (is_nil left || is_nil right) eqn:Hnil.
  { intros Hb. split; [exact Hb|]. intros Hl Hr.
    destruct left; try (now destruct right); congruence. }
  destruct (dt =s DataTypeInteger).
  { destruct left as [| |[]| | | | | | | | | | | | | |]; try discriminate;
      destruct right as [| |[]| | | | | | | | | | | | | |]; try discriminate.
    cbn -[float64_of_int]. intros [= <-]. split; [reflexivity|]. intros _ _.
    unfold float64_ge.
    now rewrite <- float64_le_gt by apply float64_of_int_not_nan. }
  destruct (dt =s DataTypeDecimal).
  { destruct left as [| | | | | |[x|]| | | | | | | | | |]; try discriminate;
      destruct right as [| | | | | |[y|]| | | | | | | | | |]; try discriminate.
    simpl. rewrite (BigFloat_Cmp_antisym x y). intros [= <-].
    now destruct (BigFloat_Cmp x y). }
  destruct (one_of dt _).
  { destruct left; try discriminate; destruct right; try discriminate.
    simpl. intros [= <-]. unfold Time_After, Time_Before. repeat split. }
  discriminate.
Qed.


(** *** Sanitizing twice *)

Lemma wrap_int64_range n : int64_range n = true -> wrap_int64 n = n.
Proof.
  unfold int64_range, wrap_int64, MinInt64, MaxInt64.
  intros [Hlo Hhi]%andb_prop. apply Z.leb_le in Hlo, Hhi.
  rewrite Z.mod_small; lia.
Qed.

Lemma coercePrimitive_elem_fixed elemType l :
  elemType = DataTypeString \/ elemType = DataTypeInteger ->
  forallb (has_element_type elemType) l = true ->
  holds_int64 (VSlice l) = true ->
  mapM_result (coercePrimitive_elem elemType) l = Ok l.
Proof.
  intros Helem. induction l as [|x l IH]; [reflexivity|].
  simpl. intros [Hx Hl]%andb_prop [Hrx Hrl]%andb_prop.
  rewrite (IH Hl Hrl).
  unfold has_element_type in Hx.
  destruct x as [| |[]| | | | | | | | | | | | | |];
    destruct Helem as [-> | ->]; try discriminate; try reflexivity.
  unfold coercePrimitive_elem, coercePrimitive_body. simpl.
  now rewrite (wrap_int64_range _ Hrx).
Qed.

Lemma coercePrimitive_fixed dt v :
  has_type dt v = true -> holds_int64 v = true ->
  dt <> DataTypeDate -> dt <> DataTypeDateTime ->
  coercePrimitive dt v = Ok v.
Proof.
  intros Hv Hrange Hdate Htime.
  apply has_type_cases in Hv as
    [[-> [x ->]]|[[-> [x ->]]|[[-> [x ->]]|[[-> [x ->]]|[[Hdt [x ->]]|
     [[-> (x & -> & Hx)]|[-> (x & -> & Hx)]]]]]]]; try reflexivity.
  - unfold coercePrimitive, coercePrimitive_body. simpl.
    simpl in Hrange. now rewrite (wrap_int64_range _ Hrange).
  - destruct Hdt; congruence.
  - unfold coercePrimitive, coercePrimitive_body. simpl.
    rewrite coercePrimitive_elem_fixed; auto.
  - unfold coercePrimitive, coercePrimitive_body. simpl.
    rewrite coercePrimitive_elem_fixed; auto.
Qed.

(** X8. Coercion is idempotent outside the time types: a value that
    [coercePrimitive] returned is returned unchanged when it is coerced
    again to the same DataType. *)
Theorem coercePrimitive_idempotent (dt : DataType) (raw v : any) :
  coercePrimitive dt raw = Ok v ->
  holds_int64 v = true ->
  dt <> DataTypeDate -> dt <> DataTypeDateTime ->
  coercePrimitive dt v = Ok v.
Proof.
  intros Hv Hrange Hdate Htime.
  apply coercePrimitive_has_type in Hv as [[_ ->]|[_ Hv]]; [reflexivity|].
  now apply coercePrimitive_fixed.
Qed.


(** *** The list operators as relations between sets *)

Section Containment.
Context {A : Type} {A_eq : EqDecision A}.
Variable inj : A -> any.
Variable dt : DataType.
Hypothesis equals_inj :
  forall x y, equals (elementDataType dt) (inj x) (inj y) = Ok (bool_decide (x = y)).
Variable valid : A -> Prop.
Variable slice : list A -> any.
Hypothesis sanitize_slice :
  forall l, Forall valid l -> sanitizeCollection dt (slice l) = Ok (inj <$> l).

Lemma containsValue_member (haystack : list A) (needle : A) :
  containsValue dt (inj <$> haystack) (inj needle) = Ok (bool_decide (needle ∈ haystack)).
Proof.
  unfold containsValue. induction haystack as [|c rest IH].
  - now rewrite bool_decide_eq_false_2 by apply not_elem_of_nil.
  - rewrite fmap_cons. cbn [containsValue_loop].
    rewrite equals_inj. destruct (decide (c = needle)) as [->|Hne].
    + rewrite bool_decide_eq_true_2 by reflexivity.
      now rewrite bool_decide_eq_true_2 by apply list_elem_of_here.
    + rewrite bool_decide_eq_false_2 by exact Hne. rewrite IH. f_equal.
      apply bool_decide_ext. rewrite elem_of_cons.
      split; [auto|]. intros [Heq|Hin]; [congruence|exact Hin].
Qed.

Lemma anyContained_loop_meets (expected actual : list A) :
  anyContained_loop dt (inj <$> expected) (inj <$> actual) =
  Ok (bool_decide (Exists (fun x => x ∈ expected) actual)).
Proof.
  induction actual as [|v rest IH].
  - now rewrite bool_decide_eq_false_2 by (now rewrite Exists_nil).
  - rewrite fmap_cons. cbn [anyContained_loop].
    rewrite containsValue_member. destruct (decide (v ∈ expected)) as [Hin|Hout].
    + rewrite bool_decide_eq_true_2 by exact Hin.
      now rewrite bool_decide_eq_true_2 by (now apply Exists_cons_hd).
    + rewrite bool_decide_eq_false_2 by exact Hout. rewrite IH. f_equal.
      apply bool_decide_ext. rewrite Exists_cons.
      split; [auto|]. intros [Hin|Hex]; [contradiction|exact Hex].
Qed.

Lemma allContained_loop_subset (haystack needles : list A) :
  allContained_loop dt (inj <$> haystack) (inj <$> needles) =
  Ok (bool_decide (needles ⊆ haystack)).
Proof.
  induction needles as [|v rest IH].
  - now rewrite bool_decide_eq_true_2 by apply list_subseteq_nil.
  - rewrite fmap_cons. cbn [allContained_loop].
    rewrite containsValue_member. destruct (decide (v ∈ haystack)) as [Hin|Hout].
    + rewrite bool_decide_eq_true_2 by exact Hin. rewrite IH. f_equal.
      apply bool_decide_ext. split.
      * intros Hrest x [->|Hx]%elem_of_cons; auto.
      * intros Hall x Hx. apply Hall. now apply list_elem_of_further.
    + rewrite bool_decide_eq_false_2 by exact Hout.
      rewrite bool_decide_eq_false_2; [reflexivity|].
      intros Hall. apply Hout, Hall, list_elem_of_here.
Qed.

Lemma list_cells (actual expected : list A) :
  Forall valid actual ->
  evaluateCell dt OperatorAnyContained (slice actual) (VSlice (inj <$> expected)) =
    Ok (bool_decide (Exists (fun x => x ∈ expected) actual)) /\
  evaluateCell dt OperatorAllContained (slice actual) (VSlice (inj <$> expected)) =
    Ok (bool_decide (actual ⊆ expected)) /\
  evaluateCell dt OperatorContainsAll (slice actual) (VSlice (inj <$> expected)) =
    Ok (bool_decide (expected ⊆ actual)).
Proof.
  intros Hvalid. unfold evaluateCell.
  change (expectsActualCollection OperatorAnyContained) with true.
  change (expectsActualCollection OperatorAllContained) with true.
  change (expectsActualCollection OperatorContainsAll) with true.
  cbv iota. unfold sanitizeActualCollection. rewrite (sanitize_slice _ Hvalid).
  split; [apply anyContained_loop_meets|].
  split; apply allContained_loop_subset.
Qed.

Lemma expected_slice (op : OperatorType) (expected : list A) :
  requiresCollectionValue op = true -> Forall valid expected ->
  sanitizeExpectedValue dt op (slice expected) = Ok (VSlice (inj <$> expected)).
Proof.
  intros Hop Hvalid. unfold sanitizeExpectedValue.
  apply one_of_In in Hop. simpl in Hop.
  destruct Hop as [<-|[<-|[<-|[<-|[<-|[<-|[<-|[<-|[]]]]]]]]];
    cbn -[sanitizeCollection]; now rewrite (sanitize_slice _ Hvalid).
Qed.

End Containment.

Lemma mapM_result_fmap {A B C : Type} (g : A -> B) (f : B -> result C) (h : A -> C) l :
  (forall x, In x l -> f (g x) = Ok (h x)) ->
  mapM_result f (g <$> l) = Ok (h <$> l).
Proof.
  induction l as [|x l IH]; intros Hf; [reflexivity|].
  rewrite !fmap_cons. cbn [mapM_result].
  rewrite (Hf x) by now left. rewrite IH; [reflexivity|].
  intros y Hy. apply Hf. now right.
Qed.

Lemma equals_strings dt :
  dt = DataTypeString \/ dt = DataTypeListString ->
  forall x y,
    equals (elementDataType dt) (VString x) (VString y) = Ok (bool_decide (x = y)).
Proof.
  intros [-> | ->] x y; change (Ok (x =s y) = Ok (bool_decide (x = y))); f_equal;
    destruct (String.eqb_spec x y) as [Heq|Hne];
    symmetry; [now apply bool_decide_eq_true|now apply bool_decide_eq_false|
               now apply bool_decide_eq_true|now apply bool_decide_eq_false].
Qed.

Lemma equals_integers dt :
  dt = DataTypeInteger \/ dt = DataTypeListInteger ->
  forall x y,
    equals (elementDataType dt) (VInt KInt64 x) (VInt KInt64 y) = Ok (bool_decide (x = y)).
Proof.
  intros [-> | ->] x y; change (Ok (x =? y) = Ok (bool_decide (x = y))); f_equal;
    destruct (Z.eqb_spec x y) as [Heq|Hne];
    symmetry; [now apply bool_decide_eq_true|now apply bool_decide_eq_false|
               now apply bool_decide_eq_true|now apply bool_decide_eq_false].
Qed.

Lemma sanitizeCollection_strings dt l :
  dt = DataTypeString \/ dt = DataTypeListString ->
  Forall (fun _ => True) l ->
  sanitizeCollection dt (VStrings l) = Ok (VString <$> l).
Proof.
  intros Hdt _. unfold sanitizeCollection. simpl.
  replace (elementDataType dt) with DataTypeString by (now destruct Hdt as [-> | ->]).
  now apply mapM_result_fmap.
Qed.

Lemma sanitizeCollection_integers dt l :
  dt = DataTypeInteger \/ dt = DataTypeListInteger ->
  Forall (fun n => int64_range n = true) l ->
  sanitizeCollection dt (VInt64s l) = Ok (VInt KInt64 <$> l).
Proof.
  intros Hdt Hl. unfold sanitizeCollection. simpl.
  replace (elementDataType dt) with DataTypeInteger by (now destruct Hdt as [-> | ->]).
  apply mapM_result_fmap. intros n Hn.
  rewrite List.Forall_forall in Hl.
  unfold coercePrimitive, coercePrimitive_body. simpl.
  now rewrite (wrap_int64_range _ (Hl n Hn)).
Qed.

(** X13. On lists of strings the list operators are the relations between
    sets: a [[]string] is sanitized to the slice of its elements, and then
    ANY_CONTAINED_IN holds when some actual element is among the expected
    ones, ALL_CONTAINED_IN when the actual elements are a subset of the
    expected ones, CONTAINS_ALL when the expected elements are a subset of
    the actual ones, and IN when the actual string is among the expected
    ones. *)
Theorem list_operators_on_strings (dt : DataType) (actual expected : list string) (x : string) :
  dt = DataTypeString \/ dt = DataTypeListString ->
  (forall op, requiresCollectionValue op = true ->
     sanitizeExpectedValue dt op (VStrings expected) = Ok (VSlice (VString <$> expected))) /\
  evaluateCell dt OperatorAnyContained (VStrings actual) (VSlice (VString <$> expected)) =
    Ok (bool_decide (Exists (fun x => x ∈ expected) actual)) /\
  evaluateCell dt OperatorAllContained (VStrings actual) (VSlice (VString <$> expected)) =
    Ok (bool_decide (actual ⊆ expected)) /\
  evaluateCell dt OperatorContainsAll (VStrings actual) (VSlice (VString <$> expected)) =
    Ok (bool_decide (expected ⊆ actual)) /\
  evaluateCell DataTypeString OperatorIn (VString x) (VSlice (VString <$> expected)) =
    Ok (bool_decide (x ∈ expected)).
Proof.
  intros Hdt.
  assert (Hall : forall l : list string, Forall (fun _ => True) l)
    by (intros l; now apply List.Forall_forall).
  split.
  { intros op Hop.
    apply (expected_slice VString dt (fun _ => True) VStrings
             (fun l => sanitizeCollection_strings dt l Hdt)); auto. }
  pose proof (list_cells VString dt (equals_strings dt Hdt)
                (fun _ => True) VStrings (fun l => sanitizeCollection_strings dt l Hdt)
                actual expected (Hall actual)) as (Hany & Hsub & Hsup).
  repeat split; try assumption.
  apply (containsValue_member VString DataTypeString
           (equals_strings DataTypeString (or_introl eq_refl))).
Qed.

(** X14. On lists of int64 the list operators are the relations between
    sets, as they are on lists of strings. *)
Theorem list_operators_on_integers (dt : DataType) (actual expected : list Z) (x : Z) :
  dt = DataTypeInteger \/ dt = DataTypeListInteger ->
  Forall (fun n => int64_range n = true) actual ->
  Forall (fun n => int64_range n = true) expected ->
  int64_range x = true ->
  (forall op, requiresCollectionValue op = true ->
     sanitizeExpectedValue dt op (VInt64s expected) = Ok (VSlice (VInt KInt64 <$> expected))) /\
  evaluateCell dt OperatorAnyContained (VInt64s actual) (VSlice (VInt KInt64 <$> expected)) =
    Ok (bool_decide (Exists (fun x => x ∈ expected) actual)) /\
  evaluateCell dt OperatorAllContained (VInt64s actual) (VSlice (VInt KInt64 <$> expected)) =
    Ok (bool_decide (actual ⊆ expected)) /\
  evaluateCell dt OperatorContainsAll (VInt64s actual) (VSlice (VInt KInt64 <$> expected)) =
    Ok (bool_decide (expected ⊆ actual)) /\
  evaluateCell DataTypeInteger OperatorIn (VInt KInt64 x) (VSlice (VInt KInt64 <$> expected)) =
    Ok (bool_decide (x ∈ expected)).
Proof.
  intros Hdt Hactual Hexpected Hx.
  split.
  { intros op Hop.
    apply (expected_slice (VInt KInt64) dt (fun n => int64_range n = true) VInt64s
             (fun l => sanitizeCollection_integers dt l Hdt)); auto. }
  pose proof (list_cells (VInt KInt64) dt (equals_integers dt Hdt)
                (fun n => int64_range n = true) VInt64s
                (fun l => sanitizeCollection_integers dt l Hdt)
                actual expected Hactual) as (Hany & Hsub & Hsup).
  repeat split; try assumption.
  unfold evaluateCell.
  change (expectsActualCollection OperatorIn) with false. cbv iota.
  unfold sanitizeActualValue, coercePrimitive, coercePrimitive_body. simpl.
  rewrite (wrap_int64_range _ Hx).
  apply (containsValue_member (VInt KInt64) DataTypeInteger
           (equals_integers DataTypeInteger (or_introl eq_refl))).
Qed.

(** *** The values a matching row returns *)

Lemma cloneValueForType_value v dt : cloneValueForType v dt = v.
Proof.
  destruct v; try reflexivity; simpl.
  - now destruct (dt =s DataTypeDecimal).
  - destruct (_ || _); [|reflexivity]. unfold cloneAnySlice. f_equal.
    induction l as [|x l IH]; [reflexivity|].
    simpl. now rewrite cloneArbitraryValue_value, IH.
Qed.

Lemma find_append {A : Type} (f : A -> bool) (l1 l2 : list A) :
  List.find f (l1 ++ l2) =
  match List.find f l1 with Some x => Some x | None => List.find f l2 end.
Proof.
  induction l1 as [|x l1 IH]; [reflexivity|]. simpl. now destruct (f x).
Qed.

Lemma fold_insert_lookup (cells : list ReturnCell) (values : gmap string any) column :
  fold_left
    (fun values cell =>
       <[rc_Column cell := cloneValueForType (rc_Value cell) (rc_dataType cell)]> values)
    cells values !! column =
  match List.find (fun cell => rc_Column cell =s column) (List.rev cells) with
  | Some cell => Some (rc_Value cell)
  | None => values !! column
  end.
Proof.
  revert values. induction cells as [|cell cells IH]; intros values; [reflexivity|].
  simpl. rewrite IH, find_append.
  destruct (List.find _ (List.rev cells)); [reflexivity|]. simpl.
  destruct (String.eqb_spec (rc_Column cell) column) as [->|Hne].
  - now rewrite lookup_insert_eq, cloneValueForType_value.
  - now rewrite lookup_insert_ne.
Qed.

(** X15. The map that [materializeReturnValues] builds for a row has a
    key exactly for the columns of the row's return cells, and holds for a
    column the value of the last return cell on it. *)
Theorem materializeReturnValues_lookup (r : Row) (column : string) :
  (materializeReturnValues r !! column = None <->
   Forall (fun cell => rc_Column cell <> column) (ReturnCells r)) /\
  (forall pre cell post,
      ReturnCells r = (pre ++ cell :: post)%list ->
      rc_Column cell = column ->
      Forall (fun later => rc_Column later <> column) post ->
      materializeReturnValues r !! column = Some (rc_Value cell)).
Proof.
  unfold materializeReturnValues. rewrite fold_insert_lookup. split.
  - rewrite lookup_empty.
    destruct (List.find _ _) as [cell|] eqn:Hfind.
    + split; [discriminate|]. intros Hall.
      apply find_some in Hfind as [Hin Hcol]. apply in_rev in Hin.
      rewrite List.Forall_forall in Hall. apply String.eqb_eq in Hcol.
      now destruct (Hall cell Hin).
    + split; [|reflexivity]. intros _. apply List.Forall_forall. intros cell Hin Hcol.
      apply in_rev in Hin.
      apply (find_none _ _ Hfind) in Hin. apply String.eqb_neq in Hin. contradiction.
  - intros pre cell post -> Hcol Hpost.
    rewrite rev_app_distr. simpl. rewrite <- app_assoc, find_append.
    assert (Hnone : List.find (fun c => rc_Column c =s column) (List.rev post) = None).
    { destruct (List.find _ (List.rev post)) as [c|] eqn:Hfind; [|reflexivity].
      apply find_some in Hfind as [Hin Hc]. apply in_rev in Hin.
      rewrite List.Forall_forall in Hpost. apply String.eqb_eq in Hc.
      now destruct (Hpost c Hin). }
    rewrite Hnone. simpl. apply String.eqb_eq in Hcol. now rewrite Hcol.
Qed.

(** *** The input columns that matter *)

Lemma matches_cells_agree number cells input1 input2 :
  (forall cell, In cell cells ->
     input_at input1 (ec_Column cell) = input_at input2 (ec_Column cell)) ->
  matches_cells number cells input1 = matches_cells number cells input2.
Proof.
  induction cells as [|cell rest IH]; intros Hagree; [reflexivity|].
  simpl. rewrite (Hagree cell) by now left.
  rewrite IH; [reflexivity|]. intros c Hc. apply Hagree. now right.
Qed.

Lemma Evaluate_scan_agree mp input1 input2 rest found :
  (forall r, In r rest -> matches r input1 = matches r input2) ->
  Evaluate_scan mp input1 rest found = Evaluate_scan mp input2 rest found.
Proof.
  revert found. induction rest as [|row rest IH]; intros found Hagree; [reflexivity|].
  simpl. rewrite (Hagree row) by now left.
  assert (Hrest : forall r, In r rest -> matches r input1 = matches r input2)
    by (intros r Hr; apply Hagree; now right).
  destruct (matches row input2) as [[|]| |]; try reflexivity.
  - destruct (mp =? MatchPolicyFirst); [reflexivity|].
    destruct (_ && _); [reflexivity|]. now apply IH.
  - now apply IH.
Qed.

(** X16. [Evaluate] reads the input only at the columns that the rows
    test, and a key holding nil is a key that is absent: two inputs that
    agree on these columns up to that get the same result. *)
Theorem Evaluate_reads_tested_columns (dt : DecisionTable) (input1 input2 : gmap string any)
    (defaultReturn : option (gmap string any)) :
  (forall column, In column (tested_columns dt) ->
     input_at input1 column = input_at input2 column) ->
  Evaluate dt input1 defaultReturn = Evaluate dt input2 defaultReturn.
Proof.
  intros Hagree. unfold Evaluate.
  rewrite (Evaluate_scan_agree _ input1 input2); [reflexivity|].
  intros r Hr. unfold matches. apply matches_cells_agree.
  intros cell Hcell. apply Hagree. unfold tested_columns.
  apply in_concat. exists (List.map ec_Column (EvalCells r)).
  split.
  - exact (in_map (fun r => List.map ec_Column (EvalCells r)) _ _ Hr).
  - exact (in_map ec_Column _ _ Hcell).
Qed.

(** *** Where the errors of [Evaluate] come from *)

Lemma matches_cells_error number cells input e :
  matches_cells number cells input = Err e ->
  exists cell, In cell cells /\
    ((ec_dataType cell = "" /\ e = ErrMissingDataType number (ec_Column cell)) \/
     (ec_dataType cell <> "" /\
      exists cause, cell_result input cell = Err cause /\
                    e = ErrRowColumn number (ec_Column cell) cause)).
Proof.
  induction cells as [|cell rest IH]; [discriminate|]. simpl.
  destruct (String.eqb_spec (ec_dataType cell) "") as [Hdt|Hdt].
  { intros [= <-]. exists cell. split; [now left|]. now left. }
  destruct (evaluateCell _ _ _ _) as [[|]| |] eqn:Hcell; try discriminate.
  - intros He. destruct (IH He) as (c & Hc & Hcase). exists c. split; [now right|exact Hcase].
  - intros [= <-]. exists cell. split; [now left|]. right. split; [exact Hdt|].
    now exists e0.
Qed.



(** *** What registration keeps *)

Lemma AddRow_frame dt row :
  let dt' := fst (AddRow dt row) in
  Name dt' = Name dt /\ conditionColumns dt' = conditionColumns dt /\
  outputColumns dt' = outputColumns dt /\ defaultRow dt' = defaultRow dt /\
  matchPolicy dt' = matchPolicy dt /\ noMatchPolicy dt' = noMatchPolicy dt /\
  rowValidation dt' = rowValidation dt.
Proof.
  unfold AddRow. destruct (prepareRow dt row _ _); simpl; repeat split.
Qed.

Lemma SetDefaultRow_frame dt row :
  let dt' := fst (SetDefaultRow dt row) in
  Name dt' = Name dt /\ conditionColumns dt' = conditionColumns dt /\
  outputColumns dt' = outputColumns dt /\ rows dt' = rows dt /\
  matchPolicy dt' = matchPolicy dt /\ noMatchPolicy dt' = noMatchPolicy dt /\
  rowValidation dt' = rowValidation dt.
Proof.
  unfold SetDefaultRow. destruct (_ && _); [simpl; repeat split|].
  destruct (0 <? _)%nat; [simpl; repeat split|].
  destruct (prepareRow dt row _ _); simpl; repeat split.
Qed.

(** Registration only ever appends rows and sets the default row. *)
Lemma registered_frame (dt0 dt : DecisionTable) :
  registered dt0 dt ->
  Name dt = Name dt0 /\ conditionColumns dt = conditionColumns dt0 /\
  outputColumns dt = outputColumns dt0 /\
  matchPolicy dt = matchPolicy dt0 /\ noMatchPolicy dt = noMatchPolicy dt0 /\
  rowValidation dt = rowValidation dt0 /\
  exists appended,
    Rows dt = (Rows dt0 ++ appended)%list /\
    RowCount dt = RowCount dt0 + Z.of_nat (length appended).
Proof.
  induction 1 as [|dt row _ IH|dt row _ IH].
  - repeat split. exists []. unfold Rows, RowCount. rewrite app_nil_r. split; [reflexivity|].
    simpl. lia.
  - destruct IH as (Hn & Hc & Ho & Hm & Hnm & Hrv & appended & Hrows & Hcount).
    destruct (AddRow_frame dt row) as (Hn' & Hc' & Ho' & _ & Hm' & Hnm' & Hrv').
    repeat split; try congruence.
    unfold Rows, RowCount in *.
    destruct (AddRow_rows dt row) as [Hsame|(prepared & Happ & _)].
    + exists appended. rewrite Hsame. split; [exact Hrows|].
      rewrite Hrows, length_app. lia.
    + exists (appended ++ [prepared])%list. rewrite Happ, Hrows, <- app_assoc.
      split; [reflexivity|]. rewrite !length_app. simpl. lia.
  - destruct IH as (Hn & Hc & Ho & Hm & Hnm & Hrv & appended & Hrows & Hcount).
    destruct (SetDefaultRow_frame dt row) as (Hn' & Hc' & Ho' & Hr' & Hm' & Hnm' & Hrv').
    repeat split; try congruence.
    exists appended. unfold Rows, RowCount in *. rewrite Hr'. split; [exact Hrows|].
    rewrite Hrows, length_app. lia.
Qed.

Lemma registered_AddRows dt0 dt l : registered dt0 dt -> registered dt0 (AddRows dt l).
Proof.
  unfold AddRows. revert dt. induction l as [|row l IH]; intros dt Hdt; [exact Hdt|].
  simpl. apply IH. now constructor.
Qed.

(** X19. Calls of [AddRow] and [SetDefaultRow], whatever they return,
    leave the name, the columns and the policies of the table as they were
    and only ever append to its rows: the rows stored before stay in place,
    and [RowCount] grows by the number of rows appended. *)
Theorem registration_keeps_the_table (dt0 dt : DecisionTable) :
  registered dt0 dt ->
  Name dt = Name dt0 /\ conditionColumns dt = conditionColumns dt0 /\
  outputColumns dt = outputColumns dt0 /\
  matchPolicy dt = matchPolicy dt0 /\ noMatchPolicy dt = noMatchPolicy dt0 /\
  rowValidation dt = rowValidation dt0 /\
  exists appended,
    Rows dt = (Rows dt0 ++ appended)%list /\
    RowCount dt = RowCount dt0 + Z.of_nat (length appended).
Proof. exact (registered_frame dt0 dt). Qed.

(** *** Column maps *)

Lemma validate_valid c :
  validate c = Ok tt -> col_Name c <> "" /\ valid_DataType (col_DataType c) = true.
Proof.
  unfold validate, valid_DataType.
  destruct (String.eqb_spec (col_Name c) "") as [|Hname]; [discriminate|].
  destruct (negb _); [discriminate|].
  destruct (one_of (col_DataType c) _); [auto|discriminate].
Qed.

Lemma buildColumnMap_loop_spec allowedTypes cols built m :
  buildColumnMap_loop allowedTypes cols built = Ok m ->
  Forall (column_accepted allowedTypes) cols /\
  NoDup (List.map col_Name cols) /\
  (forall c, In c cols -> built !! col_Name c = None) /\
  (forall key col, m !! key = Some col <->
     built !! key = Some col \/ (In col cols /\ col_Name col = key)).
Proof.
  revert built. induction cols as [|c rest IH]; intros built; simpl.
  - intros [= <-]. split; [constructor|]. split; [constructor|].
    split; [intros c []|]. intros key col. split; [auto|]. now intros [Hm|[[] _]].
  - destruct (validate c) as [[]| |] eqn:Hvalid; try discriminate.
    destruct (one_of (col_Type c) allowedTypes) eqn:Hrole; [|discriminate]. simpl.
    destruct (bool_decide (is_Some (built !! col_Name c))) eqn:Hdup; [discriminate|].
    apply bool_decide_eq_false in Hdup.
    assert (Hnew : built !! col_Name c = None).
    { destruct (built !! col_Name c) eqn:Hc; [|reflexivity]. destruct Hdup. now eexists. }
    intros Hm. destruct (IH _ Hm) as (Hall & Hnodup & Hfresh & Hlookup).
    split; [constructor; [split; assumption|exact Hall]|].
    split.
    { constructor; [|exact Hnodup]. intros Hin. apply list_elem_of_In in Hin.
      apply in_map_iff in Hin as (c' & Hname & Hc').
      specialize (Hfresh c' Hc'). rewrite Hname, lookup_insert_eq in Hfresh. discriminate. }
    split.
    { intros c' [<-|Hc']; [exact Hnew|].
      specialize (Hfresh c' Hc').
      destruct (String.eqb_spec (col_Name c) (col_Name c')) as [Heq|Hne].
      - rewrite <- Heq, lookup_insert_eq in Hfresh. discriminate.
      - now rewrite lookup_insert_ne in Hfresh. }
    intros key col. rewrite Hlookup. split.
    + intros [Hb|[Hin Hkey]].
      * destruct (String.eqb_spec (col_Name c) key) as [<-|Hne].
        -- rewrite lookup_insert_eq in Hb. injection Hb as <-. right. auto.
        -- rewrite lookup_insert_ne in Hb by exact Hne. now left.
      * right. auto.
    + intros [Hb|[[<-|Hin] Hkey]].
      * left. destruct (String.eqb_spec (col_Name c) key) as [<-|Hne].
        -- congruence.
        -- now rewrite lookup_insert_ne.
      * left. subst key. now rewrite lookup_insert_eq.
      * right. auto.
Qed.

Lemma buildColumnMap_loop_accepts allowedTypes cols built :
  Forall (column_accepted allowedTypes) cols ->
  NoDup (List.map col_Name cols) ->
  (forall c, In c cols -> built !! col_Name c = None) ->
  exists m, buildColumnMap_loop allowedTypes cols built = Ok m.
Proof.
  revert built. induction cols as [|c rest IH]; intros built Hall Hnodup Hfresh; simpl.
  - now eexists.
  - inversion Hall as [|? ? [Hvalid Hrole] Hrest]; subst.
    apply NoDup_cons in Hnodup as [Hnotin Hnodup'].
    rewrite Hvalid, Hrole. simpl.
    rewrite (Hfresh c) by now left.
    rewrite bool_decide_eq_false_2 by (intros [? ?]; discriminate).
    apply IH; try assumption.
    intros c' Hc'. rewrite lookup_insert_ne.
    + apply Hfresh. now right.
    + intros Heq. apply Hnotin. rewrite Heq. apply list_elem_of_In. now apply in_map.
Qed.

Lemma buildColumnMap_inv (cols : list Column) (allowedTypes : list string) :
  ((exists m, buildColumnMap cols allowedTypes = Ok m) <->
   Forall (column_accepted allowedTypes) cols /\ NoDup (List.map col_Name cols)) /\
  (forall m, buildColumnMap cols allowedTypes = Ok m ->
     (forall key col, m !! key = Some col <-> In col cols /\ col_Name col = key) /\
     columns_valid m).
Proof.
  unfold buildColumnMap. split; [split|].
  - intros [m Hm]. apply buildColumnMap_loop_spec in Hm as (Hall & Hnodup & _). auto.
  - intros [Hall Hnodup]. apply buildColumnMap_loop_accepts; auto.
  - intros m Hm. apply buildColumnMap_loop_spec in Hm as (Hall & _ & _ & Hlookup).
    assert (Hkeys : forall key col, m !! key = Some col <-> In col cols /\ col_Name col = key).
    { intros key col. rewrite Hlookup, lookup_empty. split; [intros [|]; [discriminate|auto]|auto]. }
    split; [exact Hkeys|].
    intros key col Hcol. apply Hkeys in Hcol as [Hin Hname]. split; [exact Hname|].
    rewrite List.Forall_forall in Hall. destruct (Hall col Hin) as [Hvalid _].
    now apply validate_valid in Hvalid.
Qed.

(** *** The rows a table stores *)

Lemma wrap_Ok {A : Type} (w : error -> error) (r : result A) (a : A) :
  wrap w r = Ok a -> r = Ok a.
Proof. destruct r; simpl; congruence. Qed.

Lemma bind_Ok {A B : Type} (r : result A) (f : A -> result B) (b : B) :
  r ≫= f = Ok b -> exists a, r = Ok a /\ f a = Ok b.
Proof. destruct r; simpl; try discriminate. eauto. Qed.

Lemma prepareEvalCell_stored dt cell prepared :
  prepareEvalCell dt cell = Ok prepared -> stored_EvalCell dt prepared.
Proof.
  unfold prepareEvalCell.
  destruct (conditionColumns dt !! ec_Column cell) as [col|] eqn:Hcol; [|discriminate].
  destruct (String.eqb_spec (ec_Operator cell) "") as [|Hop]; [discriminate|].
  intros Hprep. apply bind_Ok in Hprep as (value & Hvalue%wrap_Ok & [= <-]).
  exists (ec_Column cell), col, (ec_Value cell). repeat split; assumption.
Qed.

Lemma prepareReturnCell_stored dt cell prepared :
  prepareReturnCell dt cell = Ok prepared -> stored_ReturnCell dt prepared.
Proof.
  unfold prepareReturnCell.
  destruct (outputColumns dt !! rc_Column cell) as [col|] eqn:Hcol; [|discriminate].
  intros Hprep. apply bind_Ok in Hprep as (value & Hvalue%wrap_Ok & [= <-]).
  exists (rc_Column cell), col, (rc_Value cell). repeat split; assumption.
Qed.

Lemma mapM_result_Forall {A B : Type} (f : A -> result B) (P : B -> Prop) l ys :
  (forall x y, f x = Ok y -> P y) -> mapM_result f l = Ok ys -> Forall P ys.
Proof.
  intros Hf Hl. apply mapM_result_Forall2 in Hl.
  induction Hl as [|x y l ys Hxy _ IH]; constructor; eauto.
Qed.

Lemma prepareRow_stored dt row requireEval requireReturn prepared :
  prepareRow dt row requireEval requireReturn = Ok prepared ->
  stored_Row dt prepared /\
  RuleID prepared = RuleID row /\ Comments prepared = Comments row /\
  (requireEval = true -> EvalCells prepared <> []) /\
  (requireReturn = true -> ReturnCells prepared <> []) /\
  length (EvalCells prepared) = length (EvalCells row) /\
  length (ReturnCells prepared) = length (ReturnCells row).
Proof.
  unfold prepareRow.
  destruct (requireEval && _) eqn:Heval; [discriminate|].
  destruct (requireReturn && _) eqn:Hret; [discriminate|].
  intros Hprep.
  apply bind_Ok in Hprep as (evalCells & He & Hprep).
  apply bind_Ok in Hprep as (returnCells & Hr & [= <-]). simpl.
  pose proof (Forall2_length _ _ _ (mapM_result_Forall2 _ _ _ He)) as Hle.
  pose proof (Forall2_length _ _ _ (mapM_result_Forall2 _ _ _ Hr)) as Hlr.
  repeat split; try congruence.
  - eapply mapM_result_Forall; [|exact He]. apply prepareEvalCell_stored.
  - eapply mapM_result_Forall; [|exact Hr]. apply prepareReturnCell_stored.
  - intros -> Hnil. rewrite Hnil in Hle. simpl in Hle. rewrite Hle in Heval. discriminate.
  - intros -> Hnil. rewrite Hnil in Hlr. simpl in Hlr. rewrite Hlr in Hret. discriminate.
Qed.

Lemma options_keep_columns (opts : list (option Option)) dt :
  Forall package_option opts ->
  Name (apply_options opts dt) = Name dt /\
  conditionColumns (apply_options opts dt) = conditionColumns dt /\
  outputColumns (apply_options opts dt) = outputColumns dt /\
  rows (apply_options opts dt) = rows dt /\
  defaultRow (apply_options opts dt) = defaultRow dt.
Proof.
  intros Hopts. revert dt. induction Hopts as [|opt opts Hopt _ IH]; intros dt.
  - repeat split.
  - change (apply_options (opt :: opts) dt)
      with (apply_options opts (match opt with Some f => f dt | None => dt end)).
    destruct (IH (match opt with Some f => f dt | None => dt end))
      as (Hn & Hc & Ho & Hr & Hd).
    rewrite Hn, Hc, Ho, Hr, Hd.
    destruct Hopt; repeat split.
Qed.

Lemma NewDecisionTable_inv (name : string) (conditionCols outputCols : list Column)
    (opts : list (option Option)) :
  ((exists dt, NewDecisionTable name conditionCols outputCols opts = Ok dt) <->
   name <> "" /\ conditionCols <> [] /\ outputCols <> [] /\
   Forall (column_accepted [ColumnTypeCondition]) conditionCols /\
   NoDup (List.map col_Name conditionCols) /\
   Forall (column_accepted [ColumnTypeConclusion; ColumnTypeMetadata]) outputCols /\
   NoDup (List.map col_Name outputCols)) /\
  (forall dt,
     NewDecisionTable name conditionCols outputCols opts = Ok dt ->
     Forall package_option opts ->
     Name dt = name /\
     (forall key col, conditionColumns dt !! key = Some col <->
        In col conditionCols /\ col_Name col = key) /\
     (forall key col, outputColumns dt !! key = Some col <->
        In col outputCols /\ col_Name col = key) /\
     columns_valid (conditionColumns dt) /\ columns_valid (outputColumns dt) /\
     rows dt = [] /\ defaultRow dt = None).
Proof.
  unfold NewDecisionTable.
  pose proof (buildColumnMap_inv conditionCols [ColumnTypeCondition]) as [Hc Hcm].
  pose proof (buildColumnMap_inv outputCols [ColumnTypeConclusion; ColumnTypeMetadata])
    as [Ho Hom].
  destruct (String.eqb_spec name "") as [Hname|Hname].
  { split; [split|discriminate]; [now intros [dt Hdt]|tauto]. }
  destruct conditionCols as [|c cc] eqn:Hcc.
  { split; [split|discriminate]; [now intros [dt Hdt]|tauto]. }
  rewrite <- Hcc in *. replace (length conditionCols =? 0)%nat with false by now rewrite Hcc.
  destruct outputCols as [|o oc] eqn:Hoc.
  { split; [split|discriminate]; [now intros [dt Hdt]|tauto]. }
  rewrite <- Hoc in *. replace (length outputCols =? 0)%nat with false by now rewrite Hoc.
  assert (Hcne : conditionCols <> []) by now rewrite Hcc.
  assert (Hone : outputCols <> []) by now rewrite Hoc.
  clear Hcc Hoc.
  destruct (buildColumnMap conditionCols _) as [conditionMap| |] eqn:Hcmap.
  2,3: split; [split|discriminate];
       [now intros [dt Hdt]|
        intros (_ & _ & _ & Hall & Hnodup & _); apply proj2 in Hc;
        destruct (Hc (conj Hall Hnodup)); discriminate].
  destruct (buildColumnMap outputCols _) as [outputMap| |] eqn:Homap.
  2,3: split; [split|discriminate];
       [now intros [dt Hdt]|
        intros (_ & _ & _ & _ & _ & Hall & Hnodup); apply proj2 in Ho;
        destruct (Ho (conj Hall Hnodup)); discriminate].
  simpl. split.
  - split; [|intros _; now eexists]. intros _.
    destruct (proj1 Hc (ex_intro _ _ eq_refl)) as [Hall Hnodup].
    destruct (proj1 Ho (ex_intro _ _ eq_refl)) as [Hall' Hnodup'].
    repeat split; assumption.
  - intros dt [= <-] Hopts.
    destruct (options_keep_columns opts
                (mkDecisionTable name conditionMap outputMap [] None MatchPolicyAll
                   NoMatchPolicyThrowError RowValidationStrict) Hopts)
      as (Hn & Hcd & Hod & Hr & Hd).
    unfold apply_options in Hn, Hcd, Hod, Hr, Hd. rewrite Hn, Hcd, Hod, Hr, Hd. simpl.
    destruct (Hcm conditionMap eq_refl) as [Hk Hv].
    destruct (Hom outputMap eq_refl) as [Hk' Hv'].
    split; [reflexivity|]. split; [exact Hk|]. split; [exact Hk'|].
    split; [exact Hv|]. split; [exact Hv'|]. split; reflexivity.
Qed.

(** X18. [NewDecisionTable] succeeds exactly when the name is not empty,
    there is at least one condition column and one output column, every
    condition column is valid and of kind CONDITION, every output column
    valid and of kind CONCLUSION or METADATA, and the names are distinct
    within each list. With the options of the package the table then has
    that name, exactly these columns under their names, no rows and no
    default row. *)
Theorem NewDecisionTable_spec (name : string) (conditionCols outputCols : list Column)
    (opts : list (option Option)) :
  ((exists dt, NewDecisionTable name conditionCols outputCols opts = Ok dt) <->
   name <> "" /\ conditionCols <> [] /\ outputCols <> [] /\
   Forall (column_accepted [ColumnTypeCondition]) conditionCols /\
   NoDup (List.map col_Name conditionCols) /\
   Forall (column_accepted [ColumnTypeConclusion; ColumnTypeMetadata]) outputCols /\
   NoDup (List.map col_Name outputCols)) /\
  (forall dt,
     NewDecisionTable name conditionCols outputCols opts = Ok dt ->
     Forall package_option opts ->
     Name dt = name /\
     (forall key col, conditionColumns dt !! key = Some col <->
        In col conditionCols /\ col_Name col = key) /\
     (forall key col, outputColumns dt !! key = Some col <->
        In col outputCols /\ col_Name col = key) /\
     columns_valid (conditionColumns dt) /\ columns_valid (outputColumns dt) /\
     rows dt = [] /\ defaultRow dt = None).
Proof. exact (NewDecisionTable_inv name conditionCols outputCols opts). Qed.

Lemma prepareRow_kept dt row requireEval requireReturn prepared :
  prepareRow dt row requireEval requireReturn = Ok prepared ->
  Forall2 (kept_EvalCell dt) (EvalCells row) (EvalCells prepared) /\
  Forall2 (kept_ReturnCell dt) (ReturnCells row) (ReturnCells prepared) /\
  (requireEval = true -> EvalCells row <> []) /\
  (requireReturn = true -> ReturnCells row <> []).
Proof.
  unfold prepareRow.
  destruct (requireEval && _) eqn:He; [discriminate|].
  destruct (requireReturn && _) eqn:Hr; [discriminate|].
  intros Hprep.
  apply bind_Ok in Hprep as (evalCells & Heval & Hprep).
  apply bind_Ok in Hprep as (returnCells & Hreturn & [= <-]).
  apply mapM_result_Forall2 in Heval, Hreturn. simpl.
  split; [|split; [|split]].
  - eapply Forall2_impl; [exact Heval|]. intros cell kept. unfold prepareEvalCell.
    destruct (conditionColumns dt !! ec_Column cell) as [col|] eqn:Hcol; [|discriminate].
    destruct (String.eqb_spec (ec_Operator cell) "") as [|Hop]; [discriminate|].
    intros Hkept. apply bind_Ok in Hkept as (value & Hvalue%wrap_Ok & [= <-]).
    exists col. repeat split; assumption.
  - eapply Forall2_impl; [exact Hreturn|]. intros cell kept. unfold prepareReturnCell.
    destruct (outputColumns dt !! rc_Column cell) as [col|] eqn:Hcol; [|discriminate].
    intros Hkept. apply bind_Ok in Hkept as (value & Hvalue%wrap_Ok & [= <-]).
    exists col. repeat split; assumption.
  - intros -> Hnil. rewrite Hnil in He. discriminate.
  - intros -> Hnil. rewrite Hnil in Hr. discriminate.
Qed.

Lemma AddRow_kept dt row dt' :
  AddRow dt row = (dt', Ok tt) ->
  exists stored,
    Rows dt' = (Rows dt ++ [stored])%list /\
    RuleID stored = RuleID row /\ Comments stored = Comments row /\
    Number stored = (if Number row <=? 0 then RowCount dt + 1 else Number row) /\
    Forall2 (kept_EvalCell dt) (EvalCells row) (EvalCells stored) /\
    Forall2 (kept_ReturnCell dt) (ReturnCells row) (ReturnCells stored) /\
    (rowValidation dt = RowValidationStrict ->
     EvalCells row <> [] /\ ReturnCells row <> []).
Proof.
  unfold AddRow. intros Hadd.
  destruct (prepareRow dt row _ _) as [prepared| |] eqn:Hprep; try discriminate.
  pose proof (prepareRow_Number _ _ _ _ _ Hprep) as Hn.
  pose proof (prepareRow_kept _ _ _ _ _ Hprep) as (He & Hr & Hsome & Hsome').
  apply prepareRow_stored in Hprep as (_ & Hid & Hc & _).
  injection Hadd as <-. rewrite Hn.
  exists (if Number row <=? 0
          then with_Number prepared (Z.of_nat (length (rows dt)) + 1) else prepared).
  unfold Rows, RowCount. simpl.
  split; [reflexivity|].
  assert (Hstrict : rowValidation dt = RowValidationStrict ->
                    EvalCells row <> [] /\ ReturnCells row <> []).
  { intros Hstrict. apply Z.eqb_eq in Hstrict. auto. }
  destruct (Number row <=? 0); simpl.
  - split; [exact Hid|]. split; [exact Hc|]. split; [reflexivity|].
    split; [exact He|]. split; [exact Hr|exact Hstrict].
  - split; [exact Hid|]. split; [exact Hc|]. split; [exact Hn|].
    split; [exact He|]. split; [exact Hr|exact Hstrict].
Qed.

(** X17. What a successful [AddRow] stores: one row appended to the rows
    of the table, under the rule id and the comments of the given row and
    under its number, or under its position when that number is not
    positive. Its cells are the given cells in order, each with the name and
    the DataType of the column found under the cell's column, the same
    operator, which is not empty, and the value that sanitizing the given
    value for that column returned; under strict validation the row has
    at least one cell of each kind. *)
Theorem AddRow_stores (dt dt' : DecisionTable) (row : Row) :
  AddRow dt row = (dt', Ok tt) ->
  exists stored,
    Rows dt' = (Rows dt ++ [stored])%list /\
    RuleID stored = RuleID row /\ Comments stored = Comments row /\
    Number stored = (if Number row <=? 0 then RowCount dt + 1 else Number row) /\
    Forall2 (kept_EvalCell dt) (EvalCells row) (EvalCells stored) /\
    Forall2 (kept_ReturnCell dt) (ReturnCells row) (ReturnCells stored) /\
    (rowValidation dt = RowValidationStrict ->
     EvalCells row <> [] /\ ReturnCells row <> []).
Proof. exact (AddRow_kept dt row dt'). Qed.

Lemma stored_Row_columns dt dt' r :
  conditionColumns dt' = conditionColumns dt -> outputColumns dt' = outputColumns dt ->
  stored_Row dt r -> stored_Row dt' r.
Proof.
  intros Hc Ho [He Hr]. split.
  - eapply List.Forall_impl; [|exact He]. intros cell (key & col & raw & Hkey & Hrest).
    exists key, col, raw. now rewrite Hc.
  - eapply List.Forall_impl; [|exact Hr]. intros cell (key & col & raw & Hkey & Hrest).
    exists key, col, raw. now rewrite Ho.
Qed.

Lemma stored_Row_numbered dt r n : stored_Row dt r -> stored_Row dt (with_Number r n).
Proof. intros [He Hr]. now split. Qed.

Lemma AddRow_holds_prepared dt row :
  holds_prepared_rows dt -> holds_prepared_rows (fst (AddRow dt row)).
Proof.
  intros [Hrows Hdefault]. unfold AddRow.
  destruct (prepareRow dt row _ _) as [prepared| |] eqn:Hprep; try (now split).
  apply prepareRow_stored in Hprep as [Hstored _].
  set (numbered := if Number prepared <=? 0 then _ else prepared).
  assert (Hnumbered : stored_Row dt numbered).
  { unfold numbered. destruct (Number prepared <=? 0); [|exact Hstored].
    now apply stored_Row_numbered. }
  split; simpl.
  - apply Forall_app. split; [|constructor; [|constructor]].
    + eapply List.Forall_impl; [|exact Hrows]. intros r. now apply stored_Row_columns.
    + now apply (stored_Row_columns dt).
  - intros d Hd. destruct (Hdefault d Hd) as [Hsd Hnone]. split; [|exact Hnone].
    now apply (stored_Row_columns dt).
Qed.

Lemma SetDefaultRow_holds_prepared dt row :
  holds_prepared_rows dt -> holds_prepared_rows (fst (SetDefaultRow dt row)).
Proof.
  intros [Hrows Hdefault]. unfold SetDefaultRow.
  destruct (_ && _); [now split|].
  destruct (EvalCells row) as [|cell cells] eqn:Hcells; [|now split]. simpl.
  destruct (prepareRow dt row false true) as [prepared| |] eqn:Hprep; try (now split).
  apply prepareRow_stored in Hprep as (Hstored & _ & _ & _ & _ & Hlen & _).
  rewrite Hcells in Hlen. simpl in Hlen.
  assert (Hnone : EvalCells prepared = []) by (now destruct (EvalCells prepared)).
  set (numbered := if Number prepared <=? 0 then _ else prepared).
  assert (Hnumbered : stored_Row dt numbered /\ EvalCells numbered = []).
  { unfold numbered. destruct (Number prepared <=? 0); [|now split].
    split; [now apply stored_Row_numbered|exact Hnone]. }
  split; simpl.
  - eapply List.Forall_impl; [|exact Hrows]. intros r. now apply stored_Row_columns.
  - intros d [= <-]. destruct Hnumbered as [Hs Hn]. split; [|exact Hn].
    now apply (stored_Row_columns dt).
Qed.

Lemma registered_holds_prepared dt0 dt :
  registered dt0 dt -> holds_prepared_rows dt0 -> holds_prepared_rows dt.
Proof.
  induction 1 as [|dt row _ IH|dt row _ IH]; intros Hstart; [exact Hstart| |].
  - now apply AddRow_holds_prepared, IH.
  - now apply SetDefaultRow_holds_prepared, IH.
Qed.

Lemma stored_EvalCell_typed dt cell :
  columns_valid (conditionColumns dt) -> stored_EvalCell dt cell ->
  valid_DataType (ec_dataType cell) = true /\ ec_dataType cell <> "" /\
  conditionColumns dt !! ec_Column cell <> None.
Proof.
  intros Hvalid (key & col & raw & Hkey & Hcol & Hdt & _).
  destruct (Hvalid key col Hkey) as [Hname Hty].
  rewrite Hdt, Hcol, Hname. split; [exact Hty|]. split; [|congruence].
  intros Hempty. rewrite Hempty in Hty. discriminate.
Qed.

Lemma registered_prepared (name : string) (conditionCols outputCols : list Column)
    (opts : list (option Option)) (dt0 dt : DecisionTable) :
  NewDecisionTable name conditionCols outputCols opts = Ok dt0 ->
  Forall package_option opts ->
  registered dt0 dt ->
  holds_prepared_rows dt /\
  (forall r cell, In r (rows dt) -> In cell (EvalCells r) ->
     valid_DataType (ec_dataType cell) = true /\
     exists col, In col conditionCols /\ ec_Column cell = col_Name col /\
                 ec_dataType cell = col_DataType col) /\
  (forall r input number column,
     In r (rows dt) -> matches r input <> Err (ErrMissingDataType number column)).
Proof.
  intros Hnew Hopts Hreg.
  destruct (proj2 (NewDecisionTable_inv name conditionCols outputCols opts) dt0 Hnew Hopts)
    as (_ & Hkeys & _ & Hvalid & _ & Hrows & Hdefault).
  destruct (registered_frame dt0 dt Hreg) as (_ & Hc & _).
  assert (Hprep : holds_prepared_rows dt).
  { apply (registered_holds_prepared dt0 dt Hreg). split.
    - rewrite Hrows. constructor.
    - intros d Hd. congruence. }
  split; [exact Hprep|].
  assert (Hcells : forall r cell, In r (rows dt) -> In cell (EvalCells r) ->
                                stored_EvalCell dt cell).
  { intros r cell Hr Hcell. destruct Hprep as [Hall _].
    rewrite List.Forall_forall in Hall. destruct (Hall r Hr) as [He _].
    rewrite List.Forall_forall in He. now apply He. }
  rewrite <- Hc in Hvalid.
  split.
  - intros r cell Hr Hcell. pose proof (Hcells r cell Hr Hcell) as Hstored.
    destruct (stored_EvalCell_typed dt cell Hvalid Hstored) as (Hty & _).
    split; [exact Hty|].
    destruct Hstored as (key & col & raw & Hkey & Hcol & Hdt & _).
    exists col. rewrite Hc in Hkey. apply Hkeys in Hkey as [Hin _]. auto.
  - intros r input number column Hr Hmatch.
    apply matches_cells_error in Hmatch as (cell & Hcell & [[Hempty _]|[_ (cause & _ & Habs)]]);
      [|discriminate].
    pose proof (Hcells r cell Hr Hcell) as Hstored.
    destruct (stored_EvalCell_typed dt cell Hvalid Hstored) as (_ & Hne & _). contradiction.
Qed.

(** X20. Every row of a table built by [NewDecisionTable], [AddRow] and
    [SetDefaultRow] is a row that [prepareRow] returned: each evaluation
    cell names a condition column of the table and carries its DataType, a
    DataType of the package, and a value sanitized for it, the default row
    has no evaluation cell, and [matches] never fails for a missing
    DataType. *)
Theorem registered_rows_are_prepared (name : string) (conditionCols outputCols : list Column)
    (opts : list (option Option)) (dt0 dt : DecisionTable) :
  NewDecisionTable name conditionCols outputCols opts = Ok dt0 ->
  Forall package_option opts ->
  registered dt0 dt ->
  holds_prepared_rows dt /\
  (forall r cell, In r (rows dt) -> In cell (EvalCells r) ->
     valid_DataType (ec_dataType cell) = true /\
     exists col, In col conditionCols /\ ec_Column cell = col_Name col /\
                 ec_dataType cell = col_DataType col) /\
  (forall r input number column,
     In r (rows dt) -> matches r input <> Err (ErrMissingDataType number column)).
Proof. exact (registered_prepared name conditionCols outputCols opts dt0 dt). Qed.


(** *** Operators that are none of the package's *)

Lemma one_of_false s cases : ~ In s cases -> one_of s cases = false.
Proof.
  intros Hs. unfold one_of. destruct (existsb (String.eqb s) cases) eqn:Hex; [|reflexivity].
  apply existsb_exists in Hex as (c & Hc & Heq). apply String.eqb_eq in Heq. now subst.
Qed.

(** X12. An operator string that is none of the eighteen operators is
    stored like a scalar comparison, its expected value coerced to the
    column's DataType; evaluating it fails with the unsupported-operator
    error once the actual value is coerced, never returns a boolean, and a
    row holding such a cell never matches. *)
Theorem unknown_operator_never_matches (op : OperatorType) :
  ~ In op operators ->
  (forall dt raw, sanitizeExpectedValue dt op raw = coercePrimitive dt raw) /\
  (forall dt actual expected a,
     sanitizeActualValue dt actual = Ok a ->
     evaluateCell dt op actual expected = Err (ErrUnsupportedOperator op)) /\
  (forall dt actual expected b, evaluateCell dt op actual expected <> Ok b) /\
  (forall r input cell,
     In cell (EvalCells r) -> ec_Operator cell = op -> matches r input <> Ok true).
Proof.
  intros Hop. unfold operators in Hop. simpl in Hop.
  assert (Hne : forall known, In known operators -> (op =s known) = false).
  { intros known Hknown. apply String.eqb_neq. intros ->. now apply Hop. }
  assert (Hscalar : forall dt a expected,
            evaluateScalarOperator dt op a expected = Err (ErrUnsupportedOperator op)).
  { intros dt a expected. unfold evaluateScalarOperator, one_of. simpl.
    rewrite !Hne by (unfold operators; simpl; tauto). reflexivity. }
  assert (Hcoll : expectsActualCollection op = false).
  { unfold expectsActualCollection, one_of. simpl.
    rewrite !Hne by (unfold operators; simpl; tauto). reflexivity. }
  assert (Hcell : forall dt actual expected b, evaluateCell dt op actual expected <> Ok b).
  { intros dt actual expected b. unfold evaluateCell. rewrite Hcoll.
    destruct (sanitizeActualValue dt actual); simpl; try discriminate.
    now rewrite Hscalar. }
  split; [|split; [|split]].
  - intros dt raw. unfold sanitizeExpectedValue, requiresCollectionValue, one_of. simpl.
    rewrite !Hne by (unfold operators; simpl; tauto). reflexivity.
  - intros dt actual expected a Ha. unfold evaluateCell. rewrite Hcoll, Ha. simpl.
    apply Hscalar.
  - exact Hcell.
  - intros r input cell Hin Hcellop Hmatch.
    apply matches_cells_true in Hmatch. rewrite List.Forall_forall in Hmatch.
    destruct (Hmatch cell Hin) as [_ Hpass]. unfold cell_result in Hpass.
    rewrite Hcellop in Hpass. now apply Hcell in Hpass.
Qed.

End Engine.

(** ** Properties of the loaders *)

Section Loaders.
Context `{GoLibrary} `{GoStrings}.

(** *** Operator tokens *)

Lemma parseJSONOperatorToken_operators token op :
  parseJSONOperatorToken token = Loaded op -> In op json_operators.
Proof.
  unfold parseJSONOperatorToken.
  repeat match goal with
    | |- context [if ?c then _ else _] => destruct c; [intros [= <-]; simpl; tauto|]
    end.
  discriminate.
Qed.

Lemma parseOperatorToken_operators token op :
  parseOperatorToken token = Loaded op -> In op excel_operators.
Proof.
  unfold parseOperatorToken.
  repeat match goal with
    | |- context [if ?c then _ else _] => destruct c; [intros [= <-]; simpl; tauto|]
    end.
  discriminate.
Qed.

(** X22. The operators of the two loaders. A JSON document can only
    express the eleven operators on scalar inputs, each under its camel-case
    name, so no operator that takes a list as input; a condition of a
    workbook can only express the six comparisons, IN, NOT_IN, the six list
    containments and ALL_EQUAL, each under its own name, so neither
    MATCHES_REGEX nor the null tests. *)
Theorem loader_operators :
  (forall token op, parseJSONOperatorToken token = Loaded op -> In op json_operators) /\
  (forall op, In op json_operators -> parseJSONOperatorToken (json_token op) = Loaded op) /\
  (forall token op, parseOperatorToken token = Loaded op -> In op excel_operators) /\
  (forall op, In op excel_operators -> parseOperatorToken op = Loaded op) /\
  (forall token op, parseJSONOperatorToken token = Loaded op ->
     expectsActualCollection op = false) /\
  (forall token op, parseOperatorToken token = Loaded op ->
     ~ In op [OperatorMatchesRegex; OperatorIsNull; OperatorIsNotNull]).
Proof.
  split; [exact parseJSONOperatorToken_operators|]. split.
  { intros op Hop. simpl in Hop.
    repeat (destruct Hop as [<-|Hop]; [vm_compute; reflexivity|]). destruct Hop. }
  split; [exact parseOperatorToken_operators|]. split.
  { intros op Hop. simpl in Hop.
    repeat (destruct Hop as [<-|Hop]; [vm_compute; reflexivity|]). destruct Hop. }
  split.
  - intros token op Hop. apply parseJSONOperatorToken_operators in Hop. simpl in Hop.
    repeat (destruct Hop as [<-|Hop]; [reflexivity|]). destruct Hop.
  - intros token op Hop Hin. apply parseOperatorToken_operators in Hop. simpl in Hop, Hin.
    repeat (destruct Hop as [<-|Hop]; [intuition discriminate|]). destruct Hop.
Qed.

(** *** Keywords *)

(** The keywords of the loaders name the constants of the package: a
    DataType keyword is accepted exactly when its normalized form, trimmed,
    in upper case and with underscores for spaces, is one of the eight
    DataTypes, which is then the result; a column kind likewise for the
    three kinds; and the policies that the policy keywords yield are
    constants of the package. *)
Lemma keywords_name_the_constants (s : string) :
  (forall dt, parseDataTypeString s = Loaded dt <->
     normalizeKeyword s = dt /\ valid_DataType dt = true) /\
  (forall kind, parseColumnTypeString s = Loaded kind <->
     normalizeKeyword s = kind /\
     In kind [ColumnTypeCondition; ColumnTypeConclusion; ColumnTypeMetadata]) /\
  (forall mp, parseMatchPolicyString s = Loaded mp ->
     In mp [MatchPolicyFirst; MatchPolicyAll; MatchPolicyUnique]) /\
  (forall nmp, parseNoMatchPolicyString s = Loaded nmp ->
     In nmp [NoMatchPolicyReturnDefault; NoMatchPolicyThrowError]) /\
  (forall rvp, parseRowValidationPolicyString s = Loaded rvp ->
     In rvp [RowValidationStrict; RowValidationLenient]).
Proof.
  split; [|split; [|split; [|split]]].
  - intros dt. unfold parseDataTypeString, valid_DataType. cbv zeta.
    generalize (normalizeKeyword s). intros k. split.
    + repeat match goal with
        | |- context [if ?k =s ?c then _ else _] =>
            destruct (String.eqb_spec k c) as [->|?]; [intros [= <-]; split; reflexivity|]
        end.
      discriminate.
    + intros [-> Hvalid]. apply (one_of_In dt) in Hvalid. simpl in Hvalid.
      repeat (destruct Hvalid as [<-|Hvalid]; [reflexivity|]). destruct Hvalid.
  - intros kind. unfold parseColumnTypeString. cbv zeta.
    generalize (normalizeKeyword s). intros k. split.
    + repeat match goal with
        | |- context [if ?k =s ?c then _ else _] =>
            destruct (String.eqb_spec k c) as [->|?];
            [intros [= <-]; split; [reflexivity|simpl; tauto]|]
        end.
      discriminate.
    + intros [-> Hkind]. simpl in Hkind.
      destruct Hkind as [<-|[<-|[<-|[]]]]; reflexivity.
  - intros mp. unfold parseMatchPolicyString. cbv zeta.
    repeat match goal with
      | |- context [if ?c then _ else _] => destruct c; [intros [= <-]; simpl; tauto|]
      end.
    discriminate.
  - intros nmp. unfold parseNoMatchPolicyString. cbv zeta.
    repeat match goal with
      | |- context [if ?c then _ else _] => destruct c; [intros [= <-]; simpl; tauto|]
      end.
    discriminate.
  - intros rvp. unfold parseRowValidationPolicyString. cbv zeta.
    repeat match goal with
      | |- context [if ?c then _ else _] => destruct c; [intros [= <-]; simpl; tauto|]
      end.
    discriminate.
Qed.

(** *** Comma-separated lists *)

Lemma Split_commas_cons s : exists part parts, Split_commas s = part :: parts.
Proof.
  induction s as [|c r (part & parts & IH)]; simpl; [now eexists; eexists|].
  destruct (c =? ",")%char; [now eexists; eexists|].
  rewrite IH. now eexists; eexists.
Qed.

Lemma Split_commas_join s : String.concat "," (Split_commas s) = s.
Proof.
  induction s as [|c r IH]; [reflexivity|].
  destruct (Split_commas_cons r) as (part & parts & Hr).
  cbn [Split_commas]. rewrite Hr in IH |- *.
  destruct (Ascii.eqb_spec c ",") as [->|Hc].
  - change (String "," (String.concat "," (part :: parts)) = String "," r).
    now rewrite IH.
  - destruct parts as [|p ps].
    + simpl in IH |- *. now rewrite IH.
    + change (String c (part ++ "," ++ String.concat "," (p :: ps)) = String c r).
      f_equal. exact IH.
Qed.

Lemma Split_commas_parts s : Forall (fun part => has_comma part = false) (Split_commas s).
Proof.
  induction s as [|c r IH]; simpl; [repeat constructor|].
  destruct (Ascii.eqb_spec c ",") as [->|Hc]; [now constructor|].
  destruct (Split_commas r) as [|part parts]; [repeat constructor|].
  - simpl. apply Ascii.eqb_neq in Hc. now rewrite Hc.
  - inversion IH; subst. constructor; [|assumption].
    simpl. apply Ascii.eqb_neq in Hc. now rewrite Hc.
Qed.

Lemma among_In l y : among l y = true <-> In y l.
Proof.
  unfold among. rewrite existsb_exists. split.
  - intros (x & Hx & Heq). apply String.eqb_eq in Heq. now subst.
  - intros Hy. exists y. split; [exact Hy|apply String.eqb_refl].
Qed.

Lemma filter_ext_in_bool {A : Type} (f g : A -> bool) (l : list A) :
  (forall x, In x l -> f x = g x) -> List.filter f l = List.filter g l.
Proof.
  induction l as [|x l IH]; intros Hfg; [reflexivity|]. simpl.
  rewrite (Hfg x) by now left. rewrite IH; [reflexivity|].
  intros y Hy. apply Hfg. now right.
Qed.

Lemma filter_filter {A : Type} (f g : A -> bool) (l : list A) :
  List.filter f (List.filter g l) = List.filter (fun x => g x && f x) l.
Proof.
  induction l as [|x l IH]; [reflexivity|]. simpl.
  destruct (g x); simpl; [destruct (f x)|]; now rewrite IH.
Qed.

Lemma splitAndDedupeList_loop_spec parts seen kept :
  (forall y, y ∈ seen <-> In y kept) ->
  splitAndDedupeList_loop parts seen kept =
  (kept ++ List.filter (fun y => negb (among kept y))
             (first_occurrences
                (List.filter (fun part => negb (part =s ""))
                   (List.map TrimSpace parts))))%list.
Proof.
  revert seen kept. induction parts as [|part rest IH]; intros seen kept Hseen; simpl.
  - now rewrite app_nil_r.
  - destruct (String.eqb_spec (TrimSpace part) "") as [Hblank|Hvalue]; simpl.
    + now apply IH.
    + set (x := TrimSpace part) in *.
      set (values := first_occurrences _).
      destruct (decide (x ∈ seen)) as [Hin|Hout].
      * rewrite bool_decide_eq_true_2 by exact Hin. rewrite (IH _ _ Hseen).
        fold values. f_equal.
        assert (Hx : among kept x = true) by (apply among_In, Hseen, Hin).
        rewrite Hx. simpl. rewrite filter_filter.
        apply filter_ext_in_bool. intros y _.
        destruct (String.eqb_spec y x) as [->|Hne]; [now rewrite Hx|reflexivity].
      * rewrite bool_decide_eq_false_2 by exact Hout.
        rewrite (IH _ (kept ++ [x])%list).
        -- fold values. rewrite <- app_assoc. f_equal.
           assert (Hx : among kept x = false).
           { destruct (among kept x) eqn:Hx; [|reflexivity].
             apply among_In, Hseen in Hx. contradiction. }
           rewrite Hx. simpl. f_equal. rewrite filter_filter.
           apply filter_ext_in_bool. intros y _.
           unfold among. rewrite existsb_app. simpl. rewrite orb_false_r.
           rewrite negb_orb. apply andb_comm.
        -- intros y. rewrite elem_of_union, elem_of_singleton, in_app_iff, Hseen.
           simpl. intuition.
Qed.

Lemma first_occurrences_In l x : In x (first_occurrences l) <-> In x l.
Proof.
  induction l as [|y l IH]; [reflexivity|]. simpl.
  rewrite filter_In, IH. split.
  - intros [Hy|[Hx _]]; auto.
  - intros [Hy|Hx]; [now left|].
    destruct (String.eqb_spec x y) as [->|Hne]; [now left|right; auto].
Qed.

Lemma NoDup_filter_bool {A : Type} (f : A -> bool) (l : list A) :
  NoDup l -> NoDup (List.filter f l).
Proof.
  induction 1 as [|x l Hx _ IH]; simpl; [constructor|].
  destruct (f x); [|exact IH]. constructor; [|exact IH].
  rewrite list_elem_of_In, filter_In. rewrite list_elem_of_In in Hx. tauto.
Qed.

Lemma first_occurrences_NoDup l : NoDup (first_occurrences l).
Proof.
  induction l as [|y l IH]; simpl; constructor.
  - rewrite list_elem_of_In, filter_In. intros [_ Hy].
    now rewrite String.eqb_refl in Hy.
  - now apply NoDup_filter_bool.
Qed.

Lemma splitAndDedupeList_run value :
  splitAndDedupeList value =
  match listed_values value with
  | [] => LoadErr ErrNoValues
  | values => Loaded (first_occurrences values)
  end.
Proof.
  unfold splitAndDedupeList. rewrite (splitAndDedupeList_loop_spec _ ∅ []).
  - fold (listed_values value). cbn [app].
    assert (Hall : forall l : list string,
              List.filter (fun y => negb (among [] y)) l = l)
      by (induction l as [|? ? IHl]; [reflexivity|]; cbn; f_equal; exact IHl).
    rewrite Hall. now destruct (listed_values value).
  - intros y. rewrite elem_of_empty. simpl. tauto.
Qed.

Lemma splitAndDedupeList_kept value l :
  splitAndDedupeList value = Loaded l ->
  l <> [] /\ NoDup l /\
  forall x, In x l <->
    x <> "" /\ exists part, In part (Split_commas value) /\ TrimSpace part = x.
Proof.
  intros Hl. rewrite splitAndDedupeList_run in Hl.
  assert (Hlist : l = first_occurrences (listed_values value) /\ l <> []).
  { destruct (listed_values value) as [|v values]; [discriminate|].
    injection Hl as <-. split; [reflexivity|discriminate]. }
  destruct Hlist as [-> Hsome]. split; [exact Hsome|].
  split; [apply first_occurrences_NoDup|].
  intros x. rewrite first_occurrences_In. unfold listed_values.
  rewrite filter_In, in_map_iff. split.
  - intros [(part & Hx & Hpart) Hne]. split; [|eauto].
    intros ->. now rewrite String.eqb_refl in Hne.
  - intros [Hne (part & Hpart & Hx)]. split; [eauto|].
    apply String.eqb_neq in Hne. now rewrite Hne.
Qed.

(** X23. [splitAndDedupeList] returns the values of a comma-separated list,
    trimmed, without the blank ones and without repetitions, in the order
    of their first occurrence, and fails exactly when no value is left. The
    parts are those of [strings.Split]: free of commas, and joined by commas
    they give the string back. *)
Theorem splitAndDedupeList_spec (value : string) :
  String.concat "," (Split_commas value) = value /\
  Forall (fun part => has_comma part = false) (Split_commas value) /\
  splitAndDedupeList value =
    match listed_values value with
    | [] => LoadErr ErrNoValues
    | values => Loaded (first_occurrences values)
    end /\
  (forall l, splitAndDedupeList value = Loaded l ->
     l <> [] /\ NoDup l /\
     forall x, In x l <->
       x <> "" /\ exists part, In part (Split_commas value) /\ TrimSpace part = x).
Proof.
  split; [apply Split_commas_join|]. split; [apply Split_commas_parts|].
  split; [apply splitAndDedupeList_run|]. apply splitAndDedupeList_kept.
Qed.

(** *** The columns of a JSON document *)

Lemma loaded_bind_Loaded {A B : Type} (r : loaded A) (f : A -> loaded B) (b : B) :
  r ≫= f = Loaded b -> exists a, r = Loaded a /\ f a = Loaded b.
Proof. destruct r; simpl; try discriminate. eauto. Qed.

Lemma load_wrap_Loaded {A : Type} (w : load_error -> load_error) (r : loaded A) (a : A) :
  load_wrap w r = Loaded a -> r = Loaded a.
Proof. destruct r; simpl; congruence. Qed.

Lemma of_table_Loaded {A : Type} (r : result A) (a : A) :
  of_table r = Loaded a -> r = Ok a.
Proof. destruct r; simpl; congruence. Qed.

Lemma parseColumnTypeString_kinds s colType :
  parseColumnTypeString s = Loaded colType ->
  In colType [ColumnTypeCondition; ColumnTypeConclusion; ColumnTypeMetadata].
Proof.
  unfold parseColumnTypeString.
  repeat match goal with
    | |- context [if ?c then _ else _] => destruct c; [intros [= <-]; simpl; tauto|]
    end.
  discriminate.
Qed.

Lemma parseDataTypeString_valid s dataType :
  parseDataTypeString s = Loaded dataType -> valid_DataType dataType = true.
Proof.
  unfold parseDataTypeString.
  repeat match goal with
    | |- context [if ?c then _ else _] => destruct c; [intros [= <-]; reflexivity|]
    end.
  discriminate.
Qed.

Lemma validate_accepts name colType dataType :
  name <> "" ->
  In colType [ColumnTypeCondition; ColumnTypeConclusion; ColumnTypeMetadata] ->
  valid_DataType dataType = true ->
  validate (mkColumn name colType dataType) = Ok tt.
Proof.
  intros Hname Htype Hdata. unfold validate. simpl col_Name. simpl col_Type.
  simpl col_DataType.
  apply String.eqb_neq in Hname. rewrite Hname.
  unfold valid_DataType in Hdata. rewrite Hdata.
  simpl in Htype. destruct Htype as [<-|[<-|[<-|[]]]]; reflexivity.
Qed.

Lemma NoDup_app_swap {A : Type} (l1 l2 : list A) (x : A) :
  NoDup (l1 ++ l2) -> ~ In x (l1 ++ l2) -> NoDup ((l1 ++ [x]) ++ l2).
Proof.
  intros Hnd Hx. rewrite <- app_assoc. simpl.
  apply NoDup_app in Hnd as (H1 & H12 & H2).
  apply NoDup_app. split; [exact H1|]. split.
  - intros y Hy [->|Hy2]%elem_of_cons.
    + apply Hx, in_or_app. left. now apply list_elem_of_In.
    + now apply (H12 y).
  - constructor; [|exact H2]. intros Hin.
    apply Hx, in_or_app. right. now apply list_elem_of_In.
Qed.

Lemma convertColumns_loop_spec idx cols conditions outputs seen conditions' outputs' :
  convertColumns_loop idx cols conditions outputs seen = Loaded (conditions', outputs') ->
  columns_collected conditions outputs seen ->
  (exists seen', columns_collected conditions' outputs' seen') /\
  (length conditions' + length outputs' =
   length conditions + length outputs + length cols)%nat /\
  (forall name, In name (List.map col_Name (conditions' ++ outputs')) <->
     In name (List.map col_Name (conditions ++ outputs)) \/
     In name (List.map (fun col => TrimSpace (jc_Name col)) cols)).
Proof.
  revert idx conditions outputs seen.
  induction cols as [|col rest IH]; intros idx conditions outputs seen; simpl.
  - intros [= <- <-] Hinv. split; [now exists seen|]. split; [lia|]. tauto.
  - destruct (String.eqb_spec (TrimSpace (jc_Name col)) "") as [|Hname]; [discriminate|].
    set (name := TrimSpace (jc_Name col)) in *.
    destruct (decide (name ∈ seen)) as [Hin|Hout].
    { rewrite bool_decide_eq_true_2 by exact Hin. discriminate. }
    rewrite bool_decide_eq_false_2 by exact Hout.
    intros Hloop (Hc & Ho & Hnodup & Hseen).
    apply loaded_bind_Loaded in Hloop as (colType & Htype%load_wrap_Loaded & Hloop).
    apply loaded_bind_Loaded in Hloop as (dataType & Hdata%load_wrap_Loaded & Hloop).
    apply parseColumnTypeString_kinds in Htype.
    apply parseDataTypeString_valid in Hdata.
    pose proof (validate_accepts name colType dataType Hname Htype Hdata) as Hvalid.
    assert (Hfresh : ~ In name (List.map col_Name (conditions ++ outputs)))
      by (intros Hin; now apply Hout, Hseen).
    apply IH in Hloop.
    + destruct Hloop as (Hinv' & Hlen & Hnames). split; [exact Hinv'|].
      simpl in Htype. destruct Htype as [<-|[<-|[<-|[]]]]; simpl in Hlen, Hnames.
      * split; [rewrite length_app in Hlen; simpl in Hlen; lia|].
        intros y. rewrite Hnames. rewrite <- app_assoc. simpl.
        rewrite !map_app. simpl. rewrite !in_app_iff. simpl. tauto.
      * split; [rewrite length_app in Hlen; simpl in Hlen; lia|].
        intros y. rewrite Hnames. rewrite app_assoc.
        rewrite !map_app. simpl. rewrite !in_app_iff. simpl. tauto.
      * split; [rewrite length_app in Hlen; simpl in Hlen; lia|].
        intros y. rewrite Hnames. rewrite app_assoc.
        rewrite !map_app. simpl. rewrite !in_app_iff. simpl. tauto.
    + simpl in Htype. destruct Htype as [<-|[<-|[<-|[]]]]; simpl.
      * split; [apply Forall_app; split; [exact Hc|repeat constructor; assumption]|].
        split; [exact Ho|]. split.
        -- rewrite map_app in Hnodup, Hfresh. rewrite !map_app. simpl.
           now apply NoDup_app_swap.
        -- intros y. rewrite elem_of_union, elem_of_singleton, Hseen.
           rewrite <- app_assoc. rewrite !map_app. simpl.
           rewrite !in_app_iff. simpl. intuition.
      * split; [exact Hc|].
        split; [apply Forall_app; split; [exact Ho|repeat constructor; assumption]|].
        split.
        -- rewrite app_assoc, map_app. simpl. apply NoDup_app.
           split; [exact Hnodup|]. split; [|repeat constructor; apply not_elem_of_nil].
           intros y Hy [->|[]%elem_of_nil]%elem_of_cons.
           now apply Hfresh, list_elem_of_In.
        -- intros y. rewrite elem_of_union, elem_of_singleton, Hseen.
           rewrite app_assoc. rewrite !map_app. simpl.
           rewrite !in_app_iff. simpl. intuition.
      * split; [exact Hc|].
        split; [apply Forall_app; split; [exact Ho|repeat constructor; assumption]|].
        split.
        -- rewrite app_assoc, map_app. simpl. apply NoDup_app.
           split; [exact Hnodup|]. split; [|repeat constructor; apply not_elem_of_nil].
           intros y Hy [->|[]%elem_of_nil]%elem_of_cons.
           now apply Hfresh, list_elem_of_In.
        -- intros y. rewrite elem_of_union, elem_of_singleton, Hseen.
           rewrite app_assoc. rewrite !map_app. simpl.
           rewrite !in_app_iff. simpl. intuition.
Qed.

(** X24. The columns that [convertColumns] returns for a JSON document:
    at least one condition column and one output column, one column for
    each column of the document and under its trimmed name, the names
    distinct across both lists, and every column accepted by
    [NewDecisionTable], which succeeds on them for every name that is not
    empty. *)
Theorem convertColumns_spec (cols : list jsonColumnSpec) (conditions outputs : list Column) :
  convertColumns cols = Loaded (conditions, outputs) ->
  conditions <> [] /\ outputs <> [] /\
  (length conditions + length outputs = length cols)%nat /\
  NoDup (List.map col_Name (conditions ++ outputs)) /\
  (forall name, In name (List.map col_Name (conditions ++ outputs)) <->
     In name (List.map (fun col => TrimSpace (jc_Name col)) cols)) /\
  Forall (column_accepted [ColumnTypeCondition]) conditions /\
  Forall (column_accepted [ColumnTypeConclusion; ColumnTypeMetadata]) outputs /\
  (forall name opts, name <> "" ->
     exists dt, NewDecisionTable name conditions outputs opts = Ok dt).
Proof.
  unfold convertColumns. intros Hconv.
  apply loaded_bind_Loaded in Hconv as ([c o] & Hloop & Hconv).
  destruct c as [|c0 c]; [discriminate|]. destruct o as [|o0 o]; [discriminate|].
  injection Hconv as <- <-.
  apply convertColumns_loop_spec in Hloop.
  2: { repeat split; try constructor.
       - intros []%elem_of_empty.
       - intros []. }
  destruct Hloop as ((seen' & Hc & Ho & Hnodup & _) & Hlen & Hnames).
  split; [discriminate|]. split; [discriminate|].
  split; [simpl in Hlen |- *; lia|]. split; [exact Hnodup|].
  split; [intros name; rewrite Hnames; simpl; tauto|].
  split; [exact Hc|]. split; [exact Ho|].
  intros name opts Hname.
  apply (proj1 (NewDecisionTable_inv name (c0 :: c) (o0 :: o) opts)).
  rewrite map_app in Hnodup. apply NoDup_app in Hnodup as (Hnc & _ & Hno).
  repeat split; try assumption; discriminate.
Qed.

(** *** The rules of a JSON document *)

Lemma format_int_nonempty n : format_int n <> "".
Proof.
  unfold format_int. destruct (Z.to_int n) as [d|d]; simpl; [|discriminate].
  now destruct d.
Qed.

Lemma ensureUniqueRuleID_spec row rowNumber ruleIDs row' ruleIDs' :
  ensureUniqueRuleID row rowNumber ruleIDs = Loaded (row', ruleIDs') ->
  RuleID row' <> "" /\ (RuleID row' ∉ ruleIDs) /\ ruleIDs' = {[ RuleID row' ]} ∪ ruleIDs /\
  (TrimSpace (RuleID row) = "" -> RuleID row' = format_int rowNumber) /\
  (TrimSpace (RuleID row) <> "" -> RuleID row' = TrimSpace (RuleID row)) /\
  EvalCells row' = EvalCells row /\ ReturnCells row' = ReturnCells row /\
  Comments row' = Comments row /\ Number row' = Number row.
Proof.
  unfold ensureUniqueRuleID.
  set (id := if TrimSpace (RuleID row) =s "" then format_int rowNumber
             else TrimSpace (RuleID row)).
  destruct (decide (id ∈ ruleIDs)) as [Hin|Hout].
  { rewrite bool_decide_eq_true_2 by exact Hin. discriminate. }
  rewrite bool_decide_eq_false_2 by exact Hout.
  intros [= <- <-]. simpl. repeat split; try exact Hout.
  - unfold id. destruct (String.eqb_spec (TrimSpace (RuleID row)) ""); [|assumption].
    apply format_int_nonempty.
  - intros Hblank. unfold id. now rewrite Hblank.
  - intros Hid. unfold id. apply String.eqb_neq in Hid. now rewrite Hid.
Qed.

Lemma convertRule_spec rule conditionCols outputCols rowNumber ruleIDs row ruleIDs' :
  convertRule rule conditionCols outputCols rowNumber ruleIDs = Loaded (row, ruleIDs') ->
  Number row = rowNumber /\ RuleID row <> "" /\ (RuleID row ∉ ruleIDs) /\
  ruleIDs' = {[ RuleID row ]} ∪ ruleIDs /\ Comments row = jr_Description rule.
Proof.
  unfold convertRule.
  destruct (negb _); [discriminate|]. destruct (negb _); [discriminate|].
  intros Hconv.
  apply loaded_bind_Loaded in Hconv as (evalCells & _ & Hconv).
  apply loaded_bind_Loaded in Hconv as (returnCells & _ & Hconv).
  apply ensureUniqueRuleID_spec in Hconv as (Hne & Hout & Hids & _ & _ & _ & _ & Hc & Hn).
  simpl in Hc, Hn. auto.
Qed.

Lemma convertDefaultRule_spec rule outputCols rowNumber ruleIDs row ruleIDs' :
  convertDefaultRule rule outputCols rowNumber ruleIDs = Loaded (row, ruleIDs') ->
  Number row = rowNumber /\ RuleID row = format_int rowNumber /\ (RuleID row ∉ ruleIDs) /\
  EvalCells row = [] /\ Comments row = jd_Description rule.
Proof.
  unfold convertDefaultRule. destruct (negb _); [discriminate|].
  intros Hconv.
  apply loaded_bind_Loaded in Hconv as (returnCells & _ & Hconv).
  apply ensureUniqueRuleID_spec in Hconv as (_ & Hout & _ & Hid & _ & He & _ & Hc & Hn).
  simpl in Hid, He, Hc, Hn. repeat split; auto.
Qed.

(** A successful [AddRow] on a numbered row. *)
Lemma AddRow_numbered dt row dt' :
  AddRow dt row = (dt', Ok tt) -> 0 < Number row ->
  exists prepared,
    rows dt' = (rows dt ++ [prepared])%list /\
    Number prepared = Number row /\ RuleID prepared = RuleID row /\
    Comments prepared = Comments row.
Proof.
  unfold AddRow. intros Hadd Hnum.
  destruct (prepareRow dt row _ _) as [prepared| |] eqn:Hprep; try discriminate.
  pose proof (prepareRow_Number _ _ _ _ _ Hprep) as Hn.
  apply prepareRow_stored in Hprep as (_ & Hid & Hc & _).
  injection Hadd as <-.
  assert (Hkeep : (Number prepared <=? 0) = false) by (apply Z.leb_gt; lia).
  rewrite Hkeep. exists prepared. simpl. auto.
Qed.

Lemma add_rules_spec idx rules conditionCols outputCols dt ruleIDs dt' ruleIDs' :
  add_rules idx rules conditionCols outputCols dt ruleIDs = Loaded (dt', ruleIDs') ->
  idx = Z.of_nat (length (rows dt)) ->
  rules_loaded dt ruleIDs ->
  registered dt dt' /\ rules_loaded dt' ruleIDs' /\
  length (rows dt') = (length (rows dt) + length rules)%nat /\
  defaultRow dt' = defaultRow dt.
Proof.
  revert idx dt ruleIDs. induction rules as [|rule rest IH]; intros idx dt ruleIDs; simpl.
  - intros [= <- <-] _ Hinv. split; [constructor|]. split; [exact Hinv|]. split; [lia|reflexivity].
  - intros Hadd Hidx (Hnum & Hnodup & Hids).
    apply loaded_bind_Loaded in Hadd as ([row ids] & Hconv%load_wrap_Loaded & Hadd).
    apply convertRule_spec in Hconv as (Hn & Hne & Hout & -> & _).
    destruct (AddRow dt row) as [dt1 added] eqn:Hrow.
    apply loaded_bind_Loaded in Hadd as ([] & Hok%load_wrap_Loaded%of_table_Loaded & Hadd).
    subst added.
    pose proof Hrow as Hreg.
    apply AddRow_numbered in Hrow as (prepared & Hrows & Hpn & Hpid & _); [|lia].
    apply IH in Hadd.
    + destruct Hadd as (Hreg' & Hinv' & Hlen & Hdef).
      split; [|split; [exact Hinv'|split]].
      * clear - Hreg Hreg'. replace dt1 with (fst (AddRow dt row)) in Hreg' by now rewrite Hreg.
        induction Hreg' as [|d r _ IHr|d r _ IHr].
        -- now apply registered_AddRow, registered_start.
        -- now apply registered_AddRow.
        -- now apply registered_SetDefaultRow.
      * rewrite Hrows, length_app in Hlen. simpl in Hlen. lia.
      * rewrite Hdef. destruct (AddRow_frame dt row) as (_ & _ & _ & Hd & _).
        now rewrite Hreg in Hd.
    + rewrite Hrows, length_app. simpl. lia.
    + unfold rules_loaded. rewrite Hrows. split; [|split].
      * rewrite length_app, Nat.add_comm. simpl length. rewrite seq_S, !map_app, Hnum.
        simpl. rewrite Hpn, Hn. do 2 f_equal. lia.
      * rewrite map_app. simpl. apply NoDup_app. split; [exact Hnodup|].
        split; [|repeat constructor; apply not_elem_of_nil].
        intros y Hy [->|[]%elem_of_nil]%elem_of_cons.
        apply list_elem_of_In, in_map_iff in Hy as (r & Hr & Hin).
        rewrite List.Forall_forall in Hids. destruct (Hids r Hin) as [_ Hseen].
        rewrite Hr, Hpid in Hseen. contradiction.
      * apply Forall_app. split.
        -- eapply List.Forall_impl; [|exact Hids]. intros r [Hr Hin]. split; [exact Hr|].
           apply elem_of_union. now right.
        -- repeat constructor; rewrite Hpid; [exact Hne|].
           apply elem_of_union. left. now apply elem_of_singleton.
Qed.

Lemma NewDecisionTable_policies name conditionCols outputCols mp nmp dt :
  NewDecisionTable name conditionCols outputCols
    [Some (WithMatchPolicy mp); Some (WithNoMatchPolicy nmp)] = Ok dt ->
  Name dt = name /\ matchPolicy dt = mp /\ noMatchPolicy dt = nmp /\
  rowValidation dt = RowValidationStrict /\ rows dt = [] /\ defaultRow dt = None.
Proof.
  unfold NewDecisionTable.
  destruct (name =s ""); [discriminate|].
  destruct (_ =? _)%nat; [discriminate|]. destruct (_ =? _)%nat; [discriminate|].
  destruct (buildColumnMap conditionCols _); try discriminate.
  destruct (buildColumnMap outputCols _); try discriminate.
  simpl. intros [= <-]. repeat split.
Qed.

Lemma SetDefaultRow_numbered dt row dt' :
  SetDefaultRow dt row = (dt', Ok tt) -> 0 < Number row ->
  rows dt' = rows dt /\
  exists d, defaultRow dt' = Some d /\ Number d = Number row /\ RuleID d = RuleID row /\
            Comments d = Comments row /\ EvalCells d = [].
Proof.
  unfold SetDefaultRow. intros Hset Hnum.
  destruct (_ && _); [discriminate|].
  destruct (EvalCells row) as [|cell cells] eqn:Hcells; [|discriminate]. simpl in Hset.
  destruct (prepareRow dt row false true) as [prepared| |] eqn:Hprep; try discriminate.
  pose proof (prepareRow_Number _ _ _ _ _ Hprep) as Hn.
  apply prepareRow_stored in Hprep as (_ & Hid & Hc & _ & _ & Hlen & _).
  injection Hset as <-.
  assert (Hkeep : (Number prepared <=? 0) = false) by (apply Z.leb_gt; lia).
  rewrite Hkeep. split; [reflexivity|]. exists prepared. simpl.
  rewrite Hcells in Hlen. repeat split; auto. now destruct (EvalCells prepared).
Qed.

(** X25. The table that [buildDecisionTable] returns for a JSON document:
    it has the policies of the document and strict row validation, was
    built by [NewDecisionTable], [AddRow] and [SetDefaultRow] on the columns
    of the document, and has one row for each rule, numbered from 1 in the
    order of the document, under rule ids that are not empty and pairwise
    distinct. It has a default row exactly when the document has a default
    rule, always under RETURN_DEFAULT; the default row is numbered one
    beyond the rules, takes that number as its rule id, which is the id of
    no rule, and has no conditions. *)
Theorem buildDecisionTable_spec (spec : jsonDecisionTableSpec) (sourceName : string)
    (dt : DecisionTable) :
  buildDecisionTable spec sourceName = Loaded dt ->
  let n := length (js_Rules spec) in
  parseMatchPolicyString (jp_MatchPolicy (js_Policies spec)) = Loaded (matchPolicy dt) /\
  parseNoMatchPolicyString (jp_NoMatchPolicy (js_Policies spec)) = Loaded (noMatchPolicy dt) /\
  rowValidation dt = RowValidationStrict /\
  (exists conditionCols outputCols opts dt0,
     convertColumns (js_Columns spec) = Loaded (conditionCols, outputCols) /\
     NewDecisionTable (Name dt) conditionCols outputCols opts = Ok dt0 /\
     Forall package_option opts /\ registered dt0 dt) /\
  RowCount dt = Z.of_nat n /\ (0 < n)%nat /\
  List.map Number (Rows dt) = List.map Z.of_nat (seq 1 n) /\
  NoDup (List.map RuleID (Rows dt)) /\
  Forall (fun r => RuleID r <> "") (Rows dt) /\
  (js_DefaultRule spec = None <-> defaultRow dt = None) /\
  (noMatchPolicy dt = NoMatchPolicyReturnDefault -> defaultRow dt <> None) /\
  (forall d, defaultRow dt = Some d ->
     Number d = Z.of_nat n + 1 /\ RuleID d = format_int (Z.of_nat n + 1) /\
     ~ In (RuleID d) (List.map RuleID (Rows dt)) /\ EvalCells d = []).
Proof.
  unfold buildDecisionTable.
  destruct (length (js_Columns spec) =? 0)%nat; [discriminate|].
  destruct (js_Rules spec) as [|rule0 rules0] eqn:Hrules; [discriminate|].
  rewrite <- Hrules.
  replace (length (js_Rules spec) =? 0)%nat with false by now rewrite Hrules.
  assert (Hpos : (0 < length (js_Rules spec))%nat) by (rewrite Hrules; simpl; lia).
  clear Hrules rule0 rules0.
  destruct (_ =s ""); [discriminate|]. destruct (_ =s ""); [discriminate|].
  intros Hload.
  apply loaded_bind_Loaded in Hload as (mp & Hmp & Hload).
  apply loaded_bind_Loaded in Hload as (nmp & Hnmp & Hload).
  apply loaded_bind_Loaded in Hload as ([conditionCols outputCols] & Hcols & Hload).
  apply loaded_bind_Loaded in Hload as (dt0 & Hnew%of_table_Loaded & Hload).
  apply loaded_bind_Loaded in Hload as ([dt1 ruleIDs] & Hadd & Hload).
  pose proof (NewDecisionTable_policies _ _ _ _ _ _ Hnew)
    as (Hname & Hmp0 & Hnmp0 & Hrv0 & Hrows0 & Hdef0).
  apply add_rules_spec in Hadd as (Hreg1 & (Hnum & Hnodup & Hids) & Hlen & Hdef1).
  2: now rewrite Hrows0.
  2: { unfold rules_loaded. rewrite Hrows0. repeat split; constructor. }
  rewrite Hrows0 in Hlen. simpl in Hlen.
  destruct (registered_frame dt0 dt1 Hreg1)
    as (Hname1 & _ & _ & Hmp1 & Hnmp1 & Hrv1 & _).
  assert (Hopts : Forall package_option
                    [Some (WithMatchPolicy mp); Some (WithNoMatchPolicy nmp)])
    by (repeat constructor).
  assert (Hnonempty : Forall (fun r => RuleID r <> "") (rows dt1))
    by (eapply List.Forall_impl; [|exact Hids]; now intros r [Hr _]).
  cbv zeta.
  destruct (js_DefaultRule spec) as [rule|].
  - apply loaded_bind_Loaded in Hload as ([drow ruleIDs'] & Hconv & Hload).
    apply convertDefaultRule_spec in Hconv as (Hn & Hid & Hout & Hcells & _).
    destruct (SetDefaultRow dt1 drow) as [dt2 set] eqn:Hset.
    apply loaded_bind_Loaded in Hload as ([] & Hok%of_table_Loaded & [= <-]). subst set.
    pose proof Hset as Hstep.
    apply SetDefaultRow_numbered in Hset as (Hrows2 & d & Hd & Hdn & Hdid & _ & Hde); [|lia].
    destruct (SetDefaultRow_frame dt1 drow) as (Hname2 & _ & _ & _ & Hmp2 & Hnmp2 & Hrv2).
    rewrite Hstep in Hname2, Hmp2, Hnmp2, Hrv2. simpl in Hname2, Hmp2, Hnmp2, Hrv2.
    unfold Rows, RowCount. rewrite Hrows2. rewrite Hlen at 1.
    split; [congruence|]. split; [congruence|]. split; [congruence|].
    split.
    { exists conditionCols, outputCols, [Some (WithMatchPolicy mp); Some (WithNoMatchPolicy nmp)], dt0.
      split; [exact Hcols|]. split; [congruence|]. split; [exact Hopts|].
      replace dt2 with (fst (SetDefaultRow dt1 drow)) by now rewrite Hstep.
      now apply registered_SetDefaultRow. }
    split; [reflexivity|]. split; [exact Hpos|].
    split; [rewrite <- Hlen; exact Hnum|]. split; [exact Hnodup|]. split; [exact Hnonempty|].
    split; [split; intros; congruence|]. split; [congruence|].
    intros d' Hd'. rewrite Hd in Hd'. injection Hd' as <-.
    rewrite Hdn, Hdid, Hn, Hid. repeat split; try assumption.
    intros Hin. apply in_map_iff in Hin as (r & Hr & Hin).
    rewrite List.Forall_forall in Hids. destruct (Hids r Hin) as [_ Hseen].
    rewrite Hr, <- Hid in Hseen. contradiction.
  - destruct (Z.eqb_spec nmp NoMatchPolicyReturnDefault) as [Hret|Hret]; [discriminate|].
    injection Hload as <-.
    unfold Rows, RowCount. rewrite Hlen at 1.
    split; [congruence|]. split; [congruence|]. split; [congruence|].
    split.
    { exists conditionCols, outputCols, [Some (WithMatchPolicy mp); Some (WithNoMatchPolicy nmp)], dt0.
      split; [exact Hcols|]. split; [congruence|]. split; [exact Hopts|exact Hreg1]. }
    split; [reflexivity|]. split; [exact Hpos|].
    split; [rewrite <- Hlen; exact Hnum|]. split; [exact Hnodup|]. split; [exact Hnonempty|].
    split; [split; intros; congruence|]. split; [congruence|].
    intros d Hd. congruence.
Qed.

End Loaders.

Section Workbooks.
Context `{GoLibrary} `{GoStrings}.

(** *** Conditions of a workbook *)

Lemma cut_at_space_spec value opToken rest :
  cut_at_space value = Some (opToken, rest) ->
  value = (opToken ++ " " ++ rest)%string /\
  Forall (fun c => c <> " "%char) (list_ascii_of_string opToken).
Proof.
  revert opToken. induction value as [|c r IH]; intros opToken; simpl; [discriminate|].
  destruct (Ascii.eqb_spec c " ") as [->|Hc].
  - intros [= <- <-]. split; [reflexivity|constructor].
  - destruct (cut_at_space r) as [[token rest']|]; [|discriminate].
    intros [= <- <-]. destruct (IH token eq_refl) as [-> Hall].
    split; [reflexivity|]. simpl. now constructor.
Qed.

Lemma parseConditionString_fields value dt op operand :
  parseConditionString value dt = Loaded (op, operand) ->
  exists opToken rest,
    value = (opToken ++ " " ++ rest)%string /\ opToken <> "" /\
    Forall (fun c => c <> " "%char) (list_ascii_of_string opToken) /\
    parseOperatorToken opToken = Loaded op /\ In op excel_operators /\
    if requiresCollectionValue op
    then exists values,
           operand = VStrings values /\
           splitAndDedupeList (TrimSpace rest) = Loaded values /\
           values <> [] /\ NoDup values /\ Forall (fun x => x <> "") values
    else operand = VString (TrimSpace rest) /\ TrimSpace rest <> "".
Proof.
  unfold parseConditionString.
  destruct (cut_at_space value) as [[opToken rest]|] eqn:Hcut; [|discriminate].
  apply cut_at_space_spec in Hcut as [-> Htoken].
  destruct (String.eqb_spec opToken "") as [|Hne]; [discriminate|].
  destruct (String.eqb_spec (TrimSpace rest) "") as [|Hoperand]; [discriminate|].
  intros Hparse. apply loaded_bind_Loaded in Hparse as (op' & Hop & Hparse).
  exists opToken, rest.
  destruct (requiresCollectionValue op') eqn:Hcoll.
  - apply loaded_bind_Loaded in Hparse as (values & Hvalues & [= <- <-]).
    rewrite Hcoll. repeat split; try assumption.
    { now apply parseOperatorToken_operators in Hop. }
    exists values. destruct (splitAndDedupeList_kept _ _ Hvalues) as (Hsome & Hnodup & Hin).
    repeat split; try assumption.
    apply List.Forall_forall. intros x Hx. now apply Hin in Hx as [Hx _].
  - injection Hparse as <- <-. rewrite Hcoll. repeat split; try assumption.
    now apply parseOperatorToken_operators in Hop.
Qed.

(** X26. A condition of a workbook is an operator token, a space and an
    operand: [parseConditionString] splits the text at its first space,
    the token before it, which is not empty, names one of the operators of
    the workbook loader, and the operand is the trimmed rest, which is not
    empty: as a string for an operator on one value, and for an operator
    that takes a collection as the list of its comma-separated values,
    trimmed, not empty and without repetitions. *)
Theorem parseConditionString_spec (value : string) (dt : DataType) (op : OperatorType)
    (operand : any) :
  parseConditionString value dt = Loaded (op, operand) ->
  exists opToken rest,
    value = (opToken ++ " " ++ rest)%string /\ opToken <> "" /\
    Forall (fun c => c <> " "%char) (list_ascii_of_string opToken) /\
    parseOperatorToken opToken = Loaded op /\ In op excel_operators /\
    if requiresCollectionValue op
    then exists values,
           operand = VStrings values /\
           splitAndDedupeList (TrimSpace rest) = Loaded values /\
           values <> [] /\ NoDup values /\ Forall (fun x => x <> "") values
    else operand = VString (TrimSpace rest) /\ TrimSpace rest <> "".
Proof. exact (parseConditionString_fields value dt op operand). Qed.

(** *** Columns of a workbook *)

Lemma find_last_column_spec f count col lastCol :
  find_last_column f count col = Loaded lastCol -> 0 < col -> lastCol <> 0 ->
  col <= lastCol < col + Z.of_nat count /\
  (forall c, col <= c < lastCol ->
     exists value, GetCellValue f c excelColumnMarkerRow = Loaded value /\
                   TrimSpace value = "") /\
  column_marker f lastCol "Last Column".
Proof.
  revert col. induction count as [|count IH]; intros col; simpl.
  { intros [= <-] _ Hne. contradiction. }
  intros Hfind Hcol Hne.
  apply loaded_bind_Loaded in Hfind as (value & Hvalue & Hfind).
  destruct (String.eqb_spec (TrimSpace value) "") as [Hblank|Htext].
  - destruct (IH _ Hfind) as (Hrange & Hblanks & Hmarker); [lia|exact Hne|].
    split; [lia|]. split; [|exact Hmarker].
    intros c Hc. destruct (Z.eq_dec c col) as [->|Hother]; [eauto|].
    apply Hblanks. lia.
  - destruct (EqualFold (TrimSpace value) "Last Column") eqn:Hfold; [|discriminate].
    injection Hfind as <-. split; [lia|]. split; [intros c Hc; lia|].
    exists value. auto.
Qed.

Lemma read_columns_spec f count first col layout seen layout' :
  read_columns f count col layout seen = Loaded layout' ->
  col = first + Z.of_nat (length (Ordered layout)) ->
  columns_read layout seen ->
  (forall i column, nth_error (Ordered layout) i = Some column ->
     column_of_sheet f (first + Z.of_nat i) column) ->
  (exists seen', columns_read layout' seen') /\
  length (Ordered layout') = (length (Ordered layout) + count)%nat /\
  (forall i column, nth_error (Ordered layout') i = Some column ->
     column_of_sheet f (first + Z.of_nat i) column).
Proof.
  revert col layout seen. induction count as [|count IH]; intros col layout seen; simpl.
  { intros [= <-] _ Hinv Hcells. split; [now exists seen|]. split; [lia|exact Hcells]. }
  intros Hread Hcol (Hc & Ho & Hnodup & Hseen & Hvalid) Hcells.
  apply loaded_bind_Loaded in Hread as (rawName & Hname & Hread).
  destruct (String.eqb_spec (TrimSpace rawName) "") as [|Hne]; [discriminate|].
  set (name := TrimSpace rawName) in *.
  destruct (decide (name ∈ seen)) as [Hin|Hout].
  { rewrite bool_decide_eq_true_2 in Hread by exact Hin. discriminate. }
  rewrite bool_decide_eq_false_2 in Hread by exact Hout.
  apply loaded_bind_Loaded in Hread as (typeRaw & Htype & Hread).
  apply loaded_bind_Loaded in Hread as (colType & Hkind%load_wrap_Loaded & Hread).
  apply loaded_bind_Loaded in Hread as (dataTypeRaw & Hdata & Hread).
  apply loaded_bind_Loaded in Hread as (dataType & Hdt%load_wrap_Loaded & Hread).
  pose proof (parseColumnTypeString_kinds _ _ Hkind) as Hkinds.
  pose proof (parseDataTypeString_valid _ _ Hdt) as Hdtvalid.
  pose proof (validate_accepts name colType dataType Hne Hkinds Hdtvalid) as Haccept.
  apply IH in Hread.
  - destruct Hread as (Hinv' & Hlen & Hcells'). split; [exact Hinv'|].
    split; [|exact Hcells']. simpl in Hlen. rewrite length_app in Hlen. simpl in Hlen. lia.
  - simpl. rewrite length_app. simpl. lia.
  - unfold columns_read. cbn [Conditions Outputs Ordered]. split; [|split; [|split; [|split]]].
    + rewrite List.filter_app, <- Hc. cbn [List.filter]. unfold is_condition.
      cbn [col_Type].
      destruct (colType =s ColumnTypeCondition); [reflexivity|now rewrite app_nil_r].
    + rewrite List.filter_app, <- Ho. cbn [List.filter]. unfold is_output, one_of.
      cbn [col_Type existsb].
      destruct (_ || _); [reflexivity|now rewrite app_nil_r].
    + rewrite map_app. simpl. apply NoDup_app. split; [exact Hnodup|].
      split; [|repeat constructor; apply not_elem_of_nil].
      intros y Hy [->|[]%elem_of_nil]%elem_of_cons.
      apply Hout, Hseen. now apply list_elem_of_In.
    + intros y. rewrite elem_of_union, elem_of_singleton, Hseen, map_app, in_app_iff.
      simpl. intuition.
    + apply Forall_app. split; [exact Hvalid|].
      constructor; [|constructor]. split; [exact Haccept|exact Hkinds].
  - simpl. intros i column Hi.
    destruct (decide (i < length (Ordered layout))%nat) as [Hlt|Hge].
    + rewrite nth_error_app1 in Hi by exact Hlt. now apply Hcells.
    + rewrite nth_error_app2 in Hi by lia.
      destruct (i - length (Ordered layout))%nat as [|k] eqn:Hk; [|now destruct k].
      injection Hi as <-. replace i with (length (Ordered layout)) by lia.
      rewrite <- Hcol. exists rawName, typeRaw, dataTypeRaw. simpl.
      repeat split; assumption || reflexivity.
Qed.

Lemma filter_accepted (allowed : Column -> bool) (allowedTypes : list string) l :
  (forall c, allowed c = one_of (col_Type c) allowedTypes) ->
  Forall (fun c => validate c = Ok tt /\
                   In (col_Type c) [ColumnTypeCondition; ColumnTypeConclusion;
                                    ColumnTypeMetadata]) l ->
  Forall (column_accepted allowedTypes) (List.filter allowed l).
Proof.
  intros Hallowed Hl. apply List.Forall_forall. intros c Hc.
  apply filter_In in Hc as [Hin Hkind]. rewrite List.Forall_forall in Hl.
  destruct (Hl c Hin) as [Hvalid _]. split; [exact Hvalid|]. now rewrite <- Hallowed.
Qed.

Lemma NoDup_map_filter {A B : Type} (g : A -> B) (keep : A -> bool) (l : list A) :
  NoDup (List.map g l) -> NoDup (List.map g (List.filter keep l)).
Proof.
  induction l as [|x l IH]; simpl; [auto|]. intros Hnodup.
  apply NoDup_cons in Hnodup as [Hx Hl]. destruct (keep x); [|auto].
  simpl. apply NoDup_cons. split; [|auto].
  intros Hin. apply Hx. apply list_elem_of_In. apply list_elem_of_In in Hin.
  apply in_map_iff in Hin as (y & Hy & Hin). apply filter_In in Hin as [Hin _].
  apply in_map_iff. eauto.
Qed.

Lemma readExcelColumns_inv (f : Workbook) (layout : excelColumnLayout)
    (firstCol lastCol : Z) :
  readExcelColumns f = Loaded (layout, firstCol, lastCol) ->
  firstCol = excelFirstColumn /\
  firstCol < lastCol < firstCol + excelMaxColumns /\
  column_marker f firstCol "First Column" /\
  (forall c, firstCol < c < lastCol ->
     exists value, GetCellValue f c excelColumnMarkerRow = Loaded value /\
                   TrimSpace value = "") /\
  column_marker f lastCol "Last Column" /\
  Z.of_nat (length (Ordered layout)) = lastCol - firstCol + 1 /\
  (forall i column, nth_error (Ordered layout) i = Some column ->
     column_of_sheet f (firstCol + Z.of_nat i) column) /\
  NoDup (List.map col_Name (Ordered layout)) /\
  Conditions layout = List.filter is_condition (Ordered layout) /\
  Outputs layout = List.filter is_output (Ordered layout) /\
  Conditions layout <> [] /\ Outputs layout <> [] /\
  (forall name opts, name <> "" ->
     exists dt, NewDecisionTable name (Conditions layout) (Outputs layout) opts = Ok dt).
Proof.
  unfold readExcelColumns. intros Hread.
  apply loaded_bind_Loaded in Hread as (marker & Hmarker & Hread).
  destruct (EqualFold (TrimSpace marker) "First Column") eqn:Hfirst; [|discriminate].
  cbn [negb] in Hread.
  apply loaded_bind_Loaded in Hread as (last & Hlast & Hread).
  destruct (Z.eqb_spec last 0) as [|Hfound]; [discriminate|].
  apply find_last_column_spec in Hlast as (Hrange & Hblanks & Hlastmarker);
    [|reflexivity|exact Hfound].
  apply loaded_bind_Loaded in Hread as (read & Hcolumns & Hread).
  destruct (Conditions read) as [|c0 cs] eqn:Hconditions; [discriminate|].
  destruct (Outputs read) as [|o0 os] eqn:Houtputs; [discriminate|].
  cbn [length Nat.eqb orb] in Hread. injection Hread as <- <- <-.
  apply (read_columns_spec _ _ excelFirstColumn) in Hcolumns
    as ((seen & Hc & Ho & Hnodup & _ & Hvalid) & Hlen & Hcells).
  2: reflexivity.
  2: { repeat split; try constructor.
       - intros []%elem_of_empty.
       - intros []. }
  2: { intros [|i] column Hi; discriminate. }
  cbn [Ordered length Nat.add] in Hlen.
  split; [reflexivity|]. split; [unfold excelMaxColumns, excelFirstColumn in *; lia|].
  split; [now exists marker|]. split; [intros c Hc'; apply Hblanks; unfold excelFirstColumn in *; lia|].
  split; [exact Hlastmarker|].
  split; [rewrite Hlen; unfold excelFirstColumn in *; lia|].
  split; [exact Hcells|]. split; [exact Hnodup|].
  split; [exact Hc|]. split; [exact Ho|].
  split; [rewrite Hconditions; discriminate|]. split; [rewrite Houtputs; discriminate|].
  intros name opts Hname.
  apply (proj1 (NewDecisionTable_inv name (Conditions read) (Outputs read) opts)).
  split; [exact Hname|]. split; [rewrite Hconditions; discriminate|].
  split; [rewrite Houtputs; discriminate|].
  rewrite Hc, Ho.
  split; [apply filter_accepted; [|exact Hvalid]|].
  { intros c. unfold is_condition, one_of. simpl. now rewrite orb_false_r. }
  split; [now apply NoDup_map_filter|].
  split; [apply filter_accepted; [|exact Hvalid]; reflexivity|].
  now apply NoDup_map_filter.
Qed.

(** X28. The columns that [readExcelColumns] returns for a sheet: the
    marker row holds First Column in column B and Last Column in a later
    column, with blank cells between them, and there is one column of the
    table for each column of the sheet from the one to the other, both
    included, with its name, kind and DataType read from the rows 6, 7 and
    8. The names are distinct, the condition columns and the output columns
    are the columns of these kinds in the order of the sheet, there is at
    least one of each, and [NewDecisionTable] succeeds on them for every
    name that is not empty. *)
Theorem readExcelColumns_spec (f : Workbook) (layout : excelColumnLayout)
    (firstCol lastCol : Z) :
  readExcelColumns f = Loaded (layout, firstCol, lastCol) ->
  firstCol = excelFirstColumn /\
  firstCol < lastCol < firstCol + excelMaxColumns /\
  column_marker f firstCol "First Column" /\
  (forall c, firstCol < c < lastCol ->
     exists value, GetCellValue f c excelColumnMarkerRow = Loaded value /\
                   TrimSpace value = "") /\
  column_marker f lastCol "Last Column" /\
  Z.of_nat (length (Ordered layout)) = lastCol - firstCol + 1 /\
  (forall i column, nth_error (Ordered layout) i = Some column ->
     column_of_sheet f (firstCol + Z.of_nat i) column) /\
  NoDup (List.map col_Name (Ordered layout)) /\
  Conditions layout = List.filter is_condition (Ordered layout) /\
  Outputs layout = List.filter is_output (Ordered layout) /\
  Conditions layout <> [] /\ Outputs layout <> [] /\
  (forall name opts, name <> "" ->
     exists dt, NewDecisionTable name (Conditions layout) (Outputs layout) opts = Ok dt).
Proof. exact (readExcelColumns_inv f layout firstCol lastCol). Qed.

(** *** Rows of a workbook *)

Lemma convert_cells_Number f layout firstCol rowIdx count col row row' :
  convert_cells f layout firstCol rowIdx count col row = Loaded row' ->
  Number row' = Number row.
Proof.
  revert col row. induction count as [|count IH]; intros col row; simpl.
  { now intros [= <-]. }
  destruct (_ || _); [discriminate|].
  destruct (nth_error _ _) as [column|]; [|discriminate].
  intros Hrow. apply loaded_bind_Loaded in Hrow as (rawValue & _ & Hrow).
  destruct (col_Type column =s ColumnTypeCondition).
  - destruct (TrimSpace rawValue =s ""); [now apply IH in Hrow|].
    apply loaded_bind_Loaded in Hrow as ([op operand] & _ & Hrow).
    apply IH in Hrow. exact Hrow.
  - destruct (_ || _); apply IH in Hrow; exact Hrow.
Qed.

Lemma convertExcelRow_spec f layout firstCol lastCol rowIdx rowNumber ruleIDs row ruleIDs' :
  convertExcelRow f layout firstCol lastCol rowIdx rowNumber ruleIDs = Loaded (row, ruleIDs') ->
  Number row = rowNumber /\ RuleID row <> "" /\ (RuleID row ∉ ruleIDs) /\
  ruleIDs' = {[ RuleID row ]} ∪ ruleIDs.
Proof.
  unfold convertExcelRow. intros Hrow.
  apply loaded_bind_Loaded in Hrow as (cells & Hcells & Hrow).
  apply convert_cells_Number in Hcells. simpl in Hcells.
  set (id := if RuleID cells =s "" then format_int rowNumber else RuleID cells) in Hrow.
  destruct (decide (id ∈ ruleIDs)) as [Hin|Hout].
  { rewrite bool_decide_eq_true_2 in Hrow by exact Hin. discriminate. }
  rewrite bool_decide_eq_false_2 in Hrow by exact Hout.
  injection Hrow as <- <-. simpl. repeat split; try assumption.
  unfold id. destruct (String.eqb_spec (RuleID cells) ""); [|assumption].
  apply format_int_nonempty.
Qed.

Lemma rows_read_append rows ruleIDs row :
  rows_read rows ruleIDs ->
  Number row = Z.of_nat (length rows) + 1 -> RuleID row <> "" -> RuleID row ∉ ruleIDs ->
  rows_read (rows ++ [row]) ({[ RuleID row ]} ∪ ruleIDs).
Proof.
  intros (Hnum & Hnodup & Hids) Hn Hne Hout. split; [|split].
  - rewrite length_app, Nat.add_comm. simpl length. rewrite seq_S, !map_app, Hnum.
    simpl. rewrite Hn. do 2 f_equal. lia.
  - rewrite map_app. simpl. apply NoDup_app. split; [exact Hnodup|].
    split; [|repeat constructor; apply not_elem_of_nil].
    intros y Hy [->|[]%elem_of_nil]%elem_of_cons.
    apply list_elem_of_In, in_map_iff in Hy as (r & Hr & Hin).
    rewrite List.Forall_forall in Hids. destruct (Hids r Hin) as [_ Hseen].
    rewrite Hr in Hseen. contradiction.
  - apply Forall_app. split.
    + eapply List.Forall_impl; [|exact Hids]. intros r [Hr Hin]. split; [exact Hr|].
      apply elem_of_union. now right.
    + repeat constructor; [exact Hne|].
      apply elem_of_union. left. now apply elem_of_singleton.
Qed.

Lemma read_rows_spec f layout firstCol lastCol count first rowIdx rowNumber rows ruleIDs
    rows' defaultRow :
  read_rows f layout firstCol lastCol count rowIdx rowNumber rows ruleIDs =
    Loaded (rows', Some defaultRow) ->
  rowNumber = Z.of_nat (length rows) -> rowIdx = first + Z.of_nat (length rows) ->
  rows_read rows ruleIDs ->
  (forall i, (i < length rows)%nat -> default_marker f (first + Z.of_nat i) false) ->
  exists ruleIDs',
    rows_read rows' ruleIDs' /\
    (length rows' < length rows + count)%nat /\
    (forall i, (i < length rows')%nat -> default_marker f (first + Z.of_nat i) false) /\
    default_marker f (first + Z.of_nat (length rows')) true /\
    Number defaultRow = Z.of_nat (length rows') + 1 /\ EvalCells defaultRow = [] /\
    RuleID defaultRow <> "" /\ RuleID defaultRow ∉ ruleIDs'.
Proof.
  revert rowIdx rowNumber rows ruleIDs.
  induction count as [|count IH]; intros rowIdx rowNumber rows ruleIDs; simpl; [discriminate|].
  intros Hread Hnumber Hidx Hinv Hmarkers.
  apply loaded_bind_Loaded in Hread as ([row ids] & Hrow & Hread).
  apply convertExcelRow_spec in Hrow as (Hn & Hne & Hout & ->).
  apply loaded_bind_Loaded in Hread as (markerCell & Hcell & Hread).
  destruct (EqualFold (TrimSpace markerCell) "Default Row") eqn:Hmarker.
  - destruct (EvalCells row) as [|cell cells] eqn:Hcells; [|discriminate].
    simpl in Hread. injection Hread as <- <-.
    exists ruleIDs. split; [exact Hinv|]. split; [lia|]. split; [exact Hmarkers|].
    split; [exists markerCell; now rewrite <- Hidx|].
    split; [lia|]. auto.
  - destruct (IH _ _ _ _ Hread) as (ruleIDs' & Hinv' & Hlen & Hrest).
    + rewrite length_app. simpl. lia.
    + rewrite length_app. simpl. lia.
    + apply rows_read_append; auto. lia.
    + intros i Hi. rewrite length_app in Hi. simpl in Hi.
      destruct (decide (i < length rows)%nat) as [Hlt|Hge]; [now apply Hmarkers|].
      replace i with (length rows) by lia. exists markerCell. now rewrite <- Hidx.
    + exists ruleIDs'. split; [exact Hinv'|]. split; [|exact Hrest].
      rewrite length_app in Hlen. simpl in Hlen. lia.
Qed.

(** *** The table of a workbook *)

Lemma registered_trans dt0 dt1 dt2 :
  registered dt0 dt1 -> registered dt1 dt2 -> registered dt0 dt2.
Proof.
  intros H01 H12. induction H12 as [|dt row _ IH|dt row _ IH]; [exact H01| |].
  - now apply registered_AddRow.
  - now apply registered_SetDefaultRow.
Qed.

Lemma add_rows_spec idx l dt dt' :
  add_rows idx l dt = Loaded dt' ->
  Forall (fun r => 0 < Number r) l ->
  registered dt dt' /\
  (exists prepared,
     rows dt' = (rows dt ++ prepared)%list /\
     List.map Number prepared = List.map Number l /\
     List.map RuleID prepared = List.map RuleID l) /\
  defaultRow dt' = defaultRow dt.
Proof.
  revert idx dt. induction l as [|row rest IH]; intros idx dt; simpl.
  - intros [= <-] _. split; [constructor|]. split; [|reflexivity].
    exists []. now rewrite app_nil_r.
  - intros Hadd Hpos. inversion Hpos as [|? ? Hrow Hrest]; subst.
    destruct (AddRow dt row) as [dt1 added] eqn:Hadded.
    apply loaded_bind_Loaded in Hadd as ([] & Hok%load_wrap_Loaded%of_table_Loaded & Hadd).
    subst added.
    destruct (IH _ _ Hadd Hrest) as (Hreg & (prepared & Hrows & Hnum & Hids) & Hdef).
    pose proof (registered_AddRow dt dt row (registered_start dt)) as Hstep.
    rewrite Hadded in Hstep. simpl in Hstep.
    destruct (AddRow_frame dt row) as (_ & _ & _ & Hd & _).
    rewrite Hadded in Hd. simpl in Hd.
    apply AddRow_numbered in Hadded as (first & Hfirst & Hn & Hid & _); [|exact Hrow].
    split; [exact (registered_trans _ _ _ Hstep Hreg)|]. split; [|congruence].
    exists (first :: prepared). rewrite Hrows, Hfirst, <- app_assoc. simpl.
    now rewrite Hn, Hid, Hnum, Hids.
Qed.

Lemma expectLabelAndValue_spec f row label value :
  expectLabelAndValue f row label = Loaded value ->
  GetCellValue f 2 row = Loaded value /\ TrimSpace value <> "" /\
  exists labelCell,
    GetCellValue f 1 row = Loaded labelCell /\ EqualFold (TrimSpace labelCell) label = true.
Proof.
  unfold expectLabelAndValue. intros Hvalue.
  apply loaded_bind_Loaded in Hvalue as (labelCell & Hlabel%load_wrap_Loaded & Hvalue).
  destruct (EqualFold (TrimSpace labelCell) label) eqn:Hfold; [|discriminate]. simpl in Hvalue.
  apply loaded_bind_Loaded in Hvalue as (cell & Hcell%load_wrap_Loaded & Hvalue).
  destruct (String.eqb_spec (TrimSpace cell) "") as [|Hne]; [discriminate|].
  injection Hvalue as <-. eauto.
Qed.

Lemma rows_read_positive l ruleIDs : rows_read l ruleIDs -> Forall (fun r => 0 < Number r) l.
Proof.
  intros (Hnum & _). apply List.Forall_forall. intros r Hr.
  apply (in_map Number) in Hr. rewrite Hnum in Hr.
  apply in_map_iff in Hr as (i & <- & Hi%in_seq). lia.
Qed.

(** X27. The table that [loadExcelWorkbook] returns for a workbook: it has
    the given name, the policies of the cells B2 and B3 and strict row
    validation, and was built by [NewDecisionTable], [AddRow] and
    [SetDefaultRow] on the columns that [readExcelColumns] returns. Its
    rows are the rows of the sheet from row 9 up to the row that carries
    the Default Row marker, fewer than 10000, numbered from 1 in the order of
    the sheet, under rule ids that are not empty and pairwise distinct. The
    marked row is the default row of the table exactly under RETURN_DEFAULT;
    it is numbered one beyond the rows, has no conditions and a rule id that
    is the id of no row. *)
Theorem loadExcelWorkbook_spec (name : string) (f : Workbook) (dt : DecisionTable) :
  loadExcelWorkbook name f = Loaded dt ->
  let n := length (Rows dt) in
  Name dt = name /\
  (exists raw, GetCellValue f 2 excelMatchPolicyRow = Loaded raw /\
               parseMatchPolicyString raw = Loaded (matchPolicy dt)) /\
  (exists raw, GetCellValue f 2 excelNoMatchRow = Loaded raw /\
               parseNoMatchPolicyString raw = Loaded (noMatchPolicy dt)) /\
  rowValidation dt = RowValidationStrict /\
  (exists layout lastCol opts dt0,
     readExcelColumns f = Loaded (layout, excelFirstColumn, lastCol) /\
     NewDecisionTable name (Conditions layout) (Outputs layout) opts = Ok dt0 /\
     Forall package_option opts /\ registered dt0 dt) /\
  (n < Z.to_nat excelMaxRows)%nat /\
  (forall i, (i < n)%nat -> default_marker f (excelFirstDataRow + Z.of_nat i) false) /\
  default_marker f (excelFirstDataRow + Z.of_nat n) true /\
  List.map Number (Rows dt) = List.map Z.of_nat (seq 1 n) /\
  NoDup (List.map RuleID (Rows dt)) /\
  Forall (fun r => RuleID r <> "") (Rows dt) /\
  (noMatchPolicy dt = NoMatchPolicyReturnDefault <-> defaultRow dt <> None) /\
  (forall d, defaultRow dt = Some d ->
     Number d = Z.of_nat n + 1 /\ RuleID d <> "" /\
     ~ In (RuleID d) (List.map RuleID (Rows dt)) /\ EvalCells d = []).
Proof.
  unfold loadExcelWorkbook.
  destruct (GetSheetIndex_error f); [discriminate|]. intros Hload.
  apply loaded_bind_Loaded in Hload as (version & _ & Hload).
  apply loaded_bind_Loaded in Hload as (mpRaw & Hmpcell%expectLabelAndValue_spec & Hload).
  apply loaded_bind_Loaded in Hload as (mp & Hmp & Hload).
  apply loaded_bind_Loaded in Hload as (nmpRaw & Hnmpcell%expectLabelAndValue_spec & Hload).
  apply loaded_bind_Loaded in Hload as (nmp & Hnmp & Hload).
  apply loaded_bind_Loaded in Hload as ([[layout firstCol] lastCol] & Hcols & Hload).
  assert (HfirstCol : firstCol = excelFirstColumn).
  { unfold readExcelColumns in Hcols.
    apply loaded_bind_Loaded in Hcols as (marker & _ & Hcols).
    destruct (negb _); [discriminate|].
    apply loaded_bind_Loaded in Hcols as (last & _ & Hcols).
    destruct (last =? 0); [discriminate|].
    apply loaded_bind_Loaded in Hcols as (read & _ & Hcols).
    destruct (_ || _); [discriminate|]. now injection Hcols as _ <- _. }
  subst firstCol.
  apply loaded_bind_Loaded in Hload as (dt0 & Hnew%of_table_Loaded & Hload).
  apply loaded_bind_Loaded in Hload as ([l defaultRow] & Hrows & Hload).
  apply loaded_bind_Loaded in Hload as (dt1 & Hadd & Hload).
  pose proof (NewDecisionTable_policies _ _ _ _ _ _ Hnew)
    as (Hname & Hmp0 & Hnmp0 & Hrv0 & Hrows0 & Hdef0).
  unfold readExcelRows in Hrows.
  apply loaded_bind_Loaded in Hrows as (marker & _ & Hrows).
  destruct (negb _); [discriminate|].
  apply loaded_bind_Loaded in Hrows as ([l' d] & Hread & Hrows).
  destruct d as [d|]; [|discriminate]. injection Hrows as <- <-.
  apply (read_rows_spec _ _ _ _ _ excelFirstDataRow) in Hread
    as (ruleIDs & Hinv & Hlen & Hmarkers & Hmarker & Hdn & Hdcells & Hdne & Hdout).
  2: reflexivity.
  2: simpl; lia.
  2: { repeat split; constructor. }
  2: { simpl. lia. }
  cbn [length Nat.add] in Hlen.
  pose proof (rows_read_positive _ _ Hinv) as Hpos.
  apply add_rows_spec in Hadd as (Hreg1 & (prepared & Hrows1 & Hnum1 & Hids1) & Hdef1);
    [|exact Hpos].
  rewrite Hrows0 in Hrows1. simpl in Hrows1.
  destruct Hinv as (Hnum & Hnodup & Hids).
  destruct (registered_frame dt0 dt1 Hreg1)
    as (Hname1 & _ & _ & Hmp1 & Hnmp1 & Hrv1 & _).
  assert (Hlen1 : length (rows dt1) = length l').
  { rewrite Hrows1, <- (length_map Number prepared), Hnum1. apply length_map. }
  assert (Hrules : forall dt2,
            rows dt2 = rows dt1 ->
            (length (Rows dt2) < Z.to_nat excelMaxRows)%nat /\
            (forall i, (i < length (Rows dt2))%nat ->
               default_marker f (excelFirstDataRow + Z.of_nat i) false) /\
            default_marker f (excelFirstDataRow + Z.of_nat (length (Rows dt2))) true /\
            List.map Number (Rows dt2) = List.map Z.of_nat (seq 1 (length (Rows dt2))) /\
            NoDup (List.map RuleID (Rows dt2)) /\
            Forall (fun r => RuleID r <> "") (Rows dt2)).
  { intros dt2 Hsame. unfold Rows. rewrite Hsame, Hlen1.
    split; [exact Hlen|]. split; [exact Hmarkers|]. split; [exact Hmarker|].
    rewrite Hrows1, Hnum1. split; [exact Hnum|].
    rewrite Hids1. split; [exact Hnodup|].
    apply List.Forall_forall. intros r Hr.
    apply (in_map RuleID) in Hr. rewrite Hids1 in Hr.
    apply in_map_iff in Hr as (r' & Heq & Hr'). rewrite <- Heq.
    rewrite List.Forall_forall in Hids. now apply Hids. }
  assert (Hfresh : ~ In (RuleID d) (List.map RuleID (rows dt1))).
  { rewrite Hrows1, Hids1. intros Hin. apply in_map_iff in Hin as (r & Hr & Hin).
    rewrite List.Forall_forall in Hids. destruct (Hids r Hin) as [_ Hseen].
    rewrite Hr in Hseen. contradiction. }
  destruct (Z.eqb_spec nmp NoMatchPolicyReturnDefault) as [Hdefault|Hthrow].
  - destruct (SetDefaultRow dt1 d) as [dt2 set] eqn:Hset.
    apply loaded_bind_Loaded in Hload as ([] & Hok%of_table_Loaded & [= <-]). subst set.
    pose proof (registered_SetDefaultRow dt1 dt1 d (registered_start dt1)) as Hstep.
    rewrite Hset in Hstep. simpl in Hstep.
    destruct (SetDefaultRow_frame dt1 d) as (Hn2 & _ & _ & _ & Hm2 & Hnm2 & Hr2).
    rewrite Hset in Hn2, Hm2, Hnm2, Hr2. simpl in Hn2, Hm2, Hnm2, Hr2.
    apply SetDefaultRow_numbered in Hset as (Hsame & stored & Hstored & Hsn & Hsid & _ & Hsc);
      [|lia].
    cbv zeta.
    split; [congruence|].
    split; [exists mpRaw; split; [apply Hmpcell|congruence]|].
    split; [exists nmpRaw; split; [apply Hnmpcell|congruence]|].
    split; [congruence|].
    split.
    { exists layout, lastCol, [Some (WithMatchPolicy mp); Some (WithNoMatchPolicy nmp)], dt0.
      split; [exact Hcols|]. split; [exact Hnew|].
      split; [repeat constructor|]. exact (registered_trans _ _ _ Hreg1 Hstep). }
    destruct (Hrules dt2 Hsame) as (H1 & H2 & H3 & H4 & H5 & H6).
    split; [exact H1|]. split; [exact H2|]. split; [exact H3|]. split; [exact H4|].
    split; [exact H5|]. split; [exact H6|].
    split.
    { split; [intros _; congruence|intros _; congruence]. }
    intros d' Hd'. rewrite Hstored in Hd'. injection Hd' as <-.
    unfold Rows. rewrite Hsame, Hlen1, Hsn, Hsid. repeat split; assumption.
  - injection Hload as <-. cbv zeta.
    split; [congruence|].
    split; [exists mpRaw; split; [apply Hmpcell|congruence]|].
    split; [exists nmpRaw; split; [apply Hnmpcell|congruence]|].
    split; [congruence|].
    split.
    { exists layout, lastCol, [Some (WithMatchPolicy mp); Some (WithNoMatchPolicy nmp)], dt0.
      split; [exact Hcols|]. split; [exact Hnew|].
      split; [repeat constructor|]. exact Hreg1. }
    destruct (Hrules dt1 eq_refl) as (H1 & H2 & H3 & H4 & H5 & H6).
    split; [exact H1|]. split; [exact H2|]. split; [exact H3|]. split; [exact H4|].
    split; [exact H5|]. split; [exact H6|].
    split.
    { split; [intros Hp; congruence|intros Hd; congruence]. }
    intros d' Hd'. congruence.
Qed.

(** *** Errors that a workbook cannot cause *)

Lemma loaded_bind_LoadErr {A B : Type} (r : loaded A) (g : A -> loaded B) (e : load_error) :
  r ≫= g = LoadErr e -> r = LoadErr e \/ exists a, r = Loaded a /\ g a = LoadErr e.
Proof.
  destruct r as [a| |]; intros Hr;
    [right; exists a; split; [reflexivity|exact Hr]
    |left; injection Hr as ->; reflexivity|discriminate Hr].
Qed.

Lemma load_wrap_LoadErr {A : Type} (w : load_error -> load_error) (r : loaded A) e :
  load_wrap w r = LoadErr e -> exists cause, e = w cause.
Proof. destruct r; simpl; intros [= <-]. eauto. Qed.

Lemma of_table_LoadErr {A : Type} (r : result A) e :
  of_table r = LoadErr e -> exists cause, e = ErrTable cause.
Proof. destruct r; simpl; intros [= <-]. eauto. Qed.

Lemma GetCellValue_LoadErr f col row e :
  GetCellValue f col row = LoadErr e -> exists cause, e = ErrExcelize cause.
Proof. unfold GetCellValue. destruct (sheet_cell f col row); intros [= <-]. eauto. Qed.

Lemma GetCellValue_no_panic f col row : GetCellValue f col row <> LoadPanic.
Proof. unfold GetCellValue. now destruct (sheet_cell f col row). Qed.

(** The error of a call is the error of a cell, a wrapped error or an
    error of the table. *)
Ltac foreign_error Hrun :=
  first
    [ apply GetCellValue_LoadErr in Hrun as [? ->]
    | apply load_wrap_LoadErr in Hrun as [? ->]
    | apply of_table_LoadErr in Hrun as [? ->] ];
  reflexivity.

Lemma expectLabelAndValue_error f row label e :
  expectLabelAndValue f row label = LoadErr e -> defensive e = false.
Proof.
  unfold expectLabelAndValue. intros Hrun.
  apply loaded_bind_LoadErr in Hrun as [Hrun|(labelCell & _ & Hrun)]; [foreign_error Hrun|].
  destruct (negb _); [now injection Hrun as <-|].
  apply loaded_bind_LoadErr in Hrun as [Hrun|(value & _ & Hrun)]; [foreign_error Hrun|].
  destruct (_ =s ""); [now injection Hrun as <-|discriminate].
Qed.

Lemma find_last_column_error f count col e :
  find_last_column f count col = LoadErr e -> defensive e = false.
Proof.
  revert col. induction count as [|count IH]; intros col; simpl; [discriminate|].
  intros Hrun.
  apply loaded_bind_LoadErr in Hrun as [Hrun|(value & _ & Hrun)]; [foreign_error Hrun|].
  destruct (_ =s ""); [now apply IH in Hrun|].
  destruct (negb _); [now injection Hrun as <-|discriminate].
Qed.

Lemma read_columns_error f count col layout seen e :
  read_columns f count col layout seen = LoadErr e -> defensive e = false.
Proof.
  revert col layout seen. induction count as [|count IH]; intros col layout seen;
    cbn [read_columns]; [discriminate|].
  intros Hrun.
  apply loaded_bind_LoadErr in Hrun as [Hrun|(name & _ & Hrun)]; [foreign_error Hrun|].
  destruct (_ =s ""); [now injection Hrun as <-|].
  destruct (bool_decide _); [now injection Hrun as <-|].
  apply loaded_bind_LoadErr in Hrun as [Hrun|(typeRaw & _ & Hrun)]; [foreign_error Hrun|].
  apply loaded_bind_LoadErr in Hrun as [Hrun|(colType & _ & Hrun)]; [foreign_error Hrun|].
  apply loaded_bind_LoadErr in Hrun as [Hrun|(dataTypeRaw & _ & Hrun)]; [foreign_error Hrun|].
  apply loaded_bind_LoadErr in Hrun as [Hrun|(dataType & _ & Hrun)]; [foreign_error Hrun|].
  now apply IH in Hrun.
Qed.

Lemma readExcelColumns_error f e :
  readExcelColumns f = LoadErr e -> defensive e = false.
Proof.
  unfold readExcelColumns. intros Hrun.
  apply loaded_bind_LoadErr in Hrun as [Hrun|(marker & _ & Hrun)]; [foreign_error Hrun|].
  destruct (negb _); [now injection Hrun as <-|].
  apply loaded_bind_LoadErr in Hrun as [Hrun|(lastCol & _ & Hrun)];
    [now apply find_last_column_error in Hrun|].
  destruct (lastCol =? 0); [now injection Hrun as <-|].
  apply loaded_bind_LoadErr in Hrun as [Hrun|(layout & _ & Hrun)];
    [now apply read_columns_error in Hrun|].
  destruct (_ || _); [now injection Hrun as <-|discriminate].
Qed.

Lemma convert_cells_error f layout firstCol rowIdx count col row e :
  convert_cells f layout firstCol rowIdx count col row = LoadErr e ->
  0 <= col - firstCol ->
  col - firstCol + Z.of_nat count <= Z.of_nat (length (Ordered layout)) ->
  defensive e = false.
Proof.
  revert col row. induction count as [|count IH]; intros col row;
    cbn [convert_cells]; [discriminate|].
  intros Hrun Hlow Hhigh. cbv zeta in Hrun.
  assert (Hin : (col - firstCol <? 0)
                || (Z.of_nat (length (Ordered layout)) <=? col - firstCol) = false).
  { apply orb_false_intro; [apply Z.ltb_ge|apply Z.leb_gt]; lia. }
  rewrite Hin in Hrun.
  assert (Hnext : 0 <= col + 1 - firstCol /\
                  col + 1 - firstCol + Z.of_nat count <= Z.of_nat (length (Ordered layout)))
    by lia.
  destruct Hnext as [Hlow' Hhigh'].
  destruct (nth_error _ _) as [column|]; [|discriminate].
  apply loaded_bind_LoadErr in Hrun as [Hrun|(rawValue & _ & Hrun)]; [foreign_error Hrun|].
  destruct (col_Type column =s ColumnTypeCondition).
  - destruct (_ =s ""); [exact (IH _ _ Hrun Hlow' Hhigh')|].
    apply loaded_bind_LoadErr in Hrun as [Hrun|([op operand] & _ & Hrun)];
      [foreign_error Hrun|].
    exact (IH _ _ Hrun Hlow' Hhigh').
  - destruct (one_of _ _); exact (IH _ _ Hrun Hlow' Hhigh').
Qed.

Lemma read_rows_error f layout firstCol lastCol count rowIdx rowNumber l ruleIDs e :
  read_rows f layout firstCol lastCol count rowIdx rowNumber l ruleIDs = LoadErr e ->
  Z.of_nat (length (Ordered layout)) = lastCol - firstCol + 1 -> firstCol <= lastCol ->
  defensive e = false.
Proof.
  intros Hrun Hlen Hcols. revert rowIdx rowNumber l ruleIDs Hrun.
  induction count as [|count IH]; intros rowIdx rowNumber l ruleIDs;
    cbn [read_rows]; [discriminate|].
  intros Hrun. cbv zeta in Hrun.
  apply loaded_bind_LoadErr in Hrun as [Hrun|([row ids] & _ & Hrun)].
  - unfold convertExcelRow in Hrun.
    apply loaded_bind_LoadErr in Hrun as [Hrun|(cells & _ & Hrun)].
    + apply convert_cells_error in Hrun; [exact Hrun|lia|lia].
    + cbv zeta in Hrun. destruct (bool_decide _); [now injection Hrun as <-|discriminate].
  - apply loaded_bind_LoadErr in Hrun as [Hrun|(markerCell & _ & Hrun)]; [foreign_error Hrun|].
    destruct (EqualFold _ _); [|now apply IH in Hrun].
    destruct (0 <? _)%nat; [now injection Hrun as <-|discriminate].
Qed.

Lemma add_rows_error idx l dt e : add_rows idx l dt = LoadErr e -> defensive e = false.
Proof.
  revert idx dt. induction l as [|row rest IH]; intros idx dt; simpl; [discriminate|].
  destruct (AddRow dt row) as [dt1 added]. intros Hrun.
  apply loaded_bind_LoadErr in Hrun as [Hrun|([] & _ & Hrun)]; [foreign_error Hrun|].
  now apply IH in Hrun.
Qed.

(** X30. The two checks of the workbook loader that guard against its own
    mistakes never fire: whatever the workbook holds, [loadExcelWorkbook]
    fails neither with the error of a column index out of range, because a
    row is read over exactly the columns of the layout, nor with the error
    of a default row required, because the rows are only returned with the
    row that carries the Default Row marker. *)
Theorem loadExcelWorkbook_defensive_checks (name : string) (f : Workbook) :
  loadExcelWorkbook name f <> LoadErr ErrColumnIndex /\
  loadExcelWorkbook name f <> LoadErr ErrDefaultRowRequired.
Proof.
  assert (Hlive : forall e, loadExcelWorkbook name f = LoadErr e -> defensive e = false).
  { intros e. unfold loadExcelWorkbook.
    destruct (GetSheetIndex_error f); [now intros [= <-]|]. intros Hrun.
    apply loaded_bind_LoadErr in Hrun as [Hrun|(version & _ & Hrun)];
      [now apply expectLabelAndValue_error in Hrun|].
    apply loaded_bind_LoadErr in Hrun as [Hrun|(mpRaw & _ & Hrun)];
      [now apply expectLabelAndValue_error in Hrun|].
    apply loaded_bind_LoadErr in Hrun as [Hrun|(mp & _ & Hrun)].
    { unfold parseMatchPolicyString in Hrun. cbv zeta in Hrun.
      repeat match type of Hrun with
        | (if ?c then _ else _) = _ => destruct c; [discriminate|]
        end.
      now injection Hrun as <-. }
    apply loaded_bind_LoadErr in Hrun as [Hrun|(nmpRaw & _ & Hrun)];
      [now apply expectLabelAndValue_error in Hrun|].
    apply loaded_bind_LoadErr in Hrun as [Hrun|(nmp & _ & Hrun)].
    { unfold parseNoMatchPolicyString in Hrun. cbv zeta in Hrun.
      repeat match type of Hrun with
        | (if ?c then _ else _) = _ => destruct c; [discriminate|]
        end.
      now injection Hrun as <-. }
    apply loaded_bind_LoadErr in Hrun as [Hrun|([[layout firstCol] lastCol] & Hcols & Hrun)];
      [now apply readExcelColumns_error in Hrun|].
    apply readExcelColumns_inv in Hcols as (_ & Hrange & _ & _ & _ & Hlen & _).
    apply loaded_bind_LoadErr in Hrun as [Hrun|(dt0 & _ & Hrun)]; [foreign_error Hrun|].
    apply loaded_bind_LoadErr in Hrun as [Hrun|([l defaultRow] & Hrows & Hrun)].
    { unfold readExcelRows in Hrun.
      apply loaded_bind_LoadErr in Hrun as [Hrun|(marker & _ & Hrun)]; [foreign_error Hrun|].
      destruct (negb _); [now injection Hrun as <-|].
      apply loaded_bind_LoadErr in Hrun as [Hrun|([l d] & _ & Hrun)].
      - apply read_rows_error in Hrun; [exact Hrun|exact Hlen|lia].
      - destruct d; [discriminate|now injection Hrun as <-]. }
    assert (Hsome : defaultRow <> None).
    { unfold readExcelRows in Hrows.
      apply loaded_bind_Loaded in Hrows as (marker & _ & Hrows).
      destruct (negb _); [discriminate|].
      apply loaded_bind_Loaded in Hrows as ([l' d] & _ & Hrows).
      destruct d; [|discriminate]. now injection Hrows as _ <-. }
    apply loaded_bind_LoadErr in Hrun as [Hrun|(dt1 & _ & Hrun)];
      [now apply add_rows_error in Hrun|].
    destruct (nmp =? NoMatchPolicyReturnDefault); [|discriminate].
    destruct defaultRow as [d|]; [|contradiction].
    destruct (SetDefaultRow dt1 d) as [dt2 set].
    apply loaded_bind_LoadErr in Hrun as [Hrun|([] & _ & Hrun)]; [foreign_error Hrun|].
    discriminate. }
  split; intros Hrun; apply Hlive in Hrun; discriminate.
Qed.

(** *** The operators of a loaded table *)

Lemma AddRow_uses allowed dt row dt' :
  AddRow dt row = (dt', Ok tt) ->
  uses_operators allowed row -> Forall (uses_operators allowed) (rows dt) ->
  Forall (uses_operators allowed) (rows dt').
Proof.
  intros Hadd Hrow Hrows.
  apply AddRow_kept in Hadd as (stored & Hstored & _ & _ & _ & Hcells & _).
  unfold Rows in Hstored. rewrite Hstored. apply Forall_app. split; [exact Hrows|].
  constructor; [|constructor]. unfold uses_operators in *.
  induction Hcells as [|cell kept cells kepts (col & _ & _ & Hop & _) _ IH]; [constructor|].
  inversion Hrow; subst. constructor; [now rewrite Hop|auto].
Qed.

Lemma when_cells_uses conditionCols when cells cells' :
  when_cells conditionCols when cells = Loaded cells' ->
  Forall (fun cell => In (ec_Operator cell) json_operators) cells ->
  Forall (fun cell => In (ec_Operator cell) json_operators) cells'.
Proof.
  revert when cells. induction conditionCols as [|column cols IH]; intros when cells; simpl.
  { now intros [= <-]. }
  destruct when as [|[cell|] rest]; [discriminate| |]; [|apply IH].
  destruct (_ =s "").
  - destruct (negb _); [discriminate|apply IH].
  - intros Hcells Hall.
    apply loaded_bind_Loaded in Hcells as (op & Hop%load_wrap_Loaded & Hcells).
    destruct (_ && _); [discriminate|].
    apply IH in Hcells; [exact Hcells|].
    apply Forall_app. split; [exact Hall|]. constructor; [|constructor].
    now apply parseJSONOperatorToken_operators in Hop.
Qed.

Lemma add_rules_uses idx rules conditionCols outputCols dt ruleIDs dt' ruleIDs' :
  add_rules idx rules conditionCols outputCols dt ruleIDs = Loaded (dt', ruleIDs') ->
  Forall (uses_operators json_operators) (rows dt) ->
  Forall (uses_operators json_operators) (rows dt').
Proof.
  revert idx dt ruleIDs. induction rules as [|rule rest IH]; intros idx dt ruleIDs; simpl.
  { now intros [= <- <-]. }
  intros Hadd Hrows.
  apply loaded_bind_Loaded in Hadd as ([row ids] & Hconv%load_wrap_Loaded & Hadd).
  destruct (AddRow dt row) as [dt1 added] eqn:Hrow.
  apply loaded_bind_Loaded in Hadd as ([] & Hok%load_wrap_Loaded%of_table_Loaded & Hadd).
  subst added. apply IH in Hadd; [exact Hadd|].
  apply (AddRow_uses _ _ _ _ Hrow); [|exact Hrows].
  unfold convertRule in Hconv.
  destruct (negb _); [discriminate|]. destruct (negb _); [discriminate|].
  apply loaded_bind_Loaded in Hconv as (evalCells & Hwhen & Hconv).
  apply loaded_bind_Loaded in Hconv as (returnCells & _ & Hconv).
  apply ensureUniqueRuleID_spec in Hconv as (_ & _ & _ & _ & _ & Hcells & _).
  unfold uses_operators. rewrite Hcells. simpl.
  apply (when_cells_uses _ _ _ _ Hwhen). constructor.
Qed.

Lemma convert_cells_uses f layout firstCol rowIdx count col row row' :
  convert_cells f layout firstCol rowIdx count col row = Loaded row' ->
  uses_operators excel_operators row -> uses_operators excel_operators row'.
Proof.
  revert col row. induction count as [|count IH]; intros col row; cbn [convert_cells].
  { now intros [= <-]. }
  cbv zeta. destruct (_ || _); [discriminate|].
  destruct (nth_error _ _) as [column|]; [|discriminate].
  intros Hrow Huses. apply loaded_bind_Loaded in Hrow as (rawValue & _ & Hrow).
  destruct (col_Type column =s ColumnTypeCondition).
  - destruct (TrimSpace rawValue =s ""); [exact (IH _ _ Hrow Huses)|].
    apply loaded_bind_Loaded in Hrow as ([op operand] & Hop%load_wrap_Loaded & Hrow).
    apply (IH _ _ Hrow). unfold uses_operators. simpl.
    apply Forall_app. split; [exact Huses|]. constructor; [|constructor].
    simpl. apply parseConditionString_fields in Hop as (? & ? & _ & _ & _ & _ & Hin & _).
    exact Hin.
  - destruct (one_of _ _); exact (IH _ _ Hrow Huses).
Qed.

Lemma read_rows_uses f layout firstCol lastCol count rowIdx rowNumber l ruleIDs l' d :
  read_rows f layout firstCol lastCol count rowIdx rowNumber l ruleIDs = Loaded (l', d) ->
  Forall (uses_operators excel_operators) l -> Forall (uses_operators excel_operators) l'.
Proof.
  revert rowIdx rowNumber l ruleIDs.
  induction count as [|count IH]; intros rowIdx rowNumber l ruleIDs; cbn [read_rows].
  { now intros [= <- <-]. }
  cbv zeta. intros Hread Hall.
  apply loaded_bind_Loaded in Hread as ([row ids] & Hrow & Hread).
  apply loaded_bind_Loaded in Hread as (markerCell & _ & Hread).
  destruct (EqualFold _ _).
  - destruct (0 <? _)%nat; [discriminate|]. now injection Hread as <- <-.
  - apply IH in Hread; [exact Hread|].
    apply Forall_app. split; [exact Hall|]. constructor; [|constructor].
    unfold convertExcelRow in Hrow.
    apply loaded_bind_Loaded in Hrow as (cells & Hcells & Hrow).
    apply convert_cells_uses in Hcells; [|constructor].
    cbv zeta in Hrow. destruct (bool_decide _); [discriminate|].
    injection Hrow as <- <-. exact Hcells.
Qed.

Lemma add_rows_uses idx l dt dt' :
  add_rows idx l dt = Loaded dt' ->
  Forall (uses_operators excel_operators) l ->
  Forall (uses_operators excel_operators) (rows dt) ->
  Forall (uses_operators excel_operators) (rows dt').
Proof.
  revert idx dt. induction l as [|row rest IH]; intros idx dt; simpl.
  { now intros [= <-]. }
  intros Hadd Hall Hrows. inversion Hall; subst.
  destruct (AddRow dt row) as [dt1 added] eqn:Hrow.
  apply loaded_bind_Loaded in Hadd as ([] & Hok%load_wrap_Loaded%of_table_Loaded & Hadd).
  subst added. apply IH in Hadd; [exact Hadd|assumption|].
  now apply (AddRow_uses _ _ _ _ Hrow).
Qed.

(** X29. The conditions of a loaded table use the operators of its loader:
    every condition of a table that [buildDecisionTable] returns uses one
    of the eleven operators of the JSON documents, so none takes a list as
    input, and every condition of a table that [loadExcelWorkbook] returns
    uses one of the fifteen operators of the workbooks, so none is a
    regular expression or a null test. *)
Theorem loaded_tables_use_loader_operators :
  (forall spec sourceName dt,
     buildDecisionTable spec sourceName = Loaded dt ->
     Forall (uses_operators json_operators) (Rows dt) /\
     forall r cell, In r (Rows dt) -> In cell (EvalCells r) ->
       expectsActualCollection (ec_Operator cell) = false) /\
  (forall name f dt,
     loadExcelWorkbook name f = Loaded dt ->
     Forall (uses_operators excel_operators) (Rows dt) /\
     forall r cell, In r (Rows dt) -> In cell (EvalCells r) ->
       ~ In (ec_Operator cell) [OperatorMatchesRegex; OperatorIsNull; OperatorIsNotNull]).
Proof.
  split.
  - intros spec sourceName dt Hload.
    assert (Huses : Forall (uses_operators json_operators) (Rows dt)).
    { revert Hload. unfold buildDecisionTable.
      destruct (_ =? 0)%nat; [discriminate|]. destruct (_ =? 0)%nat; [discriminate|].
      destruct (_ =s ""); [discriminate|]. destruct (_ =s ""); [discriminate|].
      intros Hload.
      apply loaded_bind_Loaded in Hload as (mp & _ & Hload).
      apply loaded_bind_Loaded in Hload as (nmp & _ & Hload).
      apply loaded_bind_Loaded in Hload as ([conditionCols outputCols] & _ & Hload).
      apply loaded_bind_Loaded in Hload as (dt0 & Hnew%of_table_Loaded & Hload).
      apply loaded_bind_Loaded in Hload as ([dt1 ruleIDs] & Hadd & Hload).
      apply NewDecisionTable_policies in Hnew as (_ & _ & _ & _ & Hrows0 & _).
      apply add_rules_uses in Hadd; [|rewrite Hrows0; constructor].
      destruct (js_DefaultRule spec) as [rule|].
      - apply loaded_bind_Loaded in Hload as ([d ids] & _ & Hload).
        destruct (SetDefaultRow_frame dt1 d) as (_ & _ & _ & Hsame & _).
        destruct (SetDefaultRow dt1 d) as [dt2 set].
        apply loaded_bind_Loaded in Hload as ([] & _ & [= <-]).
        unfold Rows. simpl in Hsame. now rewrite Hsame.
      - destruct (nmp =? _); [discriminate|]. now injection Hload as <-. }
    split; [exact Huses|]. intros r cell Hr Hcell.
    rewrite List.Forall_forall in Huses. pose proof (Huses r Hr) as Hrow.
    unfold uses_operators in Hrow. rewrite List.Forall_forall in Hrow.
    pose proof (Hrow cell Hcell) as Hop. simpl in Hop.
    repeat (destruct Hop as [<-|Hop]; [reflexivity|]). destruct Hop.
  - intros name f dt Hload.
    assert (Huses : Forall (uses_operators excel_operators) (Rows dt)).
    { revert Hload. unfold loadExcelWorkbook.
      destruct (GetSheetIndex_error f); [discriminate|]. intros Hload.
      apply loaded_bind_Loaded in Hload as (version & _ & Hload).
      apply loaded_bind_Loaded in Hload as (mpRaw & _ & Hload).
      apply loaded_bind_Loaded in Hload as (mp & _ & Hload).
      apply loaded_bind_Loaded in Hload as (nmpRaw & _ & Hload).
      apply loaded_bind_Loaded in Hload as (nmp & _ & Hload).
      apply loaded_bind_Loaded in Hload as ([[layout firstCol] lastCol] & _ & Hload).
      apply loaded_bind_Loaded in Hload as (dt0 & Hnew%of_table_Loaded & Hload).
      apply loaded_bind_Loaded in Hload as ([l defaultRow] & Hrows & Hload).
      apply loaded_bind_Loaded in Hload as (dt1 & Hadd & Hload).
      apply NewDecisionTable_policies in Hnew as (_ & _ & _ & _ & Hrows0 & _).
      unfold readExcelRows in Hrows.
      apply loaded_bind_Loaded in Hrows as (marker & _ & Hrows).
      destruct (negb _); [discriminate|].
      apply loaded_bind_Loaded in Hrows as ([l' d] & Hread & Hrows).
      apply read_rows_uses in Hread; [|constructor].
      destruct d as [d|]; [|discriminate]. injection Hrows as <- <-.
      apply add_rows_uses in Hadd; [|exact Hread|rewrite Hrows0; constructor].
      destruct (nmp =? _); [|now injection Hload as <-].
      destruct (SetDefaultRow_frame dt1 d) as (_ & _ & _ & Hsame & _).
      destruct (SetDefaultRow dt1 d) as [dt2 set].
      apply loaded_bind_Loaded in Hload as ([] & _ & [= <-]).
      unfold Rows. simpl in Hsame. now rewrite Hsame. }
    split; [exact Huses|]. intros r cell Hr Hcell.
    rewrite List.Forall_forall in Huses. pose proof (Huses r Hr) as Hrow.
    unfold uses_operators in Hrow. rewrite List.Forall_forall in Hrow.
    pose proof (Hrow cell Hcell) as Hop. simpl in Hop. intros Hin. simpl in Hin.
    repeat (destruct Hop as [Hop'|Hop]; [rewrite <- Hop' in Hin; intuition discriminate|]).
    destruct Hop.
Qed.

End Workbooks.

(** ** The properties of the engine at the examples *)

Lemma coercePrimitive_typed_witness :
  (VString " 42 " = VNil /\ VInt KInt64 42 = VNil) \/
  (VString " 42 " <> VNil /\ has_type DataTypeInteger (VInt KInt64 42) = true).
Proof.
  apply (coercePrimitive_typed (H := literal_library) DataTypeInteger (VString " 42 ")).
  vm_compute. reflexivity.
Defined.

Lemma coercePrimitive_idempotent_witness :
  coercePrimitive (H := literal_library) DataTypeListInteger
    (VSlice [VInt KInt64 1; VInt KInt64 2]) =
  Ok (VSlice [VInt KInt64 1; VInt KInt64 2]).
Proof.
  apply (coercePrimitive_idempotent (H := literal_library) DataTypeListInteger
           (VStrings ["1"; " 2"])).
  - vm_compute. reflexivity.
  - vm_compute. reflexivity.
  - discriminate.
  - discriminate.
Defined.

Lemma orderings_are_consistent_witness :
  compare DataTypeInteger OperatorLess (VInt KInt64 2) (VInt KInt64 3) = Ok true /\
  (VInt KInt64 3 <> VNil -> VInt KInt64 2 <> VNil ->
   compare DataTypeInteger OperatorLessOrEqual (VInt KInt64 3) (VInt KInt64 2) = Ok (negb true) /\
   compare DataTypeInteger OperatorGreaterOrEqual (VInt KInt64 2) (VInt KInt64 3) =
     Ok (negb true)).
Proof.
  apply orderings_are_consistent. vm_compute. reflexivity.
Defined.

Lemma suited_cell_fails_only_on_input_witness :
  sanitizeActualValue (H := literal_library) DataTypeInteger (VString "abc") =
  Err ErrParseInt.
Proof.
  apply (suited_cell_fails_only_on_input (H := literal_library) DataTypeInteger
           OperatorGreaterOrEqual (VInt KInt 18) (VInt KInt64 18) (VString "abc")).
  - vm_compute. reflexivity.
  - vm_compute. reflexivity.
  - discriminate.
  - vm_compute. reflexivity.
Defined.

Lemma unknown_operator_never_matches_witness :
  (forall dt raw,
     sanitizeExpectedValue (H := literal_library) dt "BETWEEN" raw =
     coercePrimitive (H := literal_library) dt raw) /\
  (forall dt actual expected a,
     sanitizeActualValue (H := literal_library) dt actual = Ok a ->
     evaluateCell (H := literal_library) dt "BETWEEN" actual expected =
     Err (ErrUnsupportedOperator "BETWEEN")) /\
  (forall dt actual expected b,
     evaluateCell (H := literal_library) dt "BETWEEN" actual expected <> Ok b) /\
  (forall r input cell,
     In cell (EvalCells r) -> ec_Operator cell = "BETWEEN" ->
     matches (H := literal_library) r input <> Ok true).
Proof.
  apply (unknown_operator_never_matches (H := literal_library) "BETWEEN").
  intros Hin. simpl in Hin.
  repeat (destruct Hin as [Hin|Hin]; [discriminate|]). exact Hin.
Defined.

Lemma list_operators_on_strings_witness :
  evaluateCell (H := literal_library) DataTypeListString OperatorAnyContained
    (VStrings ["vip"; "beta"]) (VSlice (VString <$> ["vip"])) =
  Ok (bool_decide (Exists (fun x => x ∈ ["vip"]) ["vip"; "beta"])).
Proof.
  apply (list_operators_on_strings (H := literal_library) DataTypeListString
           ["vip"; "beta"] ["vip"] "vip").
  right. reflexivity.
Defined.

Lemma list_operators_on_integers_witness :
  evaluateCell (H := literal_library) DataTypeListInteger OperatorAllContained
    (VInt64s [3; 5]) (VSlice (VInt KInt64 <$> [5; 3; 8])) =
  Ok (bool_decide ([3; 5] ⊆ [5; 3; 8])).
Proof.
  apply (list_operators_on_integers (H := literal_library) DataTypeListInteger
           [3; 5] [5; 3; 8] 3).
  - right. reflexivity.
  - repeat constructor.
  - repeat constructor.
  - reflexivity.
Defined.

Lemma Evaluate_reads_tested_columns_witness :
  Evaluate (H := literal_library) (sample_table [] sample_rows) vip_only None =
  Evaluate (H := literal_library) (sample_table [] sample_rows) vip_only_and_more None.
Proof.
  apply (Evaluate_reads_tested_columns (H := literal_library)).
  intros column Hin. vm_compute in Hin.
  repeat (destruct Hin as [<-|Hin]; [vm_compute; reflexivity|]). destruct Hin.
Defined.

Lemma registration_keeps_the_table_witness :
  Name (sample_table [] sample_rows) = "eligibility" /\
  exists appended,
    Rows (sample_table [] sample_rows) = ([] ++ appended)%list /\
    RowCount (sample_table [] sample_rows) = 0 + Z.of_nat (length appended).
Proof.
  destruct (registration_keeps_the_table (H := literal_library)
              (sample_table [] []) (sample_table [] sample_rows))
    as (Hname & _ & _ & _ & _ & _ & Hrows).
  - apply registered_AddRows. constructor.
  - split; [exact Hname|exact Hrows].
Defined.

Lemma registered_rows_are_prepared_witness :
  holds_prepared_rows (H := literal_library) (sample_table [] sample_rows) /\
  (forall r input number column,
     In r (rows (sample_table [] sample_rows)) ->
     matches (H := literal_library) r input <> Err (ErrMissingDataType number column)).
Proof.
  destruct (registered_rows_are_prepared (H := literal_library) "eligibility"
              [mkColumn "age" ColumnTypeCondition DataTypeInteger;
               mkColumn "country" ColumnTypeCondition DataTypeString;
               mkColumn "segments" ColumnTypeCondition DataTypeListString]
              [mkColumn "tier" ColumnTypeConclusion DataTypeString;
               mkColumn "discount" ColumnTypeConclusion DataTypeDecimal]
              [] (sample_table [] []) (sample_table [] sample_rows))
    as (Hprepared & _ & Hmatches).
  - vm_compute. reflexivity.
  - constructor.
  - apply registered_AddRows. constructor.
  - split; [exact Hprepared|exact Hmatches].
Defined.


Lemma AddRow_stores_witness :
  exists stored,
    Rows (sample_table [] [unknown_operator_row]) =
      (Rows (sample_table [] []) ++ [stored])%list /\
    RuleID stored = "between" /\ Comments stored = "" /\
    Number stored = (if 0 <=? 0 then RowCount (sample_table [] []) + 1 else 0).
Proof.
  destruct (AddRow_stores (H := literal_library) (sample_table [] [])
              (sample_table [] [unknown_operator_row]) unknown_operator_row)
    as (stored & Hrows & Hid & Hcomments & Hnumber & _).
  - vm_compute. reflexivity.
  - exists stored. split; [exact Hrows|]. split; [exact Hid|].
    split; [exact Hcomments|exact Hnumber].
Defined.

(** ** The properties of the loaders at the examples *)

Lemma convertColumns_spec_witness :
  (length [mkColumn "score" ColumnTypeCondition DataTypeInteger] +
   length [mkColumn "segment" ColumnTypeConclusion DataTypeString] =
   length (js_Columns score_check))%nat /\
  NoDup (List.map col_Name
           ([mkColumn "score" ColumnTypeCondition DataTypeInteger] ++
            [mkColumn "segment" ColumnTypeConclusion DataTypeString])).
Proof.
  destruct (convertColumns_spec (H0 := ascii_strings) (js_Columns score_check)
              [mkColumn "score" ColumnTypeCondition DataTypeInteger]
              [mkColumn "segment" ColumnTypeConclusion DataTypeString])
    as (_ & _ & Hlength & Hnames & _).
  - vm_compute. reflexivity.
  - split; [exact Hlength|exact Hnames].
Defined.

Lemma buildDecisionTable_spec_witness :
  RowCount score_check_table = 1 /\
  List.map Number (Rows score_check_table) = [1] /\
  (js_DefaultRule score_check = None <-> defaultRow score_check_table = None).
Proof.
  destruct (buildDecisionTable_spec (H := literal_library) (H0 := ascii_strings)
              score_check "score.json" score_check_table)
    as (_ & _ & _ & _ & Hcount & _ & Hnumbers & _ & _ & Hdefault & _).
  - vm_compute. reflexivity.
  - split; [exact Hcount|]. split; [exact Hnumbers|exact Hdefault].
Defined.

(** ** The properties of the workbook loader at the examples *)

Lemma parseConditionString_spec_witness :
  exists opToken rest,
    "IN CA,MX" = (opToken ++ " " ++ rest)%string /\ opToken <> "" /\
    Forall (fun c => c <> " "%char) (list_ascii_of_string opToken) /\
    parseOperatorToken (H := ascii_strings) opToken = Loaded OperatorIn /\
    In OperatorIn excel_operators /\
    if requiresCollectionValue OperatorIn
    then exists values,
           VStrings ["CA"; "MX"] = VStrings values /\
           splitAndDedupeList (TrimSpace rest) = Loaded values /\
           values <> [] /\ NoDup values /\ Forall (fun x => x <> "") values
    else VStrings ["CA"; "MX"] = VString (TrimSpace rest) /\ TrimSpace rest <> "".
Proof.
  apply (parseConditionString_spec (H0 := ascii_strings) "IN CA,MX" DataTypeString).
  vm_compute. reflexivity.
Defined.

Lemma readExcelColumns_spec_witness :
  List.map col_Name (Conditions fixture_layout) = ["age"; "country"] /\
  Z.of_nat (length (Ordered fixture_layout)) = 6 - 2 + 1 /\
  Conditions fixture_layout = List.filter is_condition (Ordered fixture_layout).
Proof.
  destruct (readExcelColumns_spec (H0 := ascii_strings) fixture fixture_layout 2 6)
    as (_ & _ & _ & _ & _ & Hlength & _ & _ & Hconditions & _).
  - vm_compute. reflexivity.
  - split; [vm_compute; reflexivity|]. split; [exact Hlength|exact Hconditions].
Defined.

Lemma loadExcelWorkbook_spec_witness :
  Name fixture_table = "fixture.xlsx" /\
  List.map Number (Rows fixture_table) = List.map Z.of_nat (seq 1 (length (Rows fixture_table))) /\
  (noMatchPolicy fixture_table = NoMatchPolicyReturnDefault <->
   defaultRow fixture_table <> None).
Proof.
  destruct (loadExcelWorkbook_spec (H := literal_library) (H0 := ascii_strings)
              "fixture.xlsx" fixture fixture_table)
    as (Hname & _ & _ & _ & _ & _ & _ & _ & Hnumbers & _ & _ & Hdefault & _).
  - vm_compute. reflexivity.
  - split; [exact Hname|]. split; [exact Hnumbers|exact Hdefault].
Defined.
